(** * CarouMate: the carousel session manager of [src/App.tsx]

    A shallow embedding of the state-handling code of the root component
    [App] (history persistence with auto-trim, the error classifier, the
    slide / preference mutators, carousel generation and the dashboard
    transition), followed by the properties the specification states about
    them.

    Conventions.
    - JavaScript strings are [string]s, the bytes of their UTF-8 text (half
      a surrogate pair that stands alone is written like a character of
      three bytes);
      [toLowerCase] is exact on every character whose lower-case form holds
      an ASCII character (the ASCII letters, the Kelvin sign and the dotted
      capital I) and keeps the others, which is all that a search for an
      ASCII text in its result can see.
    - A JavaScript object whose keys are computed at run time (a slide, a
      preferences record, [Partial<...>] updates, parsed JSON) is a
      [gmap string JsVal]; a key bound to [JUndefined] is present with the
      value [undefined], an absent key reads as [undefined].
    - React state is a record; a handler is a function from state to state,
      with state updaters applied in the order React runs them.
    - [localStorage], [crypto.randomUUID] and the generation service are the
      environment: they appear as an explicit store, an id supply and the
      results they returned. *)

From stdpp Require Import base option list gmap strings.
From Equations Require Import Equations.
From Stdlib Require Import ZArith DecimalString DecimalN DecimalPos Ascii.

Local Open Scope string_scope.
Local Open Scope Z_scope.

(** ** JavaScript strings *)

Module JsString.

(** [s.startsWith(p)] *)
Definition startsWith (p s : string) : bool := String.prefix p s.

Definition rev_string (s : string) : string :=
  String.string_of_list_ascii (rev (String.list_ascii_of_string s)).

(** [s.endsWith(p)] *)
Definition endsWith (p s : string) : bool :=
  String.prefix (rev_string p) (rev_string s).

(** [s.includes(p)] *)
Fixpoint includes (p s : string) : bool :=
  String.prefix p s ||
  match s with
  | EmptyString => false
  | String _ s' => includes p s'
  end.

Definition lower_ascii (c : ascii) : ascii :=
  let n := nat_of_ascii c in
  if (65 <=? n)%nat && (n <=? 90)%nat then ascii_of_nat (n + 32) else c.

(** [s.toLowerCase()].  Besides the ASCII capitals, two characters have a
    lower-case form with an ASCII letter in it: the Kelvin sign U+212A
    (bytes 226 132 170) becomes [k], and the dotted capital I U+0130 (bytes
    196 176) becomes [i] followed by the combining dot U+0307 (bytes 204
    135).  Every other character outside ASCII is kept as it is: its
    lower-case form holds no ASCII character, and the code only searches
    the result for ASCII texts. *)
Fixpoint toLowerCase (s : string) : string :=
  match s with
  | EmptyString => EmptyString
  | String c r =>
      match r with
      | String c1 r1 =>
          if Ascii.eqb c "196"%char && Ascii.eqb c1 "176"%char then
            String "i"%char (String "204"%char (String "135"%char (toLowerCase r1)))
          else
            match r1 with
            | String c2 r2 =>
                if Ascii.eqb c "226"%char && Ascii.eqb c1 "132"%char
                   && Ascii.eqb c2 "170"%char
                then String "k"%char (toLowerCase r2)
                else String (lower_ascii c) (toLowerCase r)
            | EmptyString => String (lower_ascii c) (toLowerCase r)
            end
      | EmptyString => String (lower_ascii c) EmptyString
      end
  end.

Fixpoint drop_string (n : nat) (s : string) : string :=
  match n, s with
  | O, _ => s
  | S n', String _ s' => drop_string n' s'
  | S _, EmptyString => EmptyString
  end.

(** The replacement text of [String.prototype.replace] for a pattern
    without capture groups: [$$], [$&], [$`] and [$'] are expanded, every
    other character stands for itself. *)
Fixpoint getSubstitution (matched before after repl : string) : string :=
  match repl with
  | EmptyString => EmptyString
  | String "$" (String "$" r) => String "$" (getSubstitution matched before after r)
  | String "$" (String "&" r) => matched +:+ getSubstitution matched before after r
  | String "$" (String "`" r) => before +:+ getSubstitution matched before after r
  | String "$" (String "'" r) => after +:+ getSubstitution matched before after r
  | String c r => String c (getSubstitution matched before after r)
  end.

(** [s.replace(new RegExp(pat, 'g'), repl)] for a pattern [pat] that
    matches itself only (no metacharacter is active in it) and is not
    empty.  [skip] characters of a match are still to be passed over;
    [before] is the text already scanned. *)
Fixpoint replace_from (pat repl : string) (skip : nat) (before s : string) : string :=
  match s with
  | EmptyString => EmptyString
  | String c s' =>
      match skip with
      | S k => replace_from pat repl k (before +:+ String c EmptyString) s'
      | O =>
          if String.prefix pat s then
            getSubstitution pat before (drop_string (String.length pat) s) repl
            +:+ replace_from pat repl (String.length pat - 1)
                  (before +:+ String c EmptyString) s'
          else String c (replace_from pat repl 0 (before +:+ String c EmptyString) s')
      end
  end.

Definition replace_global (pat repl s : string) : string :=
  replace_from pat repl 0 EmptyString s.

End JsString.

(** ** JavaScript values *)

(** A number is kept as the decimal [m * 10^e] in normal form ([m] is not a
    multiple of ten, or both are zero), so that [===] on numbers is equality
    of the representation.  Binary rounding is not modelled. *)
#[warnings="-register-all"]
Inductive JsVal : Type :=
| JUndefined
| JNull
| JBool (b : bool)
| JNum (m e : Z)
| JStr (s : string)
| JArr (l : list JsVal)
| JObj (o : gmap string JsVal).

Module Js.

(** [ToBoolean] *)
Definition truthy (v : JsVal) : bool :=
  match v with
  | JUndefined | JNull => false
  | JBool b => b
  | JNum m _ => negb (m =? 0)
  | JStr s => negb (String.eqb s "")
  | JArr _ | JObj _ => true
  end.

Definition nullish (v : JsVal) : bool :=
  match v with JUndefined | JNull => true | _ => false end.

(** [v === s] for a string literal [s] *)
Definition is_str (s : string) (v : JsVal) : bool :=
  match v with JStr s' => String.eqb s' s | _ => false end.

(** [v[k]] on a value that is neither [null] nor [undefined]; the keys
    read by the code are not properties of the primitive wrappers. *)
Definition get (k : string) (v : JsVal) : JsVal :=
  match v with
  | JObj o => default JUndefined (o !! k)
  | _ => JUndefined
  end.

(** [v[0]] *)
Definition get0 (v : JsVal) : JsVal :=
  match v with
  | JArr (x :: _) => x
  | JStr (String c _) => JStr (String c EmptyString)
  | JObj o => default JUndefined (o !! "0")
  | _ => JUndefined
  end.

Fixpoint strip10 (fuel : nat) (m e : Z) : Z * Z :=
  match fuel with
  | O => (m, e)
  | S f => if (m mod 10 =? 0) then strip10 f (m / 10) (e + 1) else (m, e)
  end.

(** Normal form of [m * 10^e]. *)
Definition mk_num (m e : Z) : JsVal :=
  if m =? 0 then JNum 0 0
  else let '(m', e') := strip10 (Z.to_nat (Z.log2 (Z.abs m))) m e in JNum m' e'.

(** [v === n] for an integer literal [n] *)
Definition is_int (n : Z) (v : JsVal) : bool :=
  match v, mk_num n 0 with
  | JNum m e, JNum m' e' => (m =? m') && (e =? e')
  | _, _ => false
  end.

Definition digits (n : Z) : string :=
  NilZero.string_of_uint (N.to_uint (Z.to_N n)).

Fixpoint zeros (n : nat) : string :=
  match n with O => EmptyString | S k => String "0" (zeros k) end.

Fixpoint take_string (n : nat) (s : string) : string :=
  match n, s with
  | S n', String c s' => String c (take_string n' s')
  | _, _ => EmptyString
  end.

(** [Number.prototype.toString] on the decimal digits of the number. *)
Definition num_to_string (m e : Z) : string :=
  if m =? 0 then "0" else
  let ds := digits (Z.abs m) in
  let k := Z.of_nat (String.length ds) in
  let n := k + e in
  let sign := if m <? 0 then "-" else "" in
  let body :=
    if (k <=? n) && (n <=? 21) then ds +:+ zeros (Z.to_nat (n - k))
    else if (0 <? n) && (n <=? 21) then
      take_string (Z.to_nat n) ds +:+ "." +:+ JsString.drop_string (Z.to_nat n) ds
    else if (-6 <? n) && (n <=? 0) then "0." +:+ zeros (Z.to_nat (- n)) +:+ ds
    else
      let ex := (if 0 <=? n - 1 then "+" else "-") +:+ digits (Z.abs (n - 1)) in
      if k =? 1 then ds +:+ "e" +:+ ex
      else take_string 1 ds +:+ "." +:+ JsString.drop_string 1 ds +:+ "e" +:+ ex
  in sign +:+ body.

Fixpoint join (sep : string) (l : list string) : string :=
  match l with
  | [] => EmptyString
  | [x] => x
  | x :: l' => x +:+ sep +:+ join sep l'
  end.

(** [String(v)] *)
Fixpoint toString (v : JsVal) : string :=
  match v with
  | JUndefined => "undefined"
  | JNull => "null"
  | JBool true => "true"
  | JBool false => "false"
  | JNum m e => num_to_string m e
  | JStr s => s
  | JArr l =>
      join "," (map (fun x => if nullish x then EmptyString else toString x) l)
  | JObj _ => "[object Object]"
  end.

End Js.

(** ** [JSON.parse] *)

Module Json.

Definition is_ws (c : ascii) : bool :=
  match c with
  | " "%char | "009"%char | "010"%char | "013"%char => true
  | _ => false
  end.

Fixpoint skip_ws (s : string) : string :=
  match s with
  | String c s' => if is_ws c then skip_ws s' else s
  | EmptyString => s
  end.

Definition digit_val (c : ascii) : option Z :=
  let n := nat_of_ascii c in
  if (48 <=? n)%nat && (n <=? 57)%nat then Some (Z.of_nat (n - 48)) else None.

Definition hex_val (c : ascii) : option Z :=
  let n := nat_of_ascii c in
  if (48 <=? n)%nat && (n <=? 57)%nat then Some (Z.of_nat (n - 48))
  else if (65 <=? n)%nat && (n <=? 70)%nat then Some (Z.of_nat (n - 55))
  else if (97 <=? n)%nat && (n <=? 102)%nat then Some (Z.of_nat (n - 87))
  else None.

Definition byte (n : Z) : ascii := ascii_of_nat (Z.to_nat n).

(** UTF-8 bytes of a code unit written as [\uXXXX]; half a surrogate pair
    that stands alone is written in the same way. *)
Definition utf8 (cp : Z) : string :=
  if cp <? 128 then String (byte cp) EmptyString
  else if cp <? 2048 then
    String (byte (192 + cp / 64)) (String (byte (128 + cp mod 64)) EmptyString)
  else
    String (byte (224 + cp / 4096))
      (String (byte (128 + (cp / 64) mod 64))
         (String (byte (128 + cp mod 64)) EmptyString)).

(** Two halves of a surrogate pair that stand side by side (bytes 237,
    160 to 175, 128 to 191 and bytes 237, 176 to 191, 128 to 191) are the
    one character of four bytes that the pair stands for. *)
Fixpoint join_surrogates (s : string) : string :=
  match s with
  | EmptyString => EmptyString
  | String b0 r =>
      match r with
      | String b1 (String b2 (String b3 (String b4 (String b5 rest)))) =>
          let n1 := Z.of_nat (nat_of_ascii b1) in
          let n2 := Z.of_nat (nat_of_ascii b2) in
          let n4 := Z.of_nat (nat_of_ascii b4) in
          let n5 := Z.of_nat (nat_of_ascii b5) in
          if Ascii.eqb b0 "237"%char && (160 <=? n1) && (n1 <=? 175)
             && (128 <=? n2) && (n2 <=? 191)
             && Ascii.eqb b3 "237"%char && (176 <=? n4) && (n4 <=? 191)
             && (128 <=? n5) && (n5 <=? 191)
          then
            let hi := 53248 + (n1 - 128) * 64 + (n2 - 128) in
            let lo := 53248 + (n4 - 128) * 64 + (n5 - 128) in
            let c := 65536 + (hi - 55296) * 1024 + (lo - 56320) in
            String (byte (240 + c / 262144))
              (String (byte (128 + (c / 4096) mod 64))
                 (String (byte (128 + (c / 64) mod 64))
                    (String (byte (128 + c mod 64)) (join_surrogates rest))))
          else String b0 (join_surrogates r)
      | _ => String b0 (join_surrogates r)
      end
  end.

(** The characters of a string literal after its opening quote, up to
    and including the closing quote, code unit by code unit. *)
Fixpoint parse_chars (s : string) : option (string * string) :=
  match s with
  | EmptyString => None
  | String "034" r => Some (EmptyString, r)
  | String "\" (String "u" (String a (String b (String c (String d r))))) =>
      match hex_val a, hex_val b, hex_val c, hex_val d, parse_chars r with
      | Some va, Some vb, Some vc, Some vd, Some (t, r') =>
          Some (utf8 (va * 4096 + vb * 256 + vc * 16 + vd) +:+ t, r')
      | _, _, _, _, _ => None
      end
  | String "\" (String e r) =>
      let out :=
        match e with
        | "034"%char => Some "034"%char
        | "\"%char => Some "\"%char
        | "/"%char => Some "/"%char
        | "b"%char => Some "008"%char
        | "f"%char => Some "012"%char
        | "n"%char => Some "010"%char
        | "r"%char => Some "013"%char
        | "t"%char => Some "009"%char
        | _ => None
        end in
      match out, parse_chars r with
      | Some c, Some (t, r') => Some (String c t, r')
      | _, _ => None
      end
  | String "\" EmptyString => None
  | String c r =>
      if (nat_of_ascii c <? 32)%nat then None
      else match parse_chars r with
           | Some (t, r') => Some (String c t, r')
           | None => None
           end
  end.

(** A run of digits: its value, its length, the rest. *)
Fixpoint parse_digits (acc : Z) (len : nat) (s : string) : Z * nat * string :=
  match s with
  | String c r =>
      match digit_val c with
      | Some d => parse_digits (acc * 10 + d) (S len) r
      | None => (acc, len, s)
      end
  | EmptyString => (acc, len, s)
  end.

(** [-? int frac? exp?] *)
Definition parse_number (s : string) : option (JsVal * string) :=
  let '(neg, s1) :=
    match s with String "-" r => (true, r) | _ => (false, s) end in
  let '(ip, ilen, s2) := parse_digits 0 0 s1 in
  let leading_zero :=
    match s1 with String "0" _ => (1 <? ilen)%nat | _ => false end in
  if (ilen =? 0)%nat || leading_zero then None else
  let frac :=
    match s2 with
    | String "." r =>
        let '(fp, flen, s3) := parse_digits ip 0 r in
        if (flen =? 0)%nat then None else Some (fp, Z.of_nat flen, s3)
    | _ => Some (ip, 0, s2)
    end in
  match frac with
  | None => None
  | Some (mant, flen, s3) =>
      let ex :=
        match s3 with
        | String c r =>
            if (c =? "e")%char || (c =? "E")%char then
              let '(eneg, r1) :=
                match r with
                | String "-" r' => (true, r')
                | String "+" r' => (false, r')
                | _ => (false, r)
                end in
              let '(ev, elen, s4) := parse_digits 0 0 r1 in
              if (elen =? 0)%nat then None
              else Some ((if eneg then - ev else ev), s4)
            else Some (0, s3)
        | EmptyString => Some (0, s3)
        end in
      match ex with
      | None => None
      | Some (ev, s4) =>
          Some (Js.mk_num (if neg then - mant else mant) (ev - flen), s4)
      end
  end.

Definition expect (lit : string) (v : JsVal) (s : string) : option (JsVal * string) :=
  if String.prefix lit s
  then Some (v, JsString.drop_string (String.length lit) s)
  else None.

(** Recursive descent; every call consumes a character before it
    recurses, so the length of the text is fuel enough. *)
Fixpoint parse_value (fuel : nat) (s : string) : option (JsVal * string) :=
  match fuel with
  | O => None
  | S fuel' =>
      match skip_ws s with
      | String "{" r =>
          match skip_ws r with
          | String "}" r' => Some (JObj ∅, r')
          | _ => parse_members fuel' r ∅
          end
      | String "[" r =>
          match skip_ws r with
          | String "]" r' => Some (JArr [], r')
          | _ => parse_elements fuel' r []
          end
      | String "034" r =>
          match parse_chars r with
          | Some (t, r') => Some (JStr (join_surrogates t), r')
          | None => None
          end
      | String "t" _ as s0 => expect "true" (JBool true) s0
      | String "f" _ as s0 => expect "false" (JBool false) s0
      | String "n" _ as s0 => expect "null" JNull s0
      | s0 => parse_number s0
      end
  end
with parse_members (fuel : nat) (s : string) (acc : gmap string JsVal)
  : option (JsVal * string) :=
  match fuel with
  | O => None
  | S fuel' =>
      match skip_ws s with
      | String "034" r =>
          match parse_chars r with
          | Some (k, r1) =>
              match skip_ws r1 with
              | String ":" r2 =>
                  match parse_value fuel' r2 with
                  | Some (v, r3) =>
                      match skip_ws r3 with
                      | String "," r4 =>
                          parse_members fuel' r4 (<[join_surrogates k:=v]> acc)
                      | String "}" r4 => Some (JObj (<[join_surrogates k:=v]> acc), r4)
                      | _ => None
                      end
                  | None => None
                  end
              | _ => None
              end
          | None => None
          end
      | _ => None
      end
  end
with parse_elements (fuel : nat) (s : string) (acc : list JsVal)
  : option (JsVal * string) :=
  match fuel with
  | O => None
  | S fuel' =>
      match parse_value fuel' s with
      | Some (v, r) =>
          match skip_ws r with
          | String "," r' => parse_elements fuel' r' (acc ++ [v])
          | String "]" r' => Some (JArr (acc ++ [v]), r')
          | _ => None
          end
      | None => None
      end
  end.

(** [JSON.parse(s)]; [None] stands for the [SyntaxError] it throws. *)
Definition parse (s : string) : option JsVal :=
  match parse_value (S (String.length s)) s with
  | Some (v, r) =>
      match skip_ws r with
      | EmptyString => Some v
      | _ => None
      end
  | None => None
  end.

End Json.

(** ** Errors and translations *)

(** What the code reads of a thrown value: [error.name], [error.code] and
    [error.message], each absent or present. *)
Record JsError : Type := mkJsError {
  err_name : option string;
  err_code : option Z;
  err_message : option string
}.

(** [new Error(msg)] *)
Definition Error_of (msg : string) : JsError :=
  {| err_name := Some "Error"; err_code := None; err_message := Some msg |}.

Section Translation.

(** The table [translations[language]] of lib/translations, which is not
    among the sources: any table of texts. *)
Variable messages : gmap string string.

(** [t(key, params)]: the text of [key], or [key] itself when the table
    has no (or an empty) text for it, with every [{{p}}] replaced by
    [String(params[p])], parameter after parameter.  The code builds a
    regular expression from [{{p}}]; it matches that text itself when the
    name [p] is made of letters, digits and underscores and is not a number
    ([plainName] below), as the names are that the code passes.  The table
    is read at keys of its own, not at a name that every object inherits. *)
Definition t (key : string) (params : list (string * JsVal)) : string :=
  let text :=
    match messages !! key with
    | Some s => if String.eqb s "" then key else s
    | None => key
    end in
  foldl (fun text p =>
           JsString.replace_global ("{{" +:+ p.1 +:+ "}}") (Js.toString p.2) text)
        text params.

(** *** The error classifier, [parseAndDisplayError] *)

Definition help_type : string := "type.googleapis.com/google.rpc.Help".
Definition rate_limits_url : string :=
  "https://ai.google.dev/gemini-api/docs/rate-limits".

(** [details?.find(d => d['@type'] === help_type)]; [None] is the
    [TypeError] of reading a property of [null] or of calling a [find]
    that is not there. *)
Fixpoint find_help (l : list JsVal) : option JsVal :=
  match l with
  | [] => Some JUndefined
  | d :: l' =>
      if Js.nullish d then None
      else if Js.is_str help_type (Js.get "@type" d) then Some d
      else find_help l'
  end.

Definition helpLinkDetails (details : JsVal) : option JsVal :=
  match details with
  | JUndefined | JNull => Some JUndefined
  | JArr l => find_help l
  | _ => None
  end.

(** [helpLinkDetails?.links?.[0]?.url] *)
Definition helpLink (hd : JsVal) : JsVal :=
  if Js.nullish hd then JUndefined else
  let links := Js.get "links" hd in
  if Js.nullish links then JUndefined else
  let first := Js.get0 links in
  if Js.nullish first then JUndefined else Js.get "url" first.

(** [message?.toLowerCase() || ''] *)
Definition lowerMessage (message : JsVal) : option string :=
  match message with
  | JUndefined | JNull => Some ""
  | JStr m => Some (JsString.toLowerCase m)
  | _ => None
  end.

Definition names_invalid_key (lower : string) : bool :=
  JsString.includes "api key not valid" lower
  || JsString.includes "permission denied" lower.

(** Case 1 of the classifier, the body of its [try]: [Some r] when it
    returns [r]; [None] when control reaches the general checks, because
    the message is not brace-delimited, or [errorObj.error] is falsy, or
    something was thrown and caught. *)
Definition structuredError (errorMessage : string) : option string :=
  if JsString.startsWith "{" errorMessage && JsString.endsWith "}" errorMessage then
    match Json.parse errorMessage with
    | None => None
    | Some errorObj =>
        let err := Js.get "error" errorObj in
        if Js.truthy err then
          let code := Js.get "code" err in
          let message := Js.get "message" err in
          let status := Js.get "status" err in
          let details := Js.get "details" err in
          if Js.is_int 429 code || Js.is_str "RESOURCE_EXHAUSTED" status then
            match helpLinkDetails details with
            | None => None
            | Some hd =>
                let link := helpLink hd in
                Some (t "errorQuotaExceeded"
                        [("link", if Js.truthy link then link else JStr rate_limits_url)])
            end
          else
            match lowerMessage message with
            | None => None
            | Some lower =>
                if Js.is_int 400 code && names_invalid_key lower
                then Some (t "errorInvalidApiKey" [])
                else Some (match message with
                           | JStr m => if String.eqb m "" then errorMessage else m
                           | _ => errorMessage
                           end)
            end
        else None
    end
  else None.

Definition parseAndDisplayError (error : JsError) : string :=
  let errorMessage :=
    match err_message error with
    | Some m => if String.eqb m "" then t "errorUnknown" [] else m
    | None => t "errorUnknown" []
    end in
  match structuredError errorMessage with
  | Some r => r
  | None =>
      let lowerCaseMessage := JsString.toLowerCase errorMessage in
      if names_invalid_key lowerCaseMessage then t "errorInvalidApiKey" []
      else if JsString.includes "api key is not configured" lowerCaseMessage
      then t "errorApiKeyNotConfigured" []
      else if JsString.includes "AI did not return an image from your prompt." errorMessage
      then t "errorImageGen" []
      else errorMessage
  end.

(** A message that starts with [{] and ends with [}]. *)
Definition braceDelimited (msg : string) : bool :=
  JsString.startsWith "{" msg && JsString.endsWith "}" msg.


End Translation.

(** ** The data model *)

(** [SlideData] and [DesignPreferences] are plain objects that the code
    spreads, merges with [Partial<...>] updates and deletes keys from. *)
Abbreviation SlideData := (gmap string JsVal) (only parsing).
Abbreviation DesignPreferences := (gmap string JsVal) (only parsing).

Record Carousel : Type := mkCarousel {
  id : string;
  title : string;
  createdAt : string;
  slides : list SlideData;
  category : string;
  preferences : DesignPreferences
}.

(** [{ ...c, slides: s }] and [{ ...c, preferences: p }] *)
Definition with_slides (c : Carousel) (s : list SlideData) : Carousel :=
  {| id := id c; title := title c; createdAt := createdAt c; slides := s;
     category := category c; preferences := preferences c |}.

Definition with_preferences (c : Carousel) (p : DesignPreferences) : Carousel :=
  {| id := id c; title := title c; createdAt := createdAt c; slides := slides c;
     category := category c; preferences := p |}.

Inductive AppView : Type :=
| LOGIN | PROFILE_SETUP | DASHBOARD | GENERATOR | SETTINGS | TUTORIAL.

Record UserProfile : Type := mkUserProfile {
  name : string;
  email : string;
  picture : string;
  niche : list string;
  profileComplete : bool
}.

Record AppSettings : Type := mkAppSettings {
  apiKey : option string
}.

(** [o.k] of an object: [undefined] when the key is absent. *)
Definition prop (k : string) (o : gmap string JsVal) : JsVal :=
  default JUndefined (o !! k).

(** [a === b] on values; two object or array values are never the same
    reference here. *)
Definition strict_eq (a b : JsVal) : bool :=
  match a, b with
  | JUndefined, JUndefined | JNull, JNull => true
  | JBool x, JBool y => Bool.eqb x y
  | JNum m e, JNum m' e' => (m =? m') && (e =? e')
  | JStr x, JStr y => String.eqb x y
  | _, _ => false
  end.

(** [s.id === slideId] *)
Definition has_id (slideId : string) (s : SlideData) : bool :=
  strict_eq (prop "id" s) (JStr slideId).

(** [{ ...o, ...updates }]: the keys of [updates] win. *)
Definition spread (o updates : gmap string JsVal) : gmap string JsVal :=
  updates ∪ o.

(** [l.findIndex(p)]: the first position whose element satisfies [p],
    [-1] when there is none. *)
Fixpoint findIndex_from {A : Type} (p : A -> bool) (i : Z) (l : list A) : Z :=
  match l with
  | [] => -1
  | x :: l' => if p x then i else findIndex_from p (i + 1) l'
  end.

Definition findIndex {A : Type} (p : A -> bool) (l : list A) : Z :=
  findIndex_from p 0 l.

(** The history updater shared by the mutators:
    [prev => { const index = prev.findIndex(c => c.id === carousel.id);
               if (index !== -1) { const h = [...prev]; h[index] = carousel; return h; }
               return prev; }] *)
Definition writeBack (carousel : Carousel) (prev : list Carousel) : list Carousel :=
  let index := findIndex (fun c => String.eqb (id c) (id carousel)) prev in
  if index =? -1 then prev else <[Z.to_nat index := carousel]> prev.

(** [[l[i], l[j]] = [l[j], l[i]]] *)
Definition swap {A : Type} (i j : nat) (l : list A) : list A :=
  match l !! j, l !! i with
  | Some a, Some b => <[j := b]> (<[i := a]> l)
  | _, _ => l
  end.

(** ['left' | 'right'] *)
Inductive Direction : Type := Left | Right.

(** The outcome of an awaited call. *)
Inductive Completion (A : Type) : Type :=
| Resolved (a : A)
| Rejected (e : JsError).
Arguments Resolved {A} a.
Arguments Rejected {A} e.

(** ** The application state *)

Record AppState : Type := mkAppState {
  view : AppView;
  user : option UserProfile;
  settings : AppSettings;
  carouselHistory : list Carousel;
  currentCarousel : option Carousel;
  selectedSlideId : option JsVal;
  isGenerating : bool;
  isGeneratingImageForSlide : option JsVal;
  generationMessage : string;
  error : option string;
  currentTopic : string;
  (** how many ids [crypto.randomUUID] has handed out *)
  uuidsDrawn : nat
}.

Definition setView (v : AppView) (st : AppState) : AppState :=
  mkAppState v (user st) (settings st) (carouselHistory st) (currentCarousel st)
    (selectedSlideId st) (isGenerating st) (isGeneratingImageForSlide st)
    (generationMessage st) (error st) (currentTopic st) (uuidsDrawn st).

Definition setCarouselHistory (h : list Carousel) (st : AppState) : AppState :=
  mkAppState (view st) (user st) (settings st) h (currentCarousel st)
    (selectedSlideId st) (isGenerating st) (isGeneratingImageForSlide st)
    (generationMessage st) (error st) (currentTopic st) (uuidsDrawn st).

Definition setCurrentCarousel (c : option Carousel) (st : AppState) : AppState :=
  mkAppState (view st) (user st) (settings st) (carouselHistory st) c
    (selectedSlideId st) (isGenerating st) (isGeneratingImageForSlide st)
    (generationMessage st) (error st) (currentTopic st) (uuidsDrawn st).

Definition setSelectedSlideId (s : option JsVal) (st : AppState) : AppState :=
  mkAppState (view st) (user st) (settings st) (carouselHistory st) (currentCarousel st)
    s (isGenerating st) (isGeneratingImageForSlide st)
    (generationMessage st) (error st) (currentTopic st) (uuidsDrawn st).

Definition setIsGenerating (b : bool) (st : AppState) : AppState :=
  mkAppState (view st) (user st) (settings st) (carouselHistory st) (currentCarousel st)
    (selectedSlideId st) b (isGeneratingImageForSlide st)
    (generationMessage st) (error st) (currentTopic st) (uuidsDrawn st).

Definition setIsGeneratingImageForSlide (s : option JsVal) (st : AppState) : AppState :=
  mkAppState (view st) (user st) (settings st) (carouselHistory st) (currentCarousel st)
    (selectedSlideId st) (isGenerating st) s
    (generationMessage st) (error st) (currentTopic st) (uuidsDrawn st).

Definition setGenerationMessage (m : string) (st : AppState) : AppState :=
  mkAppState (view st) (user st) (settings st) (carouselHistory st) (currentCarousel st)
    (selectedSlideId st) (isGenerating st) (isGeneratingImageForSlide st)
    m (error st) (currentTopic st) (uuidsDrawn st).

Definition setError (e : option string) (st : AppState) : AppState :=
  mkAppState (view st) (user st) (settings st) (carouselHistory st) (currentCarousel st)
    (selectedSlideId st) (isGenerating st) (isGeneratingImageForSlide st)
    (generationMessage st) e (currentTopic st) (uuidsDrawn st).

Definition setCurrentTopic (s : string) (st : AppState) : AppState :=
  mkAppState (view st) (user st) (settings st) (carouselHistory st) (currentCarousel st)
    (selectedSlideId st) (isGenerating st) (isGeneratingImageForSlide st)
    (generationMessage st) (error st) s (uuidsDrawn st).

Definition setUuidsDrawn (n : nat) (st : AppState) : AppState :=
  mkAppState (view st) (user st) (settings st) (carouselHistory st) (currentCarousel st)
    (selectedSlideId st) (isGenerating st) (isGeneratingImageForSlide st)
    (generationMessage st) (error st) (currentTopic st) n.

(** ** The handlers of the session manager *)

Section Handlers.

Variable messages : gmap string string.

(** [uuid k] is the id that the [k]-th call of [crypto.randomUUID]
    returns. *)
Variable uuid : nat -> string.

(** [defaultSettings.brandKit] of lib/constants, which is not among the
    sources: any object. *)
Variable defaultBrandKit : gmap string JsVal.

Definition handleUpdateSlide (slideId : string) (updates : gmap string JsVal)
    (st : AppState) : AppState :=
  match currentCarousel st with
  | None => st
  | Some prev =>
      let updatedSlides :=
        map (fun s => if has_id slideId s then spread s updates else s) (slides prev) in
      let newCarousel := with_slides prev updatedSlides in
      setCurrentCarousel (Some newCarousel)
        (setCarouselHistory (writeBack newCarousel (carouselHistory st)) st)
  end.

(** [handleRemoveVisualForSlide]: the key stays, bound to [undefined]. *)
Definition handleRemoveVisualForSlide (slideId : string) : AppState -> AppState :=
  handleUpdateSlide slideId {[ "backgroundImage" := JUndefined ]}.

Definition num (n : Z) (e : Z) : JsVal := Js.mk_num n e.

Definition textStroke0 : JsVal :=
  JObj {[ "color" := JStr "#000000"; "width" := num 0 0 ]}.

(** The literal that the placeholder carousel lays over the brand kit. *)
Definition placeholderPreferences : gmap string JsVal :=
  {[ "backgroundColor" := JStr "#FFFFFF";
     "fontColor" := JStr "#111827";
     "backgroundOpacity" := num 1 0;
     "style" := JStr "Minimalist";
     "font" := JStr "Inter";
     "aspectRatio" := JStr "1:1";
     "backgroundImage" := JUndefined;
     "brandingText" := JStr "";
     "brandingStyle" :=
       JObj {[ "color" := JStr "#111827"; "opacity" := num 75 (-2);
               "position" := JStr "bottom-right"; "fontSize" := num 7 (-1) ]};
     "headlineStyle" :=
       JObj {[ "fontSize" := num 14 (-1); "fontWeight" := JStr "bold";
               "textAlign" := JStr "center"; "textStroke" := textStroke0 ]};
     "bodyStyle" :=
       JObj {[ "fontSize" := num 8 (-1); "textAlign" := JStr "center";
               "textStroke" := textStroke0 ]};
     "slideNumberStyle" :=
       JObj {[ "show" := JBool false; "color" := JStr "#FFFFFF";
               "opacity" := num 8 (-1); "position" := JStr "top-right";
               "fontSize" := num 7 (-1) ]} ]}.

(** [user?.niche[0] || 'General'] *)
Definition firstNicheOrGeneral (u : option UserProfile) : string :=
  match u with
  | Some p =>
      match niche p with
      | n :: _ => if String.eqb n "" then "General" else n
      | [] => "General"
      end
  | None => "General"
  end.

(** [now] is [new Date().toISOString()] at the time of the call. *)
Definition handleUpdateCarouselPreferences (now : string)
    (updates : gmap string JsVal) (topicValue : string) (st : AppState) : AppState :=
  match currentCarousel st with
  | Some prev =>
      let newCarousel := with_preferences prev (spread (preferences prev) updates) in
      setCurrentCarousel (Some newCarousel)
        (setCarouselHistory (writeBack newCarousel (carouselHistory st)) st)
  | None =>
      let placeholder :=
        {| id := "temp-" +:+ uuid (uuidsDrawn st);
           title := topicValue;
           createdAt := now;
           slides := [];
           category := firstNicheOrGeneral (user st);
           preferences :=
             spread (spread defaultBrandKit placeholderPreferences) updates |} in
      setCurrentCarousel (Some placeholder) (setUuidsDrawn (S (uuidsDrawn st)) st)
  end.

Definition handleClearSlideOverrides (property : string) (st : AppState) : AppState :=
  match currentCarousel st with
  | None => st
  | Some prev =>
      let updatedSlides := map (fun slide => delete property slide) (slides prev) in
      setCurrentCarousel (Some (with_slides prev updatedSlides)) st
  end.

Definition handleMoveSlide (slideId : string) (direction : Direction)
    (st : AppState) : AppState :=
  match currentCarousel st with
  | None => st
  | Some cur =>
      let index := findIndex (has_id slideId) (slides cur) in
      if index =? -1 then st else
      let newIndex := match direction with Left => index - 1 | Right => index + 1 end in
      if (newIndex <? 0) || (newIndex >=? Z.of_nat (length (slides cur))) then st else
      setCurrentCarousel
        (Some (with_slides cur (swap (Z.to_nat index) (Z.to_nat newIndex) (slides cur))))
        st
  end.

Definition goToDashboard (st : AppState) : AppState :=
  match view st with
  | LOGIN | PROFILE_SETUP => st
  | _ =>
      let st1 :=
        match currentCarousel st with
        | Some cur => setCarouselHistory (writeBack cur (carouselHistory st)) st
        | None => st
        end in
      setView DASHBOARD (setCurrentCarousel None st1)
  end.

Definition startNewCarousel (st : AppState) : AppState :=
  setView GENERATOR (setSelectedSlideId None (setCurrentCarousel None st)).

End Handlers.

(** ** Carousel generation *)

Section Generation.

Variable messages : gmap string string.
Variable uuid : nat -> string.

(** The generation service (services/geminiService) is not among the
    sources.  [generateCarouselContent topic niche preferences settings]
    is the outcome of the awaited content call; [generateImage i prompt
    ratio] is the outcome of the [i]-th image call of a run. *)
Variable generateCarouselContent :
  string -> string -> DesignPreferences -> AppSettings -> Completion (list SlideData).
Variable generateImage : nat -> JsVal -> JsVal -> Completion string.

(** The loop of [executeImageGenerationForAllSlides]: [todo] are the
    slides of [carousel] from position [i] on. *)
Fixpoint imageLoop (carousel : Carousel) (i : nat) (todo : list SlideData)
    (updatedCarousel : Carousel) (st : AppState) : Carousel * AppState :=
  match todo with
  | [] => (updatedCarousel, st)
  | slide :: rest =>
      let st1 :=
        setIsGeneratingImageForSlide (Some (prop "id" slide))
          (setGenerationMessage
             (t messages "generatingImageMessage"
                [("current", Js.mk_num (Z.of_nat i + 1) 0);
                 ("total", Js.mk_num (Z.of_nat (length (slides carousel))) 0)])
             st) in
      match generateImage i (prop "visual_prompt" slide)
              (prop "aspectRatio" (preferences carousel)) with
      | Resolved imageUrl =>
          let newSlides :=
            map (fun s => if strict_eq (prop "id" s) (prop "id" slide)
                          then <["backgroundImage" := JStr imageUrl]> s else s)
                (slides updatedCarousel) in
          let updated := with_slides updatedCarousel newSlides in
          imageLoop carousel (S i) rest updated (setCurrentCarousel (Some updated) st1)
      | Rejected _ => imageLoop carousel (S i) rest updatedCarousel st1
      end
  end.

Definition executeImageGenerationForAllSlides (carousel : Carousel) (st : AppState)
  : Carousel * AppState :=
  imageLoop carousel 0 (slides carousel) carousel st.

Definition falsy_string (s : option string) : bool :=
  match s with
  | Some k => String.eqb k ""
  | None => true
  end.

(** [niche || (user.niche.length > 0 ? user.niche[0] : 'General')] *)
Definition nicheToUse (niche0 : string) (u : UserProfile) : string :=
  if String.eqb niche0 "" then
    match niche u with
    | n :: _ => n
    | [] => "General"
    end
  else niche0.

(** [slidesContent.map(s => ({ ...s, id: crypto.randomUUID() }))], the
    first id drawn being [uuid n0]. *)
Definition initialSlides (n0 : nat) (slidesContent : list SlideData) : list SlideData :=
  imap (fun i s => <["id" := JStr (uuid (n0 + i))]> s) slidesContent.

(** [now] is [new Date().toISOString()] at the time of the call. *)
Definition handleGenerateCarousel (now : string) (topic niche0 : string)
    (preferences0 : DesignPreferences) (magicCreate : bool) (st : AppState) : AppState :=
  match user st with
  | None => st
  | Some u =>
      if falsy_string (apiKey (settings st))
      then setError (Some (t messages "errorApiKeyNotConfigured" [])) st
      else
        let st1 :=
          setGenerationMessage (t messages "generatingContentMessage" [])
            (setCurrentTopic topic
               (setCurrentCarousel None (setError None (setIsGenerating true st)))) in
        let st2 :=
          match generateCarouselContent topic (nicheToUse niche0 u) preferences0
                  (settings st) with
          | Rejected err => setError (Some (parseAndDisplayError messages err)) st1
          | Resolved slidesContent =>
              let n0 := uuidsDrawn st1 in
              let initial := initialSlides n0 slidesContent in
              let newCarousel :=
                {| id := uuid (n0 + length slidesContent);
                   title := topic;
                   createdAt := now;
                   slides := initial;
                   category := nicheToUse niche0 u;
                   preferences := preferences0 |} in
              let st' :=
                setSelectedSlideId
                  (match initial with s :: _ => Some (prop "id" s) | [] => None end)
                  (setCurrentCarousel (Some newCarousel)
                     (setUuidsDrawn (S (n0 + length slidesContent)) st1)) in
              if magicCreate then
                let '(finalCarousel, st'') :=
                  executeImageGenerationForAllSlides newCarousel st' in
                setCarouselHistory (finalCarousel :: carouselHistory st'') st''
              else setCarouselHistory (newCarousel :: carouselHistory st') st'
          end in
        setIsGeneratingImageForSlide None
          (setGenerationMessage "" (setIsGenerating false st2))
  end.

End Generation.

(** Modelled from the spec: the content generator [generateCarouselContent]
    lives in services/geminiService, which is not among the sources.  The
    specification files a call with no usable output under generation
    failure, so a call that succeeds hands back the text fields of at least
    one slide. *)
Definition usableOutput (r : Completion (list SlideData)) : Prop :=
  match r with
  | Resolved slidesContent => slidesContent <> []
  | Rejected _ => True
  end.

(** ** History persistence *)

Inductive ConsoleLine : Type :=
| console_warn (text : string)
| console_error (text : string).

(** The browser around the component: the component state, the store
    behind [localStorage], every [setItem] call made so far (oldest first)
    and the console. *)
Record World : Type := mkWorld {
  state : AppState;
  localStorage : gmap string string;
  setItemCalls : list (string * string);
  console : list ConsoleLine
}.

Section Persistence.

Variable messages : gmap string string.

(** [HISTORY_STORAGE_KEY] of lib/constants, which is not among the
    sources: any key. *)
Variable HISTORY_STORAGE_KEY : string.

(** [JSON.stringify] on a history array. *)
Variable stringify : list Carousel -> string.

(** [storageFailure store k v] is the exception that
    [localStorage.setItem(k, v)] throws when the store holds [store],
    if it throws. *)
Variable storageFailure : gmap string string -> string -> string -> option JsError.

(** [localStorage.setItem(k, v)] *)
Definition setItem (k v : string) (w : World) : option JsError * World :=
  match storageFailure (localStorage w) k v with
  | Some e =>
      (Some e, mkWorld (state w) (localStorage w) (setItemCalls w ++ [(k, v)]) (console w))
  | None =>
      (None, mkWorld (state w) (<[k := v]> (localStorage w))
               (setItemCalls w ++ [(k, v)]) (console w))
  end.

Definition log (line : ConsoleLine) (w : World) : World :=
  mkWorld (state w) (localStorage w) (setItemCalls w) (console w ++ [line]).

(** [backgroundImage && backgroundImage.startsWith('data:video')]; the
    field is declared [string | undefined]. *)
Definition isInlineVideo (v : JsVal) : bool :=
  match v with
  | JStr s => negb (String.eqb s "") && JsString.startsWith "data:video" s
  | _ => false
  end.

Definition sanitizeSlide (slide : SlideData) : SlideData :=
  if isInlineVideo (prop "backgroundImage" slide)
  then delete "backgroundImage" slide
  else slide.

Definition sanitizeHistory (historyToSave : list Carousel) : list Carousel :=
  map (fun carousel => with_slides carousel (map sanitizeSlide (slides carousel)))
      historyToSave.

(** The test of the [catch] clause. *)
Definition isQuotaError (e : JsError) : bool :=
  match err_name e with Some n => String.eqb n "QuotaExceededError" | None => false end
  || match err_code e with
     | Some c => negb (c =? 0) && ((c =? 22) || (c =? 1014))
     | None => false
     end
  || match err_message e with
     | Some m => negb (String.eqb m "")
                 && JsString.includes "quota" (JsString.toLowerCase m)
     | None => false
     end.

(** [l.slice(0, -1)] *)
Definition slice_0_m1 {A : Type} (l : list A) : list A :=
  take (length l - 1)%nat l.

Definition quotaWarning (n : nat) : string :=
  "LocalStorage quota exceeded even after sanitization. History has "
  +:+ Js.digits (Z.of_nat n)
  +:+ " items. Removing the oldest carousel and retrying...".

Definition setAppError (e : option string) (w : World) : World :=
  mkWorld (setError e (state w)) (localStorage w) (setItemCalls w) (console w).

Equations? saveHistoryWithAutoTrim (historyToSave : list Carousel) (w : World)
  : World by wf (length historyToSave) lt :=
saveHistoryWithAutoTrim [] w with setItem HISTORY_STORAGE_KEY "[]" w => {
  | (None, w') => w';
  | (Some _, w') => log (console_error "Could not clear carousel history:") w' };
saveHistoryWithAutoTrim (c :: rest) w
  with setItem HISTORY_STORAGE_KEY (stringify (sanitizeHistory (c :: rest))) w => {
  | (None, w') => w';
  | (Some e, w') with isQuotaError e => {
    | true with (1 <? length (c :: rest))%nat => {
      | true =>
          saveHistoryWithAutoTrim (slice_0_m1 (c :: rest))
            (log (console_warn (quotaWarning (length (c :: rest)))) w');
      | false =>
          setAppError (Some (t messages "errorHistoryTooLarge" []))
            (log (console_error
                    "Could not save carousel history: The single most recent carousel is too large to fit in localStorage.")
               (log (console_warn (quotaWarning (length (c :: rest)))) w')) };
    | false =>
        log (console_error "Could not save carousel history due to an unknown error:") w' } }.
Proof.
  unfold slice_0_m1. rewrite length_take. simpl. lia.
Qed.


(** What the store answers, in world [w], to the write of the history
    [h]: [None] when it takes it. *)
Definition attempt (w : World) (h : list Carousel) : option JsError :=
  storageFailure (localStorage w) HISTORY_STORAGE_KEY (stringify (sanitizeHistory h)).

(** Every rejection the store gives in world [w] is one that the [catch]
    clause takes for a quota error. *)
Definition rejectsOnlyForQuota (w : World) : Prop :=
  forall v e, storageFailure (localStorage w) HISTORY_STORAGE_KEY v = Some e ->
    isQuotaError e = true.

(** The writes of the newest [k] entries of [h], for each [k] of [ks]. *)
Definition writesOf (h : list Carousel) (ks : list nat) : list (string * string) :=
  map (fun k => (HISTORY_STORAGE_KEY, stringify (sanitizeHistory (take k h)))) ks.

End Persistence.

(** [n; n-1; ...; k] *)
Definition countdown (n k : nat) : list nat := reverse (seq k (S n - k)).

(** ** Sample data

    Concrete values on which the statements below are run. *)

Module Sample.

(** A string literal with every apostrophe read as a double quote. *)
Fixpoint dq (s : string) : string :=
  match s with
  | EmptyString => EmptyString
  | String c r => String (if Ascii.eqb c "'" then "034"%char else c) (dq r)
  end.


Definition messages : gmap string string :=
  {[ "errorQuotaExceeded" := "Quota exceeded. See {{link}} for the limits.";
     "errorInvalidApiKey" := "The API key is not valid.";
     "errorHistoryTooLarge" := "This carousel is too large to be saved." ]}.

Definition slide (i headline : string) : SlideData :=
  {[ "id" := JStr i; "headline" := JStr headline; "body" := JStr "text";
     "visual_prompt" := JStr "a cup of coffee" ]}.

Definition coffee : Carousel :=
  {| id := "c-1"; title := "Coffee Brewing"; createdAt := "2025-01-01T00:00:00.000Z";
     slides := [slide "s-1" "Grind"; slide "s-2" "Bloom"; slide "s-3" "Pour"];
     category := "Food";
     preferences := {[ "font" := JStr "Inter"; "fontColor" := JStr "#111827" ]} |}.

Definition tea : Carousel :=
  {| id := "c-2"; title := "Tea"; createdAt := "2024-12-31T00:00:00.000Z";
     slides := [slide "s-9" "Steep"]; category := "Food"; preferences := ∅ |}.

Definition someone : UserProfile :=
  {| name := "Ana"; email := "ana@example.org"; picture := "";
     niche := ["Food"]; profileComplete := true |}.

(** The generator screen, [coffee] being edited, [tea] older in history. *)
Definition editing : AppState :=
  {| view := GENERATOR; user := Some someone;
     settings := {| apiKey := Some "key" |};
     carouselHistory := [coffee; tea]; currentCarousel := Some coffee;
     selectedSlideId := Some (JStr "s-1"); isGenerating := false;
     isGeneratingImageForSlide := None; generationMessage := "";
     error := None; currentTopic := "Coffee Brewing"; uuidsDrawn := 7 |}.

Definition uuid (k : nat) : string := "uuid-" +:+ Js.digits (Z.of_nat k).

(** A carousel whose slides override the colours of the preferences. *)
Definition styled : Carousel :=
  {| id := "c-3"; title := "Latte Art"; createdAt := "2025-01-03T00:00:00.000Z";
     slides := [<["fontColor" := JStr "#FF0000"]> (slide "s-4" "Heart")];
     category := "Food"; preferences := {[ "fontColor" := JStr "#111827" ]} |}.

Definition editingStyled : AppState :=
  {| view := GENERATOR; user := Some someone;
     settings := {| apiKey := Some "key" |};
     carouselHistory := [styled; tea]; currentCarousel := Some styled;
     selectedSlideId := Some (JStr "s-4"); isGenerating := false;
     isGeneratingImageForSlide := None; generationMessage := "";
     error := None; currentTopic := "Latte Art"; uuidsDrawn := 7 |}.

(** The dashboard with [tea] in history and nothing being edited. *)
Definition dashboard : AppState :=
  {| view := DASHBOARD; user := Some someone;
     settings := {| apiKey := Some "key" |};
     carouselHistory := [tea]; currentCarousel := None;
     selectedSlideId := None; isGenerating := false;
     isGeneratingImageForSlide := None; generationMessage := "";
     error := None; currentTopic := ""; uuidsDrawn := 7 |}.

(** "New carousel", then a first change of the preferences: the generator
    shows a placeholder carousel that history does not know. *)
Definition drafting : AppState :=
  handleUpdateCarouselPreferences uuid ∅ "2025-01-04T00:00:00.000Z"
    {[ "font" := JStr "Lora" ]} "Matcha" (startNewCarousel dashboard).

(** A carousel whose preferences carry an uploaded background video, and
    one of whose slides carries another. *)
Definition videoBackground : Carousel :=
  {| id := "c-4"; title := "Espresso"; createdAt := "2025-01-05T00:00:00.000Z";
     slides := [<["backgroundImage" := JStr "data:video/mp4;base64,BBBB"]> (slide "s-5" "Pull")];
     category := "Food";
     preferences := {[ "backgroundImage" := JStr "data:video/mp4;base64,AAAA" ]} |}.

Definition visual (o : gmap string JsVal) : string :=
  match prop "backgroundImage" o with
  | JStr s => s
  | _ => "-"
  end.

(** A serializer that writes, for each carousel, its id, the visual of its
    preferences and the visuals of its slides. *)
Definition stringify (h : list Carousel) : string :=
  "[" +:+ Js.join ","
            (map (fun c => id c +:+ ":" +:+ visual (preferences c) +:+ "("
                           +:+ Js.join "," (map visual (slides c)) +:+ ")") h)
  +:+ "]".

Definition quotaExceeded : JsError :=
  {| err_name := Some "QuotaExceededError"; err_code := Some 22;
     err_message := Some "The quota has been exceeded." |}.

(** A store that takes values of at most [capacity] characters. *)
Definition storage (capacity : nat) (_ : gmap string string) (_ v : string)
  : option JsError :=
  if (capacity <? String.length v)%nat then Some quotaExceeded else None.

Definition browser (st : AppState) : World :=
  {| state := st; localStorage := ∅; setItemCalls := []; console := [] |}.

(** A content generator that answers every topic but the empty one with
    the text of two slides. *)
Definition generateCarouselContent (topic _ : string) (_ : DesignPreferences)
    (_ : AppSettings) : Completion (list SlideData) :=
  if String.eqb topic "" then Rejected (Error_of "The topic is empty.")
  else Resolved
         [ {[ "headline" := JStr "Grind"; "body" := JStr "Medium-fine.";
              "visual_prompt" := JStr "a hand grinder" ]};
           {[ "headline" := JStr "Pour"; "body" := JStr "In slow circles.";
              "visual_prompt" := JStr "a gooseneck kettle" ]} ].

(** An image generator whose every second call fails. *)
Definition generateImage (i : nat) (_ _ : JsVal) : Completion string :=
  if Nat.even i then Resolved "data:image/png;base64,AAAA"
  else Rejected (Error_of "AI did not return an image from your prompt.").

End Sample.

(** * More of the component *)

(** ** History from the dashboard *)


(** [carouselToEdit.slides[0]?.id || null] *)
Definition firstSlideId (c : Carousel) : option JsVal :=
  match slides c with
  | s :: _ => if Js.truthy (prop "id" s) then Some (prop "id" s) else None
  | [] => None
  end.

Definition handleEditCarousel (carouselId : string) (st : AppState) : AppState :=
  match List.find (fun c => String.eqb (id c) carouselId) (carouselHistory st) with
  | Some carouselToEdit =>
      setView GENERATOR
        (setSelectedSlideId (firstSlideId carouselToEdit)
           (setCurrentTopic (title carouselToEdit)
              (setCurrentCarousel (Some carouselToEdit) st)))
  | None => st
  end.

(** [confirmed] is the answer of [window.confirm]. *)
Definition handleDeleteCarousel (confirmed : bool) (carouselId : string)
    (st : AppState) : AppState :=
  if confirmed then
    setCarouselHistory
      (List.filter (fun c => negb (String.eqb (id c) carouselId)) (carouselHistory st)) st
  else st.

Definition handleClearHistory (confirmed : bool) (st : AppState) : AppState :=
  if confirmed then setCarouselHistory [] st else st.

(** ** Logging out *)





Section Logout.

Variable messages : gmap string string.

(** [HISTORY_STORAGE_KEY] and [DOWNLOADS_STORAGE_KEY] of lib/constants. *)
Variable HISTORY_STORAGE_KEY DOWNLOADS_STORAGE_KEY : string.

Variable stringify : list Carousel -> string.
Variable storageFailure : gmap string string -> string -> string -> option JsError.



End Logout.

(** ** The name of the downloaded archive *)

(** A character that [/[^a-z0-9]/gi] does not match. *)
Definition isAlphanumeric (c : ascii) : bool :=
  let n := nat_of_ascii c in
  ((97 <=? n)%nat && (n <=? 122)%nat)
  || ((65 <=? n)%nat && (n <=? 90)%nat)
  || ((48 <=? n)%nat && (n <=? 57)%nat).

(** Every code unit that is no ASCII letter or digit becomes an underscore.
    In the bytes of the text that is one underscore for a character of one,
    two or three bytes and two for a character of four bytes (a surrogate
    pair); the continuation bytes add nothing. *)
Fixpoint replaceUnsafe (s : string) : string :=
  match s with
  | EmptyString => EmptyString
  | String c r =>
      let n := nat_of_ascii c in
      if isAlphanumeric c then String c (replaceUnsafe r)
      else if (n <? 128)%nat then String "_"%char (replaceUnsafe r)
      else if (n <? 192)%nat then replaceUnsafe r
      else if (n <? 240)%nat then String "_"%char (replaceUnsafe r)
      else String "_"%char (String "_"%char (replaceUnsafe r))
  end.

(** [title.replace(/[^a-z0-9]/gi, '_').toLowerCase()] *)
Definition safeTitle (title0 : string) : string :=
  JsString.toLowerCase (replaceUnsafe title0).

(** [`${safeTitle || 'carousel'}.zip`] *)
Definition downloadName (title0 : string) : string :=
  (if String.eqb (safeTitle title0) "" then "carousel" else safeTitle title0) +:+ ".zip".

(** Every character of [s] satisfies [p]. *)
Fixpoint allChars (p : ascii -> bool) (s : string) : bool :=
  match s with
  | EmptyString => true
  | String c r => p c && allChars p r
  end.

Definition isAsciiChar (c : ascii) : bool := (nat_of_ascii c <? 128)%nat.

(** A lower-case letter, a digit or the underscore. *)
Definition isSafeChar (c : ascii) : bool :=
  let n := nat_of_ascii c in
  ((97 <=? n)%nat && (n <=? 122)%nat) || ((48 <=? n)%nat && (n <=? 57)%nat)
  || (n =? 95)%nat.

(** ** Numbers of a parsed text *)

(** A value on which the decimal kept here and the double of the program
    agree in every comparison with an integer: a number of at most fifteen
    significant digits within the range of the normal doubles (two such
    decimals never round to the same double), or a value that is no
    number. *)
Definition exactNumber (v : JsVal) : bool :=
  match v with
  | JNum m e => (Z.abs m <? 10 ^ 15) && (-300 <=? e) && (e <=? 280)
  | _ => true
  end.

(** ** Parameter names of the translation helper *)

Definition isDigitChar (c : ascii) : bool :=
  (48 <=? nat_of_ascii c)%nat && (nat_of_ascii c <=? 57)%nat.

(** A letter, a digit or the underscore. *)
Definition isWordChar (c : ascii) : bool :=
  isAlphanumeric c || (nat_of_ascii c =? 95)%nat.

(** A parameter name whose pattern [{{name}}] is a regular expression that
    matches the text [{{name}}] and nothing else: no character of the name
    is special in a regular expression, and the name is not a number, which
    would make [{name}] a repetition count. *)
Definition plainName (name : string) : bool :=
  allChars isWordChar name && negb (allChars isDigitChar name).

(** ** Editing an image in place *)

(** [s.split(',')] *)
Fixpoint splitComma (s : string) : list string :=
  match s with
  | EmptyString => [EmptyString]
  | String c r =>
      if Ascii.eqb c ","%char then EmptyString :: splitComma r
      else match splitComma r with
           | x :: xs => String c x :: xs
           | [] => [String c EmptyString]
           end
  end.

(** A line terminator starts the text: line feed, carriage return, U+2028
    or U+2029 (here in UTF-8).  The [.] of a regular expression matches
    none of them. *)
Definition lineTerminatorAt (s : string) : bool :=
  match s with
  | String c r =>
      Ascii.eqb c "010"%char || Ascii.eqb c "013"%char
      || (Ascii.eqb c "226"%char
          && match r with
             | String c1 (String c2 _) =>
                 Ascii.eqb c1 "128"%char
                 && (Ascii.eqb c2 "168"%char || Ascii.eqb c2 "169"%char)
             | _ => false
             end)
  | EmptyString => false
  end.

(** The text up to the next [;], when no line terminator comes first. *)
Fixpoint upToSemicolon (s : string) : option string :=
  match s with
  | EmptyString => None
  | String c r =>
      if Ascii.eqb c ";"%char then Some EmptyString
      else if lineTerminatorAt s then None
      else match upToSemicolon r with
           | Some m => Some (String c m)
           | None => None
           end
  end.

(** [meta.match(/:(.*?);/)?.[1]]: the first group of the leftmost match. *)
Fixpoint matchMime (meta : string) : option string :=
  match meta with
  | EmptyString => None
  | String c r =>
      if Ascii.eqb c ":"%char then
        match upToSemicolon r with
        | Some m => Some m
        | None => matchMime r
        end
      else matchMime r
  end.

(** [const [meta, base64Data] = url.split(',');
     const mimeType = meta.match(/:(.*?);/)?.[1] || 'image/png';]:
    the pair [(base64Data, mimeType)]. *)
Definition dataUrlParts (url : string) : JsVal * string :=
  let parts := splitComma url in
  let meta := match parts with m :: _ => m | [] => EmptyString end in
  let base64Data := match parts with _ :: d :: _ => JStr d | _ => JUndefined end in
  let mimeType :=
    match matchMime meta with
    | Some m => if String.eqb m "" then "image/png" else m
    | None => "image/png"
    end in
  (base64Data, mimeType).

(** A character that can stand in the media type of a data address: not
    [:], [;] or [,], not a line terminator nor the first byte of one. *)
Definition isMimeChar (c : ascii) : bool :=
  negb (Ascii.eqb c ":"%char || Ascii.eqb c ";"%char || Ascii.eqb c ","%char
        || Ascii.eqb c "010"%char || Ascii.eqb c "013"%char || Ascii.eqb c "226"%char).

Definition isNotComma (c : ascii) : bool := negb (Ascii.eqb c ","%char).

(** [slide.backgroundImage] is a non-empty string that starts with
    [data:image]. *)
Definition isInlineImage (v : JsVal) : bool :=
  match v with
  | JStr s => negb (String.eqb s "") && JsString.startsWith "data:image" s
  | _ => false
  end.

Section ImageCalls.

Variable messages : gmap string string.

(** The image services of services/geminiService, which is not among the
    sources: [generateImage i prompt ratio] as before; [editImage data mime
    prompt] is the outcome of the awaited edit call. *)
Variable generateImage : nat -> JsVal -> JsVal -> Completion string.
Variable editImage : JsVal -> string -> string -> Completion string.

Definition handleEditImageForSlide (slideId editPrompt : string) (st : AppState)
  : AppState :=
  match currentCarousel st with
  | None => st
  | Some cur =>
      if String.eqb editPrompt "" then st else
      match List.find (has_id slideId) (slides cur) with
      | None => st
      | Some slide =>
          if negb (isInlineImage (prop "backgroundImage" slide)) then st else
          let st1 := setError None (setIsGeneratingImageForSlide (Some (JStr slideId)) st) in
          let url := match prop "backgroundImage" slide with JStr s => s | _ => "" end in
          let '(base64Data, mimeType) := dataUrlParts url in
          let st2 :=
            match editImage base64Data mimeType editPrompt with
            | Resolved newImageUrl =>
                handleUpdateSlide slideId {[ "backgroundImage" := JStr newImageUrl ]} st1
            | Rejected err => setError (Some (parseAndDisplayError messages err)) st1
            end in
          setIsGeneratingImageForSlide None st2
      end
  end.

Definition handleGenerateImageForSlide (slideId : string) (st : AppState) : AppState :=
  match currentCarousel st with
  | None => st
  | Some cur =>
      match List.find (has_id slideId) (slides cur) with
      | None => st
      | Some slide =>
          let st1 := setError None (setIsGeneratingImageForSlide (Some (JStr slideId)) st) in
          let st2 :=
            match generateImage 0 (prop "visual_prompt" slide)
                    (prop "aspectRatio" (preferences cur)) with
            | Resolved imageUrl =>
                handleUpdateSlide slideId {[ "backgroundImage" := JStr imageUrl ]} st1
            | Rejected err => setError (Some (parseAndDisplayError messages err)) st1
            end in
          setIsGeneratingImageForSlide None st2
      end
  end.

(** What one turn of the loop of [executeImageGenerationForAllSlides] does
    to the slide [s] at position [j]. *)
Definition imaged (carousel : Carousel) (j : nat) (s : SlideData) : SlideData :=
  match slides carousel !! j with
  | Some slide =>
      match generateImage j (prop "visual_prompt" slide)
              (prop "aspectRatio" (preferences carousel)) with
      | Resolved imageUrl => <["backgroundImage" := JStr imageUrl]> s
      | Rejected _ => s
      end
  | None => s
  end.

(** The history updater of [handleGenerateAllImages], which tests
    [index > -1]. *)
Definition writeBackFinal (finalCarousel : Carousel) (prev : list Carousel)
  : list Carousel :=
  let index := findIndex (fun c => String.eqb (id c) (id finalCarousel)) prev in
  if index >? -1 then <[Z.to_nat index := finalCarousel]> prev else prev.

Definition handleGenerateAllImages (st : AppState) : AppState :=
  match currentCarousel st with
  | None => st
  | Some cur =>
      let st1 := setError None (setIsGenerating true st) in
      let '(finalCarousel, st2) :=
        executeImageGenerationForAllSlides messages generateImage cur st1 in
      let st3 := setCarouselHistory (writeBackFinal finalCarousel (carouselHistory st2)) st2 in
      setIsGeneratingImageForSlide None (setGenerationMessage "" (setIsGenerating false st3))
  end.

End ImageCalls.

(** The slides carry text ids, pairwise different. *)
Definition distinctIds (l : list SlideData) : Prop :=
  (forall s, s ∈ l -> exists x, prop "id" s = JStr x) /\
  (forall i j s s', l !! i = Some s -> l !! j = Some s' ->
     prop "id" s = prop "id" s' -> i = j).

(** [handleApplyAssistantSuggestion]; the modal it closes is not part of
    the state kept here. *)
Inductive SuggestionType : Type := hook | cta.

Definition handleApplyAssistantSuggestion (suggestion : string) (type : SuggestionType)
    (st : AppState) : AppState :=
  match selectedSlideId st with
  | Some (JStr selected) =>
      if String.eqb selected "" then st else
      let fieldToUpdate := match type with hook => "headline" | cta => "body" end in
      handleUpdateSlide selected {[ fieldToUpdate := JStr suggestion ]} st
  | _ => st
  end.

(** ** Settings and the brand kit *)

(** The code units of a text, each as the text of its own: a character of
    one, two or three bytes is one code unit, a character of four bytes is
    the two halves of a surrogate pair. *)
Fixpoint codeUnits (s : string) : list string :=
  match s with
  | EmptyString => []
  | String c r =>
      let n := nat_of_ascii c in
      if (n <? 192)%nat then String c EmptyString :: codeUnits r
      else if (n <? 224)%nat then
        match r with
        | String c1 r1 => String c (String c1 EmptyString) :: codeUnits r1
        | EmptyString => [s]
        end
      else if (n <? 240)%nat then
        match r with
        | String c1 (String c2 r2) =>
            String c (String c1 (String c2 EmptyString)) :: codeUnits r2
        | _ => [s]
        end
      else
        match r with
        | String c1 (String c2 (String c3 r3)) =>
            let v :=
              (Z.of_nat n - 240) * 262144 + (Z.of_nat (nat_of_ascii c1) - 128) * 4096
              + (Z.of_nat (nat_of_ascii c2) - 128) * 64
              + (Z.of_nat (nat_of_ascii c3) - 128) - 65536 in
            Json.utf8 (55296 + v / 1024) :: Json.utf8 (56320 + v mod 1024)
              :: codeUnits r3
        | _ => [s]
        end
  end.

(** The own enumerable properties that a spread [{ ...v }] copies: the
    fields of an object, the elements of an array and the code units of a
    string under their indices, nothing for the other values. *)
Definition ownProps (v : JsVal) : gmap string JsVal :=
  match v with
  | JObj o => o
  | JArr l => list_to_map (imap (fun i x => (Js.digits (Z.of_nat i), x)) l)
  | JStr s =>
      list_to_map (imap (fun i u => (Js.digits (Z.of_nat i), JStr u)) (codeUnits s))
  | _ => ∅
  end.

(** [v || {}] *)
Definition orEmpty (v : JsVal) : JsVal :=
  if Js.truthy v then v else JObj ∅.

Section Settings.

(** [defaultSettings] of lib/constants, which is not among the sources: any
    object. *)
Variable defaultSettings : gmap string JsVal.

(** The object that the initialiser of [settings] builds from the parsed
    text; [None] stands for the [TypeError] of reading a property of [null]
    or [undefined]. *)
Definition mergedSettings (parsedSettings : JsVal) : option (gmap string JsVal) :=
  let defaultKit := prop "brandKit" defaultSettings in
  if Js.nullish parsedSettings || Js.nullish defaultKit then None else
  let kit := Js.get "brandKit" parsedSettings in
  let group (k : string) : JsVal :=
    let saved := if Js.nullish kit then JUndefined else Js.get k kit in
    JObj (spread (ownProps (Js.get k defaultKit)) (ownProps (orEmpty saved))) in
  Some
    (<["brandKit" :=
         JObj (<["brandingStyle" := group "brandingStyle"]>
                 (<["fonts" := group "fonts"]>
                    (<["colors" := group "colors"]>
                       (spread (ownProps defaultKit) (ownProps (orEmpty kit))))))]>
       (spread defaultSettings (ownProps parsedSettings))).

(** The initial value of the [settings] state, from [savedSettings], the
    text found under [SETTINGS_STORAGE_KEY] if any.  A text that is not
    JSON and a [TypeError] both end in the [catch] clause, whose console
    line is left out. *)
Definition loadSettings (savedSettings : option string) : gmap string JsVal :=
  let parsed :=
    match savedSettings with
    | None => Some (JObj ∅)
    | Some s => if String.eqb s "" then Some (JObj ∅) else Json.parse s
    end in
  match parsed with
  | None => defaultSettings
  | Some parsedSettings => default defaultSettings (mergedSettings parsedSettings)
  end.

End Settings.

Section BrandKit.

Variable uuid : nat -> string.
Variable defaultBrandKit : gmap string JsVal.

(** [handleApplyBrandKit]; [brandKit] is [settings.brandKit] and [now] the
    time of the call.  Reading [fonts.body] or [colors.primary] of a missing
    group throws before any state is set. *)
Definition handleApplyBrandKit (brandKit : JsVal) (now : string) (st : AppState)
  : AppState :=
  if negb (Js.truthy brandKit) then st else
  let colors := Js.get "colors" brandKit in
  let fonts := Js.get "fonts" brandKit in
  let brandingText := Js.get "brandingText" brandKit in
  let brandingStyle := Js.get "brandingStyle" brandKit in
  if Js.nullish fonts || Js.nullish colors then st else
  let mainFont := if Js.truthy (Js.get "body" fonts) then Js.get "body" fonts
                  else JStr "Inter" in
  let current (k : string) : JsVal :=
    match currentCarousel st with
    | Some c => prop k (preferences c)
    | None => JUndefined
    end in
  let updates : gmap string JsVal :=
    {[ "backgroundColor" := Js.get "primary" colors;
       "fontColor" := Js.get "text" colors;
       "font" := mainFont;
       "brandingText" := brandingText;
       "brandingStyle" := brandingStyle;
       "headlineStyle" := JObj (ownProps (current "headlineStyle"));
       "bodyStyle" := JObj (ownProps (current "bodyStyle")) ]} in
  handleClearSlideOverrides "fontColor"
    (handleClearSlideOverrides "backgroundColor"
       (handleUpdateCarouselPreferences uuid defaultBrandKit now updates
          (currentTopic st) st)).

End BrandKit.

(** Default settings with a brand kit, and a stored text that overrides the
    key and one colour. *)
Module Studio.

Definition defaultKit : gmap string JsVal :=
  {[ "colors" := JObj {[ "primary" := JStr "#FFFFFF"; "secondary" := JStr "#00C2CB";
                         "text" := JStr "#111827" ]};
     "fonts" := JObj {[ "headline" := JStr "Poppins"; "body" := JStr "Inter" ]};
     "logo" := JStr "";
     "brandingText" := JStr "";
     "brandingStyle" :=
       JObj {[ "color" := JStr "#111827"; "position" := JStr "bottom-right" ]} ]}.

Definition defaultSettings : gmap string JsVal :=
  {[ "aiModel" := JStr "gemini-2.5-flash"; "apiKey" := JStr "";
     "brandKit" := JObj defaultKit ]}.

Definition savedSettings : string :=
  Sample.dq "{'apiKey':'k-1','brandKit':{'colors':{'primary':'#FF0000'}}}".

Definition brandColors : gmap string JsVal :=
  {[ "primary" := JStr "#0F172A"; "text" := JStr "#F8FAFC" ]}.

Definition brandFonts : gmap string JsVal :=
  {[ "headline" := JStr "Poppins"; "body" := JStr "Lora" ]}.

Definition brandKit : gmap string JsVal :=
  {[ "colors" := JObj brandColors;
     "fonts" := JObj brandFonts;
     "brandingText" := JStr "@ana";
     "brandingStyle" := JObj {[ "color" := JStr "#F8FAFC" ]} ]}.

End Studio.

(** ** The dashboard's statistics *)

(** The names that every object inherits from [Object.prototype]. *)
Definition prototypeNames : list string :=
  [ "constructor"; "__defineGetter__"; "__defineSetter__"; "hasOwnProperty";
    "__lookupGetter__"; "__lookupSetter__"; "isPrototypeOf";
    "propertyIsEnumerable"; "toString"; "valueOf"; "__proto__"; "toLocaleString" ].

Definition startsWithDigit (s : string) : bool :=
  match s with
  | String c _ => (48 <=? nat_of_ascii c)%nat && (nat_of_ascii c <=? 57)%nat
  | EmptyString => false
  end.

(** A key that a fresh object does not inherit and that is no array index:
    for such keys [acc[k]] is what was stored under [k], and
    [Object.entries] lists them in the order of their first assignment. *)
Definition ordinaryKey (k : string) : bool :=
  negb (startsWithDigit k) && negb (existsb (String.eqb k) prototypeNames).

(** [acc[k] = (acc[k] || 0) + 1] on the entries of [acc], for ordinary
    keys. *)
Fixpoint countUp (k : string) (acc : list (string * Z)) : list (string * Z) :=
  match acc with
  | [] => [(k, 0 + 1)]
  | (k', n) :: rest =>
      if String.eqb k' k then (k', (if n =? 0 then 0 else n) + 1) :: rest
      else (k', n) :: countUp k rest
  end.

Definition categoryCounts (carouselHistory : list Carousel) : list (string * Z) :=
  fold_left (fun acc carousel => countUp (category carousel) acc) carouselHistory [].

(** [mostUsedCategory]; [None] stands for the [TypeError] of reducing an
    empty array without an initial value. *)
Definition mostUsedCategory (carouselHistory : list Carousel) : option string :=
  if (length carouselHistory =? 0)%nat then Some "N/A" else
  match categoryCounts carouselHistory with
  | [] => None
  | first :: others =>
      Some (fst (fold_left (fun a b => if snd a >? snd b then a else b) others first))
  end.

(** How many carousels of the history have the category [k]. *)
Definition occurrences (k : string) (h : list Carousel) : Z :=
  Z.of_nat (length (List.filter (fun c => String.eqb (category c) k) h)).

(** What [acc[k] || 0] reads. *)
Fixpoint countOf (k : string) (acc : list (string * Z)) : Z :=
  match acc with
  | [] => 0
  | (k', n) :: rest => if String.eqb k' k then n else countOf k rest
  end.

(** ** The session listener *)


(** A row of the [profiles] table; [None] is a column that is [null]. *)
Module Profiles.

Record row : Type := mkRow {
  full_name : option string;
  avatar_url : option string;
  niche : option (list string);
  profile_complete : option bool
}.

End Profiles.

(** [newProfileData], the row that is inserted for a new user. *)
Module NewProfile.

Record data : Type := mkData {
  id : string;
  full_name : string;
  avatar_url : option string;
  email : string;
  profile_complete : bool
}.

End NewProfile.

Module Postgrest.

Record error : Type := mkError { code : string }.

End Postgrest.






Section AuthListener.

Variable messages : gmap string string.

(** The answers of the backend, which is not among the sources: the [data]
    and [error] of the awaited profile query for a user id, and the [error]
    of the awaited insertion of a row. *)
Variable select : string -> option Profiles.row * option Postgrest.error.
Variable insert : NewProfile.data -> option Postgrest.error.



End AuthListener.

(** Look a key up in a map written as a literal. *)
Ltac literal_lookup :=
  repeat (rewrite lookup_insert_ne by done);
  first [apply lookup_insert_eq | apply lookup_singleton_eq].

(** Evaluate the [findIndex] of the goal. *)
Ltac run_findIndex :=
  repeat match goal with
  | |- context [findIndex ?p ?l] =>
      let v := eval vm_compute in (findIndex p l) in
      change (findIndex p l) with v
  end.

(** * Properties *)

(** ** Array helpers *)

Section FindIndex.

Context {A : Type} (p : A -> bool).

Lemma findIndex_from_range (i : Z) (l : list A) :
  0 <= i ->
  findIndex_from p i l = -1 \/ i <= findIndex_from p i l < i + Z.of_nat (length l).
Proof.
  revert i. induction l as [|x l IH]; intros i Hi; simpl.
  - by left.
  - destruct (p x); [right; lia|].
    destruct (IH (i + 1)) as [->|?]; [lia|by left|right; lia].
Qed.

Lemma findIndex_from_shift (i : Z) (l : list A) :
  0 <= i ->
  findIndex_from p i l =
    if findIndex_from p 0 l =? -1 then -1 else i + findIndex_from p 0 l.
Proof.
  revert i. induction l as [|x l IH]; intros i Hi; simpl; [done|].
  destruct (p x); simpl; [lia|].
  rewrite (IH (i + 1)), (IH (0 + 1)) by lia.
  destruct (findIndex_from_range 0 l) as [->|?]; [lia|done|].
  destruct (findIndex_from p 0 l =? -1) eqn:E; [done|].
  assert ((0 + 1 + findIndex_from p 0 l =? -1) = false) as -> by lia. lia.
Qed.

(** Nothing satisfies [p] exactly when the answer is [-1]. *)
Lemma findIndex_none (l : list A) :
  findIndex p l = -1 <-> Forall (fun x => p x = false) l.
Proof.
  unfold findIndex. induction l as [|x l IH]; simpl.
  - split; [constructor|done].
  - destruct (p x) eqn:E.
    + split; [lia|]. intros H. inversion H; congruence.
    + rewrite findIndex_from_shift by lia.
      destruct (findIndex_from_range 0 l) as [Hn|Hr]; [lia| |].
      * rewrite Hn. simpl. split; [|done]. intros _. constructor; [done|by apply IH].
      * assert ((findIndex_from p 0 l =? -1) = false) as -> by lia.
        split; [lia|]. intros Hall. inversion Hall as [|? ? _ Hl]; subst.
        apply IH in Hl. lia.
Qed.

(** Otherwise the answer is the first position that satisfies [p]. *)
Lemma findIndex_first (l : list A) :
  findIndex p l <> -1 ->
  exists x, l !! Z.to_nat (findIndex p l) = Some x /\ p x = true /\
    forall j y, (j < Z.to_nat (findIndex p l))%nat -> l !! j = Some y -> p y = false.
Proof.
  unfold findIndex. induction l as [|x l IH]; simpl; [done|].
  destruct (p x) eqn:E.
  - intros _. exists x. simpl. split_and!; [done..|]. intros j y Hj. lia.
  - rewrite findIndex_from_shift by lia.
    destruct (findIndex_from_range 0 l) as [Hn|Hr]; [lia|by rewrite Hn|].
    assert ((findIndex_from p 0 l =? -1) = false) as -> by lia.
    intros _. destruct IH as (y & Hy & Hpy & Hfirst); [lia|].
    replace (Z.to_nat (0 + 1 + findIndex_from p 0 l))
      with (S (Z.to_nat (findIndex_from p 0 l))) by lia.
    exists y. split_and!; [done..|].
    intros [|j] z Hj Hz; simpl in Hz; [congruence|].
    apply (Hfirst j); [lia|done].
Qed.

Lemma findIndex_range (l : list A) :
  findIndex p l = -1 \/ 0 <= findIndex p l < Z.of_nat (length l).
Proof. apply (findIndex_from_range 0 l). lia. Qed.

Lemma findIndex_exists (l : list A) (x : A) :
  x ∈ l -> p x = true -> findIndex p l <> -1.
Proof.
  intros Hin Hp Hn. apply findIndex_none in Hn.
  rewrite Forall_forall in Hn. specialize (Hn x Hin). congruence.
Qed.

End FindIndex.

Section Swap.

Context {A : Type}.
Implicit Types l : list A.

Lemma length_swap i j l : length (swap i j l) = length l.
Proof.
  unfold swap. destruct (l !! j), (l !! i); try done.
  by rewrite !length_insert.
Qed.

Lemma swap_lookup_l i j l :
  (i < length l)%nat -> (j < length l)%nat -> i <> j -> swap i j l !! i = l !! j.
Proof.
  intros Hi Hj Hne. unfold swap.
  destruct (lookup_lt_is_Some_2 l j Hj) as [a Ha].
  destruct (lookup_lt_is_Some_2 l i Hi) as [b Hb].
  rewrite Ha, Hb. rewrite list_lookup_insert_ne by done.
  by rewrite list_lookup_insert_eq.
Qed.

Lemma swap_lookup_r i j l :
  (i < length l)%nat -> (j < length l)%nat -> swap i j l !! j = l !! i.
Proof.
  intros Hi Hj. unfold swap.
  destruct (lookup_lt_is_Some_2 l j Hj) as [a Ha].
  destruct (lookup_lt_is_Some_2 l i Hi) as [b Hb].
  rewrite Ha, Hb. rewrite list_lookup_insert_eq; [done|].
  by rewrite length_insert.
Qed.

Lemma swap_lookup_other i j k l :
  k <> i -> k <> j -> swap i j l !! k = l !! k.
Proof.
  intros Hi Hj. unfold swap. destruct (l !! j), (l !! i); try done.
  by rewrite !list_lookup_insert_ne.
Qed.

End Swap.

(** ** The write-back into history *)

Section WriteBack.

Implicit Types (c : Carousel) (h : list Carousel).


(** No entry carries the id: nothing is written. *)
Lemma writeBack_absent c h :
  Forall (fun x => id x <> id c) h -> writeBack c h = h.
Proof.
  intros Hall. unfold writeBack.
  assert (findIndex (fun x => String.eqb (id x) (id c)) h = -1) as ->; [|done].
  apply findIndex_none. eapply Forall_impl; [done|].
  intros x Hx. simpl in Hx. by apply String.eqb_neq.
Qed.

(** Entries with another id stay where and what they are. *)
Lemma writeBack_other c h i x :
  h !! i = Some x -> id x <> id c -> writeBack c h !! i = Some x.
Proof.
  intros Hi Hne. unfold writeBack.
  destruct (findIndex _ h =? -1) eqn:E; [done|].
  destruct (findIndex_first (fun x => String.eqb (id x) (id c)) h) as (y & Hy & Hp & _);
    [lia|].
  rewrite list_lookup_insert_ne; [done|].
  intros <-. rewrite Hy in Hi. injection Hi as ->. by apply String.eqb_eq in Hp.
Qed.

(** The first entry with the id is replaced. *)
Lemma writeBack_first c h i x :
  h !! i = Some x -> id x = id c ->
  (forall j y, (j < i)%nat -> h !! j = Some y -> id y <> id c) ->
  writeBack c h !! i = Some c.
Proof.
  intros Hi Heq Hfirst. unfold writeBack.
  set (p := fun x => String.eqb (id x) (id c)).
  assert (findIndex p h <> -1) as Hfound.
  { apply (findIndex_exists p h x); [by eapply list_elem_of_lookup_2|].
    by apply String.eqb_eq. }
  destruct (findIndex_first p h Hfound) as (y & Hy & Hp & Hmin).
  assert ((findIndex p h =? -1) = false) as -> by lia.
  assert (Z.to_nat (findIndex p h) = i) as ->.
  { destruct (Nat.lt_trichotomy (Z.to_nat (findIndex p h)) i) as [Hlt|[?|Hgt]]; [|done|].
    - exfalso. apply (Hfirst _ _ Hlt Hy). by apply String.eqb_eq in Hp.
    - exfalso. specialize (Hmin _ _ Hgt Hi). unfold p in Hmin.
      apply String.eqb_neq in Hmin. done. }
  apply list_lookup_insert_eq. by eapply lookup_lt_Some.
Qed.

Lemma writeBack_present c h x :
  x ∈ h -> id x = id c -> c ∈ writeBack c h.
Proof.
  intros Hin Heq. unfold writeBack.
  set (p := fun x => String.eqb (id x) (id c)).
  assert (findIndex p h <> -1) as Hfound.
  { apply (findIndex_exists p h x); [done|]. by apply String.eqb_eq. }
  destruct (findIndex_first p h Hfound) as (y & Hy & _).
  assert ((findIndex p h =? -1) = false) as -> by lia.
  eapply list_elem_of_lookup_2. apply list_lookup_insert_eq. by eapply lookup_lt_Some.
Qed.

End WriteBack.

(** ** Slide updates *)


(** The update of the slide itself: the named fields take the new values,
    the other fields of that slide and all other slides are kept. *)
Lemma handleUpdateSlide_slide
    (st : AppState) (cur : Carousel) (slideId : string) (updates : gmap string JsVal)
    (i : nat) (s : SlideData) :
  currentCarousel st = Some cur -> slides cur !! i = Some s ->
  exists cur' s', currentCarousel (handleUpdateSlide slideId updates st) = Some cur' /\
    slides cur' !! i = Some s' /\
    (has_id slideId s = false -> s' = s) /\
    (has_id slideId s = true ->
       forall k, s' !! k = match updates !! k with Some v => Some v | None => s !! k end).
Proof.
  intros Hcur Hi. unfold handleUpdateSlide. rewrite Hcur. simpl.
  eexists _, _. split; [done|]. simpl. rewrite list_lookup_fmap, Hi. simpl.
  split; [done|]. destruct (has_id slideId s); split; try done.
  intros _ k. unfold spread. destruct (updates !! k) eqn:E.
  - by erewrite lookup_union_Some_l.
  - by rewrite lookup_union_r.
Qed.


(** ** Reordering *)

(** C5.  [index] being the position [findIndex] reports for the slide id and
    [newIndex] the neighbouring position in the given direction: when the id
    is found and [newIndex] is within the list, the current carousel
    afterwards has the two slides exchanged, every other position of its
    slide list holds the slide it held, the length and the rest of the
    carousel are kept, and nothing but the current carousel changes; when
    the id is unknown or [newIndex] is out of bounds, the state (and so the
    slide list) is unchanged. *)
Theorem handleMoveSlide_swaps_neighbours
    (st : AppState) (cur : Carousel) (slideId : string) (direction : Direction) :
  currentCarousel st = Some cur ->
  let index := findIndex (has_id slideId) (slides cur) in
  let newIndex := match direction with Left => index - 1 | Right => index + 1 end in
  let st' := handleMoveSlide slideId direction st in
  (index <> -1 -> 0 <= newIndex < Z.of_nat (length (slides cur)) ->
     exists cur',
       currentCarousel st' = Some cur' /\
       st' = setCurrentCarousel (Some cur') st /\
       length (slides cur') = length (slides cur) /\
       slides cur' !! Z.to_nat index = slides cur !! Z.to_nat newIndex /\
       slides cur' !! Z.to_nat newIndex = slides cur !! Z.to_nat index /\
       (forall k, k <> Z.to_nat index -> k <> Z.to_nat newIndex ->
          slides cur' !! k = slides cur !! k) /\
       id cur' = id cur /\ title cur' = title cur /\ createdAt cur' = createdAt cur /\
       category cur' = category cur /\ preferences cur' = preferences cur) /\
  (index = -1 \/ newIndex < 0 \/ Z.of_nat (length (slides cur)) <= newIndex ->
     st' = st).
Proof.
  intros Hcur index newIndex st'. subst st'. unfold handleMoveSlide. rewrite Hcur.
  fold index. fold newIndex.
  pose proof (findIndex_range (has_id slideId) (slides cur)) as Hrange.
  change (findIndex (has_id slideId) (slides cur)) with index in Hrange.
  clearbody index. destruct Hrange as [Hn|Hr].
  - rewrite Hn. simpl. split; [done|]. done.
  - assert ((index =? -1) = false) as -> by lia.
    destruct ((newIndex <? 0) || (newIndex >=? Z.of_nat (length (slides cur)))) eqn:E.
    + split; [|done]. intros _ Hb. exfalso.
      apply orb_true_iff in E as [E|E]; lia.
    + apply orb_false_iff in E as [E1 E2]. split; [|lia].
      intros _ Hb. eexists. split; [reflexivity|]. split; [reflexivity|].
      assert (Z.to_nat index <> Z.to_nat newIndex) by (destruct direction; lia).
      cbn [slides with_slides id title createdAt category preferences].
      split_and!; try reflexivity.
      * apply length_swap.
      * apply swap_lookup_l; [lia..|done].
      * apply swap_lookup_r; lia.
      * intros k Hk1 Hk2. by apply swap_lookup_other.
Qed.

(** A slide id that occurs in the list is found, at the first slide that
    carries it. *)
Lemma handleMoveSlide_index_of_present (cur : Carousel) (slideId : string) (s : SlideData) :
  s ∈ slides cur -> has_id slideId s = true ->
  exists s', slides cur !! Z.to_nat (findIndex (has_id slideId) (slides cur)) = Some s' /\
    has_id slideId s' = true /\ findIndex (has_id slideId) (slides cur) <> -1.
Proof.
  intros Hin Hid.
  pose proof (findIndex_exists (has_id slideId) (slides cur) s Hin Hid) as Hfound.
  destruct (findIndex_first (has_id slideId) (slides cur) Hfound) as (s' & ? & ? & _).
  by exists s'.
Qed.

Lemma handleMoveSlide_swaps_neighbours_witness :
  currentCarousel Sample.editing = Some Sample.coffee /\
  (exists cur',
     currentCarousel (handleMoveSlide "s-2" Right Sample.editing) = Some cur' /\
     slides cur' !! 1%nat = Some (Sample.slide "s-3" "Pour") /\
     slides cur' !! 2%nat = Some (Sample.slide "s-2" "Bloom") /\
     slides cur' !! 0%nat = Some (Sample.slide "s-1" "Grind")) /\
  handleMoveSlide "s-1" Left Sample.editing = Sample.editing /\
  handleMoveSlide "s-7" Right Sample.editing = Sample.editing.
Proof.
  split; [reflexivity|]. split; [|split].
  - destruct (handleMoveSlide_swaps_neighbours Sample.editing Sample.coffee "s-2" Right
                eq_refl) as [Hin _].
    destruct Hin as (cur' & Hcur & _ & _ & H1 & H2 & Hk & _).
    + run_findIndex. lia.
    + run_findIndex. simpl. lia.
    + revert Hcur H1 H2 Hk. run_findIndex. simpl. intros Hcur H1 H2 Hk.
      exists cur'. split; [exact Hcur|]. split; [exact H1|]. split; [exact H2|].
      apply (Hk 0%nat); lia.
  - apply (handleMoveSlide_swaps_neighbours Sample.editing Sample.coffee "s-1" Left eq_refl).
    right. left. run_findIndex. lia.
  - apply (handleMoveSlide_swaps_neighbours Sample.editing Sample.coffee "s-7" Right eq_refl).
    left. run_findIndex. reflexivity.
Defined.

(** ** Preferences *)

(** C6.  A partial preferences update on the current carousel gives a
    preferences record in which every field named in the update has the
    value the update gives it and every other field is what it was. *)
Theorem handleUpdateCarouselPreferences_merges
    (uuid : nat -> string) (defaultBrandKit : gmap string JsVal) (now : string)
    (st : AppState) (cur : Carousel) (updates : gmap string JsVal) (topicValue : string) :
  currentCarousel st = Some cur ->
  exists cur',
    currentCarousel
      (handleUpdateCarouselPreferences uuid defaultBrandKit now updates topicValue st)
      = Some cur' /\
    (forall k v, updates !! k = Some v -> preferences cur' !! k = Some v) /\
    (forall k, updates !! k = None -> preferences cur' !! k = preferences cur !! k) /\
    id cur' = id cur /\ title cur' = title cur /\ slides cur' = slides cur.
Proof.
  intros Hcur. unfold handleUpdateCarouselPreferences. rewrite Hcur.
  eexists. split; [done|]. simpl. unfold spread. split_and!; try done.
  - intros k v Hk. by apply lookup_union_Some_l.
  - intros k Hk. by apply lookup_union_r.
Qed.

Lemma handleUpdateCarouselPreferences_merges_witness :
  currentCarousel Sample.editing = Some Sample.coffee /\
  exists cur',
    currentCarousel
      (handleUpdateCarouselPreferences Sample.uuid ∅ "2025-01-02T00:00:00.000Z"
         {[ "fontColor" := JStr "#FFFFFF" ]} "Coffee Brewing" Sample.editing)
      = Some cur' /\
    preferences cur' !! "fontColor" = Some (JStr "#FFFFFF") /\
    preferences cur' !! "font" = Some (JStr "Inter").
Proof.
  split; [reflexivity|].
  destruct (handleUpdateCarouselPreferences_merges Sample.uuid ∅ "2025-01-02T00:00:00.000Z"
              Sample.editing Sample.coffee {[ "fontColor" := JStr "#FFFFFF" ]}
              "Coffee Brewing" eq_refl) as (cur' & Hc & Hin & Hout & _).
  exists cur'. split; [exact Hc|]. split.
  - apply Hin. reflexivity.
  - rewrite Hout; reflexivity.
Defined.

Lemma handleUpdateCarouselPreferences_writes_back
    (uuid : nat -> string) (defaultBrandKit : gmap string JsVal) (now : string)
    (st : AppState) (cur : Carousel) (updates : gmap string JsVal) (topicValue : string) :
  currentCarousel st = Some cur ->
  let st' := handleUpdateCarouselPreferences uuid defaultBrandKit now updates topicValue st in
  carouselHistory st' =
    writeBack (with_preferences cur (spread (preferences cur) updates)) (carouselHistory st).
Proof.
  intros Hcur. simpl. unfold handleUpdateCarouselPreferences. by rewrite Hcur.
Qed.

(** ** Mutators and the history copy *)

(** Reordering and clearing overrides only set the current carousel. *)
Lemma handleMoveSlide_history (st : AppState) (slideId : string) (direction : Direction) :
  carouselHistory (handleMoveSlide slideId direction st) = carouselHistory st.
Proof.
  unfold handleMoveSlide. repeat case_match; done.
Qed.

Lemma handleClearSlideOverrides_history (st : AppState) (property : string) :
  carouselHistory (handleClearSlideOverrides property st) = carouselHistory st.
Proof.
  unfold handleClearSlideOverrides. by case_match.
Qed.

(** C3 does not hold of reordering and of clearing overrides.  With
    [coffee] current and in history, moving
    slide [s-2] to the right changes the current carousel and leaves the
    history entry with its id as it was; with [styled] current and in
    history, clearing the [fontColor] override does the same.  After either
    mutation the current carousel and its history entry differ. *)
Theorem reorder_and_clear_leave_history_stale :
  (exists cur' entry,
     currentCarousel (handleMoveSlide "s-2" Right Sample.editing) = Some cur' /\
     carouselHistory (handleMoveSlide "s-2" Right Sample.editing) !! 0%nat = Some entry /\
     id entry = id cur' /\ entry = Sample.coffee /\
     slides cur' !! 1%nat = Some (Sample.slide "s-3" "Pour") /\
     slides entry !! 1%nat = Some (Sample.slide "s-2" "Bloom") /\
     cur' <> entry) /\
  (exists cur' entry,
     currentCarousel (handleClearSlideOverrides "fontColor" Sample.editingStyled) = Some cur' /\
     carouselHistory (handleClearSlideOverrides "fontColor" Sample.editingStyled) !! 0%nat
       = Some entry /\
     id entry = id cur' /\ entry = Sample.styled /\
     slides cur' !! 0%nat = Some (Sample.slide "s-4" "Heart") /\
     cur' <> entry).
Proof.
  split.
  - eexists _, _. split_and!; try reflexivity.
    intros H. apply (f_equal (fun c => slides c !! 1%nat)) in H.
    vm_compute in H. discriminate H.
  - eexists _, _. split_and!; try reflexivity.
    intros H. apply (f_equal (fun c => slides c !! 0%nat)) in H.
    vm_compute in H. discriminate H.
Qed.

(** ** Leaving the generator *)

(** C9 as stated fails: the placeholder carousel of [drafting] is current on
    the generator screen, and after going to the dashboard it is neither
    current nor in the history, which is what it was. *)
Lemma goToDashboard_drops_placeholder :
  view Sample.drafting = GENERATOR /\
  exists cur,
    currentCarousel Sample.drafting = Some cur /\
    currentCarousel (goToDashboard Sample.drafting) = None /\
    carouselHistory (goToDashboard Sample.drafting) = [Sample.tea] /\
    cur ∉ carouselHistory (goToDashboard Sample.drafting).
Proof.
  split; [reflexivity|]. eexists. split_and!; try reflexivity.
  intros Hin. apply list_elem_of_singleton in Hin.
  apply (f_equal id) in Hin. vm_compute in Hin. discriminate Hin.
Qed.

(** C9, amended.  Outside the login and profile-setup screens, going to the
    dashboard with a current carousel ends on the dashboard with no current
    carousel; when the history has an entry with the carousel's id, the
    first such entry then holds the carousel (so the history contains its
    latest value) and the entries with other ids are untouched; when the
    history has no entry with that id, the history is unchanged. *)
Theorem goToDashboard_flushes_known_carousel (st : AppState) (cur : Carousel) :
  view st <> LOGIN -> view st <> PROFILE_SETUP ->
  currentCarousel st = Some cur ->
  let st' := goToDashboard st in
  view st' = DASHBOARD /\ currentCarousel st' = None /\
  carouselHistory st' = writeBack cur (carouselHistory st) /\
  (forall c, c ∈ carouselHistory st -> id c = id cur -> cur ∈ carouselHistory st') /\
  (forall i c, carouselHistory st !! i = Some c -> id c = id cur ->
     (forall j c', (j < i)%nat -> carouselHistory st !! j = Some c' -> id c' <> id cur) ->
     carouselHistory st' !! i = Some cur) /\
  (forall i c, carouselHistory st !! i = Some c -> id c <> id cur ->
     carouselHistory st' !! i = Some c) /\
  (Forall (fun c => id c <> id cur) (carouselHistory st) ->
     carouselHistory st' = carouselHistory st).
Proof.
  intros Hl Hp Hcur st'.
  assert (st' = setView DASHBOARD
                  (setCurrentCarousel None
                     (setCarouselHistory (writeBack cur (carouselHistory st)) st))) as ->.
  { subst st'. unfold goToDashboard. rewrite Hcur. by destruct (view st). }
  simpl. split_and!; try done.
  - intros c Hin Heq. by eapply writeBack_present.
  - intros i c Hi Heq Hfirst. by eapply writeBack_first.
  - intros i c Hi Hne. by apply writeBack_other.
  - apply writeBack_absent.
Qed.

Lemma goToDashboard_flushes_known_carousel_witness :
  view Sample.editing <> LOGIN /\ view Sample.editing <> PROFILE_SETUP /\
  exists cur',
    currentCarousel (handleMoveSlide "s-2" Right Sample.editing) = Some cur' /\
    carouselHistory (goToDashboard (handleMoveSlide "s-2" Right Sample.editing)) !! 0%nat
      = Some cur' /\
    carouselHistory (goToDashboard (handleMoveSlide "s-2" Right Sample.editing)) !! 1%nat
      = Some Sample.tea.
Proof.
  split; [discriminate|]. split; [discriminate|].
  eexists. split; [reflexivity|].
  pose proof (goToDashboard_flushes_known_carousel
                (handleMoveSlide "s-2" Right Sample.editing) _
                ltac:(discriminate) ltac:(discriminate) eq_refl)
    as (_ & _ & _ & _ & Hfirst & Hother & _).
  split.
  - apply (Hfirst 0%nat Sample.coffee); [reflexivity|reflexivity|]. intros j c' Hj. lia.
  - apply (Hother 1%nat Sample.tea); [reflexivity|].
    intros H. vm_compute in H. discriminate H.
Defined.

(** ** History persistence *)

Lemma countdown_same (n : nat) : countdown n n = [n].
Proof. unfold countdown. by replace (S n - n)%nat with 1%nat by lia. Qed.

Lemma countdown_step (n k : nat) :
  (k <= n)%nat -> countdown (S n) k = S n :: countdown n k.
Proof.
  intros Hk. unfold countdown.
  replace (S (S n) - k)%nat with (S (S n - k)) by lia.
  rewrite seq_S, reverse_app. simpl. f_equal. lia.
Qed.

Lemma length_countdown (n k : nat) : length (countdown n k) = (S n - k)%nat.
Proof. unfold countdown. by rewrite length_reverse, length_seq. Qed.

Lemma length_slice_0_m1 {A : Type} (l : list A) :
  l <> [] -> S (length (slice_0_m1 l)) = length l.
Proof.
  intros Hl. unfold slice_0_m1. rewrite length_take. destruct l; [done|simpl; lia].
Qed.

Section SaveHistory.

Variable messages : gmap string string.
Variable HISTORY_STORAGE_KEY : string.
Variable stringify : list Carousel -> string.
Variable storageFailure : gmap string string -> string -> string -> option JsError.

Local Abbreviation save :=
  (saveHistoryWithAutoTrim messages HISTORY_STORAGE_KEY stringify storageFailure).
Local Abbreviation answer := (attempt HISTORY_STORAGE_KEY stringify storageFailure).
Local Abbreviation writes := (writesOf HISTORY_STORAGE_KEY stringify).
Local Abbreviation serialized h := (stringify (sanitizeHistory h)).
Local Abbreviation written w v :=
  (mkWorld (state w) (localStorage w) (setItemCalls w ++ [(HISTORY_STORAGE_KEY, v)])
     (console w)).

(** The routine on the empty history. *)
Lemma save_nil (w : World) :
  save [] w =
    match storageFailure (localStorage w) HISTORY_STORAGE_KEY "[]" with
    | None =>
        mkWorld (state w) (<[HISTORY_STORAGE_KEY := "[]"]> (localStorage w))
          (setItemCalls w ++ [(HISTORY_STORAGE_KEY, "[]")]) (console w)
    | Some _ => log (console_error "Could not clear carousel history:") (written w "[]")
    end.
Proof.
  simp saveHistoryWithAutoTrim. unfold setItem.
  by destruct (storageFailure _ _ _).
Qed.

(** The routine on a history with at least one entry. *)
Lemma save_cons (h : list Carousel) (w : World) :
  h <> [] ->
  save h w =
    match answer w h with
    | None =>
        mkWorld (state w) (<[HISTORY_STORAGE_KEY := serialized h]> (localStorage w))
          (setItemCalls w ++ [(HISTORY_STORAGE_KEY, serialized h)]) (console w)
    | Some e =>
        if isQuotaError e then
          if (1 <? length h)%nat then
            save (slice_0_m1 h)
              (log (console_warn (quotaWarning (length h))) (written w (serialized h)))
          else
            setAppError (Some (t messages "errorHistoryTooLarge" []))
              (log (console_error
                      "Could not save carousel history: The single most recent carousel is too large to fit in localStorage.")
                 (log (console_warn (quotaWarning (length h))) (written w (serialized h))))
        else
          log (console_error "Could not save carousel history due to an unknown error:")
            (written w (serialized h))
    end.
Proof.
  destruct h as [|c rest]; [done|]. intros _.
  simp saveHistoryWithAutoTrim. unfold setItem, attempt.
  destruct (storageFailure _ _ _) as [e|]; simpl; [|done].
  destruct (isQuotaError e); simpl; [|done].
  by destruct rest.
Qed.

(** C1.  For a history [h] with at least one entry, on a store that rejects
    writes only for quota: the routine writes [h], then [h] without its
    oldest (last) entry, and so on, one entry fewer each time, down to the
    newest [k] entries, every write before the last being rejected; it
    stops at the first write the store takes (the store then holds the
    newest [k] entries and no error is shown), or at [k = 1] when the store
    rejects that single entry too: the size error is then shown to the user,
    the store is unchanged and no further write is made.  When the write of
    [h] itself is rejected, either [h] is that single entry or at least one
    entry was dropped. *)
Theorem save_drops_oldest_until_it_fits (h : list Carousel) (w : World) :
  h <> [] -> rejectsOnlyForQuota HISTORY_STORAGE_KEY storageFailure w ->
  exists k,
    (1 <= k <= length h)%nat /\
    setItemCalls (save h w)
      = (setItemCalls w ++ writes h (countdown (length h) k))%list /\
    (forall j, (k < j <= length h)%nat -> is_Some (answer w (take j h))) /\
    (is_Some (answer w h) -> length h = 1%nat \/ (k < length h)%nat) /\
    ((answer w (take k h) = None /\
      localStorage (save h w)
        = <[HISTORY_STORAGE_KEY := serialized (take k h)]> (localStorage w) /\
      error (state (save h w)) = error (state w))
     \/
     (k = 1%nat /\ is_Some (answer w (take 1 h)) /\
      localStorage (save h w) = localStorage w /\
      error (state (save h w)) = Some (t messages "errorHistoryTooLarge" []))).
Proof.
  remember (length h) as n eqn:Hn. revert h w Hn.
  induction n as [|n IH]; intros h w Hn Hne Hquota.
  { destruct h; [done|discriminate]. }
  rewrite save_cons by done.
  assert (take (S n) h = h) as Htake by (apply take_ge; lia).
  destruct (answer w h) as [e|] eqn:Hans.
  - assert (isQuotaError e = true) as -> by (by eapply Hquota).
    rewrite <- Hn. destruct n as [|n].
    + (* the single remaining entry is rejected *)
      exists 1%nat. rewrite countdown_same. unfold writesOf. simpl. rewrite Htake.
      split_and!; [lia|lia|done|intros; lia|by left|].
      right. by rewrite Hans.
    + assert ((1 <? S (S n))%nat = true) as -> by (apply Nat.ltb_lt; lia).
      set (w1 := log _ _).
      assert (length (slice_0_m1 h) = S n) as Hlen.
      { pose proof (length_slice_0_m1 h Hne). lia. }
      assert (slice_0_m1 h <> []) as Hne' by (intros E; rewrite E in Hlen; done).
      destruct (IH (slice_0_m1 h) w1 (eq_sym Hlen) Hne' Hquota)
        as (k & Hk & Hcalls & Hrej & _ & Hend).
      assert (forall j, (j <= S n)%nat -> take j (slice_0_m1 h) = take j h) as Hpre.
      { intros j Hj. unfold slice_0_m1. rewrite take_take. f_equal. lia. }
      exists k. split; [lia|]. split; [|split; [|split]].
      * rewrite Hcalls. subst w1. simpl. rewrite <- app_assoc. f_equal.
        rewrite (countdown_step (S n) k) by lia. simpl. rewrite Htake. f_equal.
        unfold writesOf. apply map_ext_in. intros j Hj.
        apply list_elem_of_In in Hj. unfold countdown in Hj.
        apply elem_of_reverse, elem_of_seq in Hj. rewrite Hpre by lia. done.
      * intros j Hj. destruct (decide (j = S (S n))) as [->|].
        -- rewrite Htake, Hans. by eexists.
        -- specialize (Hrej j). rewrite Hpre in Hrej by lia. apply Hrej. lia.
      * intros _. right. lia.
      * rewrite !Hpre in Hend by lia. exact Hend.
  - exists (S n). rewrite countdown_same. unfold writesOf. simpl. rewrite Htake.
    split_and!; [lia|lia|done|intros; lia|by intros []|].
    left. by rewrite Hans.
Qed.


(** C10, amended.  The routine is a total function of the history and the
    world: the recursion is on the length of the history, and a retry is on
    a history exactly one entry shorter.  It makes at least one write
    attempt and at most [max 1 n] of them for a history of [n] entries: at
    most [n] when the history is not empty, exactly one (of the text [[]])
    when it is. *)
Theorem save_write_attempts_bounded (h : list Carousel) (w : World) :
  (h <> [] -> S (length (slice_0_m1 h)) = length h) /\
  exists attempts,
    setItemCalls (save h w) = (setItemCalls w ++ attempts)%list /\
    (1 <= length attempts <= Nat.max 1 (length h))%nat /\
    (h <> [] -> (length attempts <= length h)%nat) /\
    (h = [] -> attempts = [(HISTORY_STORAGE_KEY, "[]")]).
Proof.
  split; [apply length_slice_0_m1|].
  remember (length h) as n eqn:Hn. revert h w Hn.
  induction n as [|n IH]; intros h w Hn.
  - destruct h; [|discriminate]. rewrite save_nil.
    exists [(HISTORY_STORAGE_KEY, "[]")].
    destruct (storageFailure _ _ _); simpl; split_and!; try done; lia.
  - assert (h <> []) as Hne by (intros ->; discriminate).
    rewrite save_cons by done.
    destruct (answer w h) as [e|].
    + destruct (isQuotaError e).
      * rewrite <- Hn. destruct n as [|n].
        -- exists [(HISTORY_STORAGE_KEY, serialized h)]. simpl.
           split_and!; try done; lia.
        -- assert ((1 <? S (S n))%nat = true) as -> by (apply Nat.ltb_lt; lia).
           pose proof (length_slice_0_m1 h Hne) as Hlen.
           destruct (IH (slice_0_m1 h)
                       (log (console_warn (quotaWarning (S (S n))))
                          (written w (serialized h))))
             as (rest & Hcalls & Hb & _); [lia|].
           exists ((HISTORY_STORAGE_KEY, serialized h) :: rest).
           rewrite Hcalls. simpl. rewrite <- app_assoc. simpl.
           split_and!; try done; lia.
      * exists [(HISTORY_STORAGE_KEY, serialized h)]. simpl.
        split_and!; try done; lia.
    + exists [(HISTORY_STORAGE_KEY, serialized h)]. simpl.
      split_and!; try done; lia.
Qed.

End SaveHistory.

Lemma Sample_storage_rejectsOnlyForQuota (capacity : nat) (key : string) (w : World) :
  rejectsOnlyForQuota key (Sample.storage capacity) w.
Proof.
  intros v e. unfold Sample.storage. case_match; [|done].
  intros [= <-]. reflexivity.
Qed.

Lemma save_drops_oldest_until_it_fits_witness :
  [Sample.coffee; Sample.tea; Sample.styled] <> [] /\
  rejectsOnlyForQuota "carouselHistory" (Sample.storage 20) (Sample.browser Sample.editing) /\
  exists k,
    (1 <= k <= 3)%nat /\
    setItemCalls
      (saveHistoryWithAutoTrim Sample.messages "carouselHistory" Sample.stringify
         (Sample.storage 20) [Sample.coffee; Sample.tea; Sample.styled]
         (Sample.browser Sample.editing))
    = writesOf "carouselHistory" Sample.stringify
        [Sample.coffee; Sample.tea; Sample.styled] (countdown 3 k).
Proof.
  split; [discriminate|]. split; [apply Sample_storage_rejectsOnlyForQuota|].
  destruct (save_drops_oldest_until_it_fits Sample.messages "carouselHistory"
              Sample.stringify (Sample.storage 20)
              [Sample.coffee; Sample.tea; Sample.styled] (Sample.browser Sample.editing))
    as (k & Hk & Hcalls & _).
  - discriminate.
  - apply Sample_storage_rejectsOnlyForQuota.
  - exists k. split; [exact Hk|exact Hcalls].
Defined.

(** What the routine does on that history with room for twenty characters:
    three writes, the last one taken, [coffee] alone being stored. *)
Example save_sample_run :
  let w := saveHistoryWithAutoTrim Sample.messages "carouselHistory" Sample.stringify
             (Sample.storage 20) [Sample.coffee; Sample.tea; Sample.styled]
             (Sample.browser Sample.editing) in
  map snd (setItemCalls w)
    = ["[c-1:-(-,-,-),c-2:-(-),c-3:-(-)]"; "[c-1:-(-,-,-),c-2:-(-)]"; "[c-1:-(-,-,-)]"] /\
  localStorage w !! "carouselHistory" = Some "[c-1:-(-,-,-)]" /\
  error (state w) = None.
Proof. vm_compute. done. Qed.

(** With room for ten characters nothing fits: the last write is that of
    the newest entry alone, and the size error is shown. *)
Example save_sample_run_too_large :
  let w := saveHistoryWithAutoTrim Sample.messages "carouselHistory" Sample.stringify
             (Sample.storage 10) [Sample.coffee; Sample.tea; Sample.styled]
             (Sample.browser Sample.editing) in
  map snd (setItemCalls w)
    = ["[c-1:-(-,-,-),c-2:-(-),c-3:-(-)]"; "[c-1:-(-,-,-),c-2:-(-)]"; "[c-1:-(-,-,-)]"] /\
  localStorage w !! "carouselHistory" = None /\
  error (state w) = Some "This carousel is too large to be saved.".
Proof. vm_compute. done. Qed.

(** C10 as stated fails on the empty history: zero entries, one write
    attempt. *)
Lemma save_empty_history_writes_once :
  let w := saveHistoryWithAutoTrim Sample.messages "carouselHistory" Sample.stringify
             (Sample.storage 20) [] (Sample.browser Sample.dashboard) in
  setItemCalls w = [("carouselHistory", "[]")] /\
  ~ (length (setItemCalls w) <= length ([] : list Carousel))%nat.
Proof. vm_compute. split; [done|]. intros H. inversion H. Qed.

(** ** Sanitizing before persistence *)

Lemma sanitizeSlide_no_video (s : SlideData) :
  isInlineVideo (prop "backgroundImage" (sanitizeSlide s)) = false.
Proof.
  unfold sanitizeSlide. destruct (isInlineVideo (prop "backgroundImage" s)) eqn:E; [|done].
  unfold prop. by rewrite lookup_delete_eq.
Qed.

Lemma sanitizeSlide_other_fields (s : SlideData) (k : string) :
  k <> "backgroundImage" -> sanitizeSlide s !! k = s !! k.
Proof.
  intros Hk. unfold sanitizeSlide. case_match; [|done]. by rewrite lookup_delete_ne.
Qed.

(** The slides of the snapshot carry no inline video. *)
Lemma sanitizeHistory_slides_no_video (h : list Carousel) (c : Carousel) (s : SlideData) :
  c ∈ sanitizeHistory h -> s ∈ slides c ->
  isInlineVideo (prop "backgroundImage" s) = false.
Proof.
  unfold sanitizeHistory. intros Hc Hs.
  apply list_elem_of_In, in_map_iff in Hc as (c0 & <- & _).
  simpl in Hs. apply list_elem_of_In, in_map_iff in Hs as (s0 & <- & _).
  apply sanitizeSlide_no_video.
Qed.

(** The preferences of every carousel go into the snapshot as they are. *)
Lemma sanitizeHistory_preferences (h : list Carousel) :
  map preferences (sanitizeHistory h) = map preferences h.
Proof.
  unfold sanitizeHistory. rewrite map_map. by apply map_ext.
Qed.

(** C2 does not hold of the preferences.  The history holding
    [videoBackground] is saved on a store with room for it: the video of the slide is removed,
    the video held by the [backgroundImage] of the preferences is inline
    video data, stays in the snapshot and is written to the store. *)
Theorem sanitized_snapshot_keeps_preferences_video :
  let h := [Sample.videoBackground] in
  let w := saveHistoryWithAutoTrim Sample.messages "carouselHistory" Sample.stringify
             (Sample.storage 100) h (Sample.browser Sample.dashboard) in
  (exists c, sanitizeHistory h = [c] /\
     slides c = [Sample.slide "s-5" "Pull"] /\
     preferences c !! "backgroundImage" = Some (JStr "data:video/mp4;base64,AAAA")) /\
  isInlineVideo (JStr "data:video/mp4;base64,AAAA") = true /\
  localStorage w !! "carouselHistory" = Some "[c-4:data:video/mp4;base64,AAAA(-)]".
Proof.
  split; [|split].
  - eexists. split; [reflexivity|]. split; reflexivity.
  - reflexivity.
  - vm_compute. reflexivity.
Qed.

(** ** The error classifier *)

Section Classifier.

Variable messages : gmap string string.




End Classifier.


(** An empty message is replaced by the unknown-error text before anything
    else is looked at. *)
Example parseAndDisplayError_empty_message :
  parseAndDisplayError Sample.messages (Error_of "") = "errorUnknown".
Proof. reflexivity. Qed.

(** ** Carousel generation *)

Section GenerationFacts.

Variable messages : gmap string string.
Variable uuid : nat -> string.
Variable generateCarouselContent :
  string -> string -> DesignPreferences -> AppSettings -> Completion (list SlideData).
Variable generateImage : nat -> JsVal -> JsVal -> Completion string.

(** What the image loop keeps: the identity of the carousel, the number of
    its slides and their ids, the history and the id supply; and the
    carousel it returns is the current one if the one it started from
    was. *)
Lemma imageLoop_keeps (carousel : Carousel) (todo : list SlideData) :
  forall (i : nat) (updatedCarousel : Carousel) (st : AppState),
    let r := imageLoop messages generateImage carousel i todo updatedCarousel st in
    id r.1 = id updatedCarousel /\ title r.1 = title updatedCarousel /\
    map (prop "id") (slides r.1) = map (prop "id") (slides updatedCarousel) /\
    carouselHistory r.2 = carouselHistory st /\
    uuidsDrawn r.2 = uuidsDrawn st /\
    (currentCarousel st = Some updatedCarousel -> currentCarousel r.2 = Some r.1).
Proof.
  induction todo as [|slide rest IH]; intros i updatedCarousel st; simpl.
  - done.
  - destruct (generateImage i _ _) as [imageUrl|e].
    + set (updated := with_slides updatedCarousel _).
      set (st1 := setCurrentCarousel _ _).
      destruct (IH (S i) updated st1) as (Hid & Htitle & Hids & Hh & Hu & Hcur).
      split_and!; try done.
      * rewrite Hids. subst updated. simpl. rewrite map_map. apply map_ext.
        intros s. case_match; [|done]. unfold prop. by rewrite lookup_insert_ne.
      * intros _. by apply Hcur.
    + set (st1 := setIsGeneratingImageForSlide _ _).
      destruct (IH (S i) updatedCarousel st1) as (Hid & Htitle & Hids & Hh & Hu & Hcur).
      split_and!; done.
Qed.

Lemma initialSlides_ids (n0 : nat) (slidesContent : list SlideData) (s : SlideData) :
  s ∈ initialSlides uuid n0 slidesContent ->
  exists i, (i < length slidesContent)%nat /\ prop "id" s = JStr (uuid (n0 + i)).
Proof.
  unfold initialSlides. intros Hs.
  apply list_elem_of_lookup in Hs as [i Hi].
  rewrite list_lookup_imap in Hi.
  destruct (slidesContent !! i) as [s0|] eqn:E; [|done].
  injection Hi as <-. exists i. split; [by eapply lookup_lt_Some|].
  unfold prop. by rewrite lookup_insert_eq.
Qed.

(** C8.  For a signed-in user with a configured key and a topic, niche and
    preferences for which content generation succeeds (with usable output):
    the generated carousel is put in front of the history and is the
    current carousel; its title is the topic; it has as many slides as the
    generator returned, at least one; its id is the id that
    [crypto.randomUUID] hands out in this call after the ids of the
    slides.  Provided that the id supply never repeats itself nor an id of
    the history, that id differs from the id of every history entry and of
    every slide of the carousel.  The first history entry has that id. *)
Theorem handleGenerateCarousel_prepends_new_carousel
    (now topic niche0 : string) (preferences0 : DesignPreferences) (magicCreate : bool)
    (st : AppState) (u : UserProfile) (slidesContent : list SlideData) :
  user st = Some u ->
  falsy_string (apiKey (settings st)) = false ->
  generateCarouselContent topic (nicheToUse niche0 u) preferences0 (settings st)
    = Resolved slidesContent ->
  usableOutput (Resolved slidesContent) ->
  (forall i j, uuid i = uuid j -> i = j) ->
  (forall c k, c ∈ carouselHistory st -> (uuidsDrawn st <= k)%nat -> id c <> uuid k) ->
  let st' :=
    handleGenerateCarousel messages uuid generateCarouselContent generateImage
      now topic niche0 preferences0 magicCreate st in
  exists new,
    carouselHistory st' = new :: carouselHistory st /\
    currentCarousel st' = Some new /\
    title new = topic /\
    (1 <= length (slides new))%nat /\
    length (slides new) = length slidesContent /\
    id new = uuid (uuidsDrawn st + length slidesContent) /\
    (uuidsDrawn st + length slidesContent < uuidsDrawn st')%nat /\
    (forall c, c ∈ carouselHistory st -> id c <> id new) /\
    (forall s, s ∈ slides new -> prop "id" s <> JStr (id new)) /\
    id <$> head (carouselHistory st') = Some (id new).
Proof.
  intros Huser Hkey Hgen Husable Hinj Hfresh st'. subst st'.
  unfold handleGenerateCarousel. rewrite Huser, Hkey. simpl. rewrite Hgen.
  set (n0 := uuidsDrawn st).
  set (newCarousel := mkCarousel _ _ _ _ _ _).
  assert (length (initialSlides uuid n0 slidesContent) = length slidesContent) as Hlen.
  { unfold initialSlides. apply length_imap. }
  assert (1 <= length slidesContent)%nat as Hpos.
  { simpl in Husable. destruct slidesContent; [done|simpl; lia]. }
  assert (forall ids : list JsVal,
            ids = map (prop "id") (initialSlides uuid n0 slidesContent) ->
            forall v, v ∈ ids -> v <> JStr (uuid (n0 + length slidesContent))) as Hslides.
  { intros ids -> v Hv. apply list_elem_of_In, in_map_iff in Hv as (s & <- & Hs).
    apply list_elem_of_In, initialSlides_ids in Hs as (i & Hi & ->).
    intros [= Heq]. apply Hinj in Heq. lia. }
  destruct magicCreate.
  - unfold executeImageGenerationForAllSlides.
    set (st0 := setSelectedSlideId _ _).
    pose proof (imageLoop_keeps newCarousel (slides newCarousel) 0 newCarousel st0)
      as (Hid & Htitle & Hids & Hh & Hu & Hcur).
    destruct (imageLoop _ _ _ _ _ _ _) as [finalCarousel st2]. simpl in *.
    exists finalCarousel. rewrite Hh, Hu, Hid, Htitle. simpl.
    assert (length (slides finalCarousel) = length slidesContent) as Hlen'.
    { rewrite <- Hlen. rewrite <- (length_map (prop "id")), Hids. by rewrite length_map. }
    split_and!; try done; try lia.
    + by apply Hcur.
    + intros c Hc. apply Hfresh; [done|lia].
    + intros s Hs. apply (Hslides (map (prop "id") (slides finalCarousel)) Hids).
      apply list_elem_of_In, in_map, list_elem_of_In. done.
  - exists newCarousel. simpl. split_and!; try done; try lia.
    + intros c Hc. apply Hfresh; [done|lia].
    + intros s Hs. apply (Hslides _ eq_refl).
      apply list_elem_of_In, in_map, list_elem_of_In. done.
Qed.

End GenerationFacts.

Lemma digits_inj (a b : Z) : 0 <= a -> 0 <= b -> Js.digits a = Js.digits b -> a = b.
Proof.
  unfold Js.digits. intros Ha Hb Heq.
  assert (forall n, N.to_uint n <> Decimal.Nil) as Hnonnil.
  { intros [|p]; [discriminate|]. simpl. apply DecimalPos.Unsigned.to_uint_nonnil. }
  apply (f_equal NilZero.uint_of_string) in Heq.
  rewrite !NilZero.usu in Heq by apply Hnonnil.
  injection Heq as Heq. apply DecimalN.Unsigned.to_uint_inj in Heq. lia.
Qed.

Lemma Sample_uuid_inj (i j : nat) : Sample.uuid i = Sample.uuid j -> i = j.
Proof.
  unfold Sample.uuid. simpl. intros [= Heq].
  apply digits_inj in Heq; lia.
Qed.

Lemma handleGenerateCarousel_prepends_new_carousel_witness :
  user Sample.dashboard = Some Sample.someone /\
  usableOutput
    (Sample.generateCarouselContent "Coffee Brewing" "Food" ∅ (settings Sample.dashboard)) /\
  exists new,
    carouselHistory
      (handleGenerateCarousel Sample.messages Sample.uuid Sample.generateCarouselContent
         Sample.generateImage "2025-01-06T00:00:00.000Z" "Coffee Brewing" "Food" ∅ true
         Sample.dashboard)
      = [new; Sample.tea] /\
    title new = "Coffee Brewing" /\
    length (slides new) = 2%nat /\
    id new = "uuid-9" /\
    id new <> id Sample.tea.
Proof.
  split; [reflexivity|]. split; [discriminate|].
  destruct (handleGenerateCarousel_prepends_new_carousel Sample.messages Sample.uuid
              Sample.generateCarouselContent Sample.generateImage
              "2025-01-06T00:00:00.000Z" "Coffee Brewing" "Food" ∅ true
              Sample.dashboard Sample.someone
              [ {[ "headline" := JStr "Grind"; "body" := JStr "Medium-fine.";
                   "visual_prompt" := JStr "a hand grinder" ]};
                {[ "headline" := JStr "Pour"; "body" := JStr "In slow circles.";
                   "visual_prompt" := JStr "a gooseneck kettle" ]} ])
    as (new & Hh & _ & Htitle & _ & Hlen & Hid & _ & Hfresh & _).
  - reflexivity.
  - reflexivity.
  - reflexivity.
  - discriminate.
  - apply Sample_uuid_inj.
  - intros c k Hc _. apply list_elem_of_singleton in Hc as ->.
    unfold Sample.uuid. simpl. discriminate.
  - exists new. split; [exact Hh|]. split; [exact Htitle|]. split; [exact Hlen|].
    split; [exact Hid|]. intros Heq. apply (Hfresh Sample.tea); [|by symmetry].
    apply list_elem_of_singleton. reflexivity.
Defined.

(** * Further properties *)

(** ** Opening and deleting from the dashboard *)

Lemma find_findIndex {A : Type} (p : A -> bool) (l : list A) (x : A) :
  List.find p l = Some x ->
  findIndex p l <> -1 /\ l !! Z.to_nat (findIndex p l) = Some x /\ p x = true.
Proof.
  unfold findIndex. induction l as [|y l IH]; simpl; [done|].
  destruct (p y) eqn:E.
  - intros [= <-]. simpl. done.
  - intros Hf. destruct (IH Hf) as (Hne & Hl & Hp).
    rewrite findIndex_from_shift by lia.
    assert ((findIndex_from p 0 l =? -1) = false) as -> by lia.
    destruct (findIndex_from_range p 0 l) as [?|Hr]; [lia|done|].
    split; [lia|].
    replace (Z.to_nat (0 + 1 + findIndex_from p 0 l))
      with (S (Z.to_nat (findIndex_from p 0 l))) by lia.
    done.
Qed.

Lemma find_none_iff {A : Type} (p : A -> bool) (l : list A) :
  List.find p l = None <-> Forall (fun x => p x = false) l.
Proof.
  induction l as [|y l IH]; simpl.
  - split; [constructor|done].
  - destruct (p y) eqn:E.
    + split; [done|]. intros H. inversion H; congruence.
    + rewrite IH. split; [by constructor|]. intros H. by inversion H.
Qed.

(** The position [findIndex] reports is the first one that satisfies. *)
Lemma findIndex_unique {A : Type} (p : A -> bool) (l : list A) (k : nat) (x : A) :
  l !! k = Some x -> p x = true ->
  (forall j y, (j < k)%nat -> l !! j = Some y -> p y = false) ->
  findIndex p l = Z.of_nat k.
Proof.
  intros Hk Hp Hmin.
  assert (findIndex p l <> -1) as Hfound.
  { eapply findIndex_exists; [|done]. by eapply list_elem_of_lookup_2. }
  destruct (findIndex_first p l Hfound) as (y & Hy & Hpy & Hfirst).
  destruct (findIndex_range p l) as [?|Hr]; [done|].
  destruct (Nat.lt_trichotomy (Z.to_nat (findIndex p l)) k) as [Hlt|[Heq|Hgt]].
  - specialize (Hmin _ _ Hlt Hy). congruence.
  - lia.
  - specialize (Hfirst _ _ Hgt Hk). congruence.
Qed.

(** Writing back the very entry that [find] returns changes nothing. *)
Lemma writeBack_found (h : list Carousel) (c : Carousel) :
  List.find (fun x => String.eqb (id x) (id c)) h = Some c -> writeBack c h = h.
Proof.
  intros Hf. apply find_findIndex in Hf as (Hne & Hl & _).
  unfold writeBack. assert ((findIndex _ h =? -1) = false) as -> by lia.
  by apply list_insert_id.
Qed.

Lemma deleted_history_elem (st : AppState) (carouselId : string) (c : Carousel) :
  c ∈ carouselHistory (handleDeleteCarousel true carouselId st) <->
  c ∈ carouselHistory st /\ id c <> carouselId.
Proof.
  simpl. rewrite !list_elem_of_In, filter_In.
  rewrite negb_true_iff, String.eqb_neq. done.
Qed.

(** X1.  Deleting a carousel, once confirmed, removes from the history
    every entry that has the id and nothing else: the other entries stay, in
    their order; the current carousel and the view are not touched.  A
    deletion that is not confirmed changes nothing. *)
Theorem handleDeleteCarousel_removes_the_id (st : AppState) (carouselId : string) :
  let st' := handleDeleteCarousel true carouselId st in
  (forall c, c ∈ carouselHistory st' <-> c ∈ carouselHistory st /\ id c <> carouselId) /\
  carouselHistory st' `sublist_of` carouselHistory st /\
  currentCarousel st' = currentCarousel st /\ view st' = view st /\
  handleDeleteCarousel false carouselId st = st.
Proof.
  simpl. split_and!; try done.
  - intros c. apply deleted_history_elem.
  - induction (carouselHistory st) as [|c h IH]; simpl; [done|].
    destruct (negb _); [by apply sublist_skip|by apply sublist_cons].
Qed.

(** X2.  Opening a carousel for editing: an id that no history entry has is
    ignored; otherwise the first entry with the id becomes the current
    carousel, the generator is shown, the topic is the carousel's title, the
    selected slide is its first slide (none if it has no slide), and the
    history is as it was. *)
Theorem handleEditCarousel_opens_first_entry (st : AppState) (carouselId : string) :
  (Forall (fun c => id c <> carouselId) (carouselHistory st) ->
     handleEditCarousel carouselId st = st) /\
  (forall i c, carouselHistory st !! i = Some c -> id c = carouselId ->
     (forall j c', (j < i)%nat -> carouselHistory st !! j = Some c' -> id c' <> carouselId) ->
     let st' := handleEditCarousel carouselId st in
     currentCarousel st' = Some c /\ view st' = GENERATOR /\
     currentTopic st' = title c /\ selectedSlideId st' = firstSlideId c /\
     carouselHistory st' = carouselHistory st).
Proof.
  unfold handleEditCarousel. split.
  - intros Hall.
    assert (List.find (fun c => String.eqb (id c) carouselId) (carouselHistory st) = None)
      as ->; [|done].
    apply find_none_iff. eapply Forall_impl; [done|]. intros c Hc. by apply String.eqb_neq.
  - intros i c Hi Hid Hfirst.
    destruct (List.find _ (carouselHistory st)) as [c0|] eqn:Hf.
    + apply find_findIndex in Hf as (Hne & Hl & Hp).
      assert (findIndex (fun c => String.eqb (id c) carouselId) (carouselHistory st)
              = Z.of_nat i) as Hidx.
      { apply (findIndex_unique _ _ i c); [done|by apply String.eqb_eq|].
        intros j y Hj Hy. apply String.eqb_neq. by eapply Hfirst. }
      rewrite Hidx, Nat2Z.id, Hi in Hl. injection Hl as <-. done.
    + apply find_none_iff in Hf. rewrite Forall_forall in Hf.
      assert (c ∈ carouselHistory st) as Hin by (by eapply list_elem_of_lookup_2).
      apply Hf in Hin. apply String.eqb_neq in Hin. done.
Qed.

(** X3.  Opening a carousel from the history and going back to the
    dashboard without a change leaves the history as it was (also when the
    id is unknown and nothing was being edited), and ends on the dashboard
    with no current carousel when the id is known. *)
Theorem edit_then_dashboard_keeps_history (st : AppState) (carouselId : string) :
  currentCarousel st = None \/ (exists c, c ∈ carouselHistory st /\ id c = carouselId) ->
  let st' := goToDashboard (handleEditCarousel carouselId st) in
  carouselHistory st' = carouselHistory st /\
  ((exists c, c ∈ carouselHistory st /\ id c = carouselId) ->
     view st' = DASHBOARD /\ currentCarousel st' = None).
Proof.
  intros Hpre. simpl. unfold handleEditCarousel.
  destruct (List.find _ (carouselHistory st)) as [c0|] eqn:Hf.
  - pose proof Hf as Hf'. apply find_findIndex in Hf' as (_ & _ & Hp).
    apply String.eqb_eq in Hp. subst carouselId.
    unfold goToDashboard. simpl. by rewrite writeBack_found.
  - destruct Hpre as [Hnone|(c & Hin & Hid)].
    + split.
      * unfold goToDashboard. rewrite Hnone. by destruct (view st).
      * intros (c & Hin & Hid). apply find_none_iff in Hf.
        rewrite Forall_forall in Hf. apply Hf, String.eqb_neq in Hin. done.
    + apply find_none_iff in Hf. rewrite Forall_forall in Hf.
      apply Hf, String.eqb_neq in Hin. done.
Qed.

Lemma edit_then_dashboard_keeps_history_witness :
  (exists c, c ∈ carouselHistory Sample.dashboard /\ id c = "c-2") /\
  carouselHistory (goToDashboard (handleEditCarousel "c-2" Sample.dashboard))
    = [Sample.tea] /\
  currentCarousel (handleEditCarousel "c-2" Sample.dashboard) = Some Sample.tea.
Proof.
  assert (exists c, c ∈ carouselHistory Sample.dashboard /\ id c = "c-2") as Hex.
  { exists Sample.tea. split; [apply list_elem_of_singleton|]; reflexivity. }
  split; [exact Hex|]. split; [|reflexivity].
  apply (edit_then_dashboard_keeps_history Sample.dashboard "c-2"). right. exact Hex.
Defined.

(** X4.  A deleted carousel stays deleted: opening its id afterwards is
    ignored, and going to the dashboard afterwards, whatever the current
    carousel is, leaves no history entry with the id. *)
Theorem deleted_carousel_stays_deleted (st : AppState) (carouselId : string) :
  let st' := handleDeleteCarousel true carouselId st in
  handleEditCarousel carouselId st' = st' /\
  forall c, c ∈ carouselHistory (goToDashboard st') -> id c <> carouselId.
Proof.
  cbv zeta.
  assert (Forall (fun c => id c <> carouselId)
            (carouselHistory (handleDeleteCarousel true carouselId st))) as Hgone.
  { apply Forall_forall. intros c Hc.
    by apply deleted_history_elem in Hc as [_ ?]. }
  split.
  - unfold handleEditCarousel.
    assert (List.find (fun c => String.eqb (id c) carouselId)
              (carouselHistory (handleDeleteCarousel true carouselId st)) = None) as ->;
      [|done].
    apply find_none_iff. eapply Forall_impl; [exact Hgone|].
    intros c Hc. by apply String.eqb_neq.
  - intros c. unfold goToDashboard.
    set (st' := handleDeleteCarousel true carouselId st) in *.
    assert (forall cur x, x ∈ writeBack cur (carouselHistory st') -> id x <> carouselId)
      as Hwb.
    { intros cur x Hx. rewrite Forall_forall in Hgone.
      destruct (decide (id cur = carouselId)) as [Heq|Hne].
      - rewrite writeBack_absent in Hx; [by apply Hgone|].
        apply Forall_forall. intros y Hy. rewrite Heq. by apply Hgone.
      - apply list_elem_of_lookup in Hx as [i Hi].
        unfold writeBack in Hi. case_match; [apply Hgone; by eapply list_elem_of_lookup_2|].
        destruct (decide (i = Z.to_nat (findIndex
                    (fun c => String.eqb (id c) (id cur)) (carouselHistory st')))) as [->|Hi'].
        + apply list_lookup_insert_Some in Hi as [(_ & <- & _)|(? & _)]; done.
        + rewrite list_lookup_insert_ne in Hi by done.
          apply Hgone. by eapply list_elem_of_lookup_2. }
    rewrite Forall_forall in Hgone.
    destruct (view st'); try (intros Hc; by apply Hgone);
      destruct (currentCarousel st'); simpl; intros Hc;
      try (by eapply Hwb); by apply Hgone.
Qed.

(** ** Reordering, again *)

Lemma swap_comm {A : Type} (i j : nat) (l : list A) :
  (i < length l)%nat -> (j < length l)%nat -> swap i j l = swap j i l.
Proof.
  intros Hi Hj. apply list_eq. intros k.
  destruct (decide (i = j)) as [->|Hij]; [done|].
  destruct (decide (k = i)) as [->|Hki].
  - rewrite swap_lookup_l, swap_lookup_r by done. done.
  - destruct (decide (k = j)) as [->|Hkj].
    + rewrite swap_lookup_r, swap_lookup_l by done. done.
    + by rewrite !swap_lookup_other.
Qed.

Lemma swap_involutive {A : Type} (i j : nat) (l : list A) :
  (i < length l)%nat -> (j < length l)%nat -> swap i j (swap i j l) = l.
Proof.
  intros Hi Hj. apply list_eq. intros k.
  destruct (decide (i = j)) as [->|Hij].
  - assert (swap j j l = l) as Hjj.
    { unfold swap. destruct (lookup_lt_is_Some_2 l j Hj) as [a Ha]. rewrite Ha.
      rewrite (list_insert_id l j a Ha). by apply list_insert_id. }
    by rewrite !Hjj.
  - destruct (decide (k = i)) as [->|Hki].
    + rewrite swap_lookup_l by (rewrite ?length_swap; done).
      by rewrite swap_lookup_r.
    + destruct (decide (k = j)) as [->|Hkj].
      * rewrite swap_lookup_r by (rewrite ?length_swap; done).
        by rewrite swap_lookup_l.
      * by rewrite !swap_lookup_other.
Qed.

(** Exchanging neighbours rearranges the list. *)
Lemma swap_neighbours_Permutation {A : Type} (i : nat) (l : list A) :
  (S i < length l)%nat -> swap i (S i) l ≡ₚ l.
Proof.
  revert l. induction i as [|i IH]; intros l Hi.
  - destruct l as [|a [|b l]]; simpl in Hi; try lia.
    unfold swap. simpl. apply perm_swap.
  - destruct l as [|a l]; simpl in Hi; [lia|].
    specialize (IH l ltac:(lia)).
    assert (swap (S i) (S (S i)) (a :: l) = a :: swap i (S i) l) as ->.
    { unfold swap. simpl. by destruct (l !! S i), (l !! i). }
    by constructor.
Qed.

(** X5.  Reordering never loses, duplicates or alters a slide: after
    [handleMoveSlide], whatever the id and the direction, the slides of the
    current carousel are a rearrangement of the slides before, the rest of
    the carousel is the same, and so is the rest of the state. *)
Theorem handleMoveSlide_rearranges
    (st : AppState) (cur : Carousel) (slideId : string) (direction : Direction) :
  currentCarousel st = Some cur ->
  exists moved,
    handleMoveSlide slideId direction st
      = setCurrentCarousel (Some (with_slides cur moved)) st /\
    moved ≡ₚ slides cur.
Proof.
  intros Hcur. unfold handleMoveSlide. rewrite Hcur.
  assert (st = setCurrentCarousel (Some (with_slides cur (slides cur))) st) as Hsame.
  { destruct st, cur. simpl in *. by rewrite Hcur. }
  destruct (findIndex_range (has_id slideId) (slides cur)) as [Hn|Hr].
  - rewrite Hn. simpl. by exists (slides cur).
  - assert ((findIndex (has_id slideId) (slides cur) =? -1) = false) as -> by lia.
    set (index := findIndex (has_id slideId) (slides cur)) in *.
    case_match; [by exists (slides cur)|].
    eexists. split; [done|].
    destruct direction.
    + replace (Z.to_nat index) with (S (Z.to_nat (index - 1))) by lia.
      rewrite swap_comm by lia. apply swap_neighbours_Permutation. lia.
    + replace (Z.to_nat (index + 1)) with (S (Z.to_nat index)) by lia.
      apply swap_neighbours_Permutation. lia.
Qed.

Lemma handleMoveSlide_rearranges_witness :
  currentCarousel Sample.editing = Some Sample.coffee /\
  exists moved,
    handleMoveSlide "s-3" Left Sample.editing
      = setCurrentCarousel (Some (with_slides Sample.coffee moved)) Sample.editing /\
    moved ≡ₚ slides Sample.coffee.
Proof.
  split; [reflexivity|].
  apply (handleMoveSlide_rearranges Sample.editing Sample.coffee "s-3" Left eq_refl).
Defined.

(** X6.  Moving a slide to the left and then to the right puts the state
    back: when the slide id is found at a position that has a left
    neighbour, the two moves together change nothing. *)
Theorem move_left_then_right_restores
    (st : AppState) (cur : Carousel) (slideId : string) :
  currentCarousel st = Some cur ->
  1 <= findIndex (has_id slideId) (slides cur) ->
  handleMoveSlide slideId Right (handleMoveSlide slideId Left st) = st.
Proof.
  intros Hcur Hidx.
  pose proof (findIndex_range (has_id slideId) (slides cur)) as Hrange.
  assert (findIndex (has_id slideId) (slides cur) <> -1) as Hfound by lia.
  destruct (findIndex_first (has_id slideId) (slides cur) Hfound) as (s & Hs & Hp & Hfirst).
  remember (findIndex (has_id slideId) (slides cur)) as index eqn:Hindex.
  destruct Hrange as [Hn|Hr]; [lia|].
  set (i := Z.to_nat index) in *. set (j := Z.to_nat (index - 1)).
  assert (i = S j) as Hij by lia.
  assert (handleMoveSlide slideId Left st
          = setCurrentCarousel (Some (with_slides cur (swap i j (slides cur)))) st) as ->.
  { unfold handleMoveSlide. rewrite Hcur, <- Hindex.
    assert ((index =? -1) = false) as -> by lia.
    assert (((index - 1 <? 0) || (index - 1 >=? Z.of_nat (length (slides cur)))) = false)
      as -> by lia.
    done. }
  assert (findIndex (has_id slideId) (swap i j (slides cur)) = Z.of_nat j) as Hnew.
  { apply (findIndex_unique _ _ j s); [|done|].
    - rewrite swap_lookup_r by lia. done.
    - intros k y Hk Hy. rewrite swap_lookup_other in Hy by lia.
      apply (Hfirst k); [lia|done]. }
  unfold handleMoveSlide. simpl. rewrite Hnew.
  assert ((Z.of_nat j =? -1) = false) as -> by lia.
  rewrite length_swap.
  assert (((Z.of_nat j + 1 <? 0) || (Z.of_nat j + 1 >=? Z.of_nat (length (slides cur))))
          = false) as -> by lia.
  replace (Z.to_nat (Z.of_nat j + 1)) with i by lia. rewrite Nat2Z.id.
  rewrite (swap_comm j i) by (rewrite length_swap; lia).
  rewrite swap_involutive by lia.
  destruct st, cur. simpl in *. by rewrite Hcur.
Qed.

Lemma move_left_then_right_restores_witness :
  currentCarousel Sample.editing = Some Sample.coffee /\
  1 <= findIndex (has_id "s-2") (slides Sample.coffee) /\
  handleMoveSlide "s-2" Right (handleMoveSlide "s-2" Left Sample.editing) = Sample.editing.
Proof.
  split; [reflexivity|]. split; [run_findIndex; lia|].
  apply (move_left_then_right_restores Sample.editing Sample.coffee "s-2" eq_refl).
  run_findIndex. lia.
Defined.

(** ** Overrides and updates *)

(** X7.  Clearing an override: afterwards no slide of the current carousel
    has the property, every other field of every slide is as it was, the
    number of slides and the rest of the state are kept; clearing the same
    property again changes nothing more. *)
Theorem handleClearSlideOverrides_clears
    (st : AppState) (cur : Carousel) (property : string) :
  currentCarousel st = Some cur ->
  let st' := handleClearSlideOverrides property st in
  exists cur',
    currentCarousel st' = Some cur' /\
    st' = setCurrentCarousel (Some cur') st /\
    length (slides cur') = length (slides cur) /\
    (forall s, s ∈ slides cur' -> s !! property = None) /\
    (forall i s k, slides cur !! i = Some s -> k <> property ->
       exists s', slides cur' !! i = Some s' /\ s' !! k = s !! k) /\
    id cur' = id cur /\ preferences cur' = preferences cur /\
    handleClearSlideOverrides property st' = st'.
Proof.
  intros Hcur st'.
  set (cleared := with_slides cur (map (fun slide => delete property slide) (slides cur))).
  assert (st' = setCurrentCarousel (Some cleared) st) as Hst'.
  { subst st'. unfold handleClearSlideOverrides. by rewrite Hcur. }
  exists cleared. rewrite Hst'. simpl. split_and!; try done.
  - by rewrite length_map.
  - intros s Hs. apply list_elem_of_In, in_map_iff in Hs as (s0 & <- & _).
    apply lookup_delete_eq.
  - intros i s k Hi Hk. exists (delete property s). split.
    + by rewrite list_lookup_fmap, Hi.
    + by apply lookup_delete_ne.
  - unfold handleClearSlideOverrides, setCurrentCarousel. simpl. f_equal. f_equal.
    unfold cleared, with_slides. simpl. f_equal.
    rewrite map_map. apply map_ext. intros s. apply delete_delete_eq.
Qed.

Lemma handleClearSlideOverrides_clears_witness :
  currentCarousel Sample.editingStyled = Some Sample.styled /\
  exists cur',
    currentCarousel (handleClearSlideOverrides "fontColor" Sample.editingStyled)
      = Some cur' /\
    slides cur' = [Sample.slide "s-4" "Heart"] /\
    forall s, s ∈ slides cur' -> s !! "fontColor" = None.
Proof.
  split; [reflexivity|].
  destruct (handleClearSlideOverrides_clears Sample.editingStyled Sample.styled "fontColor"
              eq_refl) as (cur' & Hc & _ & _ & Hnone & _).
  exists cur'. split; [exact Hc|]. split; [|exact Hnone].
  injection Hc as <-. reflexivity.
Defined.

Lemma writeBack_twice (c1 c2 : Carousel) (h : list Carousel) :
  id c1 = id c2 -> writeBack c2 (writeBack c1 h) = writeBack c2 h.
Proof.
  intros Hid. unfold writeBack. rewrite Hid.
  set (p := fun c => String.eqb (id c) (id c2)).
  destruct (findIndex_range p h) as [Hn|Hr].
  - rewrite Hn. simpl. by rewrite Hn.
  - assert ((findIndex p h =? -1) = false) as -> by lia.
    destruct (findIndex_first p h) as (x & Hx & Hpx & Hfirst); [lia|].
    assert (findIndex p (<[Z.to_nat (findIndex p h) := c1]> h)
            = Z.of_nat (Z.to_nat (findIndex p h))) as ->.
    { apply (findIndex_unique _ _ _ c1).
      - apply list_lookup_insert_eq. by eapply lookup_lt_Some.
      - unfold p. rewrite Hid. apply String.eqb_refl.
      - intros j y Hj Hy.
        rewrite list_lookup_insert_ne in Hy
          by (intros E; rewrite E in Hj; by apply Nat.lt_irrefl in Hj).
        by eapply Hfirst. }
    assert ((Z.of_nat (Z.to_nat (findIndex p h)) =? -1) = false) as ->
      by (apply Z.eqb_neq; lia).
    rewrite Nat2Z.id. apply list_insert_insert_eq.
Qed.

(** X8.  Two updates of the same slide in a row are one update with the
    fields of the later laid over those of the earlier, for the current
    carousel and for the history alike, as long as the earlier update does
    not set the slide's [id]. *)
Theorem handleUpdateSlide_twice
    (st : AppState) (slideId : string) (first second : gmap string JsVal) :
  first !! "id" = None ->
  handleUpdateSlide slideId second (handleUpdateSlide slideId first st)
    = handleUpdateSlide slideId (second ∪ first) st.
Proof.
  intros Hid. unfold handleUpdateSlide.
  destruct (currentCarousel st) as [prev|] eqn:Hcur; simpl; [|by rewrite Hcur].
  rewrite writeBack_twice by done.
  assert (map (fun s => if has_id slideId s then spread s second else s)
            (map (fun s => if has_id slideId s then spread s first else s) (slides prev))
          = map (fun s => if has_id slideId s then spread s (second ∪ first) else s)
              (slides prev)) as Hslides.
  { rewrite map_map. apply map_ext. intros s.
    destruct (has_id slideId s) eqn:E; [|by rewrite E].
    assert (has_id slideId (spread s first) = true) as ->.
    { unfold has_id, prop, spread in *. by rewrite lookup_union_r. }
    unfold spread. by rewrite (assoc_L (∪)). }
  unfold with_slides at 1 2. simpl. rewrite Hslides. done.
Qed.

Lemma handleUpdateSlide_twice_witness :
  ({[ "backgroundImage" := JStr "data:image/png;base64,AAAA" ]} : gmap string JsVal)
    !! "id" = None /\
  handleRemoveVisualForSlide "s-2"
    (handleUpdateSlide "s-2" {[ "backgroundImage" := JStr "data:image/png;base64,AAAA" ]}
       Sample.editing)
  = handleUpdateSlide "s-2"
      ({[ "backgroundImage" := JUndefined ]}
         ∪ {[ "backgroundImage" := JStr "data:image/png;base64,AAAA" ]})
      Sample.editing.
Proof.
  split; [reflexivity|].
  apply (handleUpdateSlide_twice Sample.editing "s-2"). reflexivity.
Defined.

(** X9.  Two preference updates in a row are one update with the fields of
    the later laid over those of the earlier, whether a carousel is being
    edited or the first update had to make the placeholder (which keeps the
    id, the time and the topic of the first call), provided in that case
    that no history entry carries the id the placeholder gets. *)
Theorem handleUpdateCarouselPreferences_twice
    (uuid : nat -> string) (defaultBrandKit : gmap string JsVal)
    (st : AppState) (now1 now2 topic1 topic2 : string)
    (first second : gmap string JsVal) :
  (currentCarousel st = None ->
   Forall (fun c => id c <> "temp-" +:+ uuid (uuidsDrawn st)) (carouselHistory st)) ->
  handleUpdateCarouselPreferences uuid defaultBrandKit now2 second topic2
    (handleUpdateCarouselPreferences uuid defaultBrandKit now1 first topic1 st)
  = handleUpdateCarouselPreferences uuid defaultBrandKit now1 (second ∪ first) topic1 st.
Proof.
  intros Hfree. unfold handleUpdateCarouselPreferences.
  destruct (currentCarousel st) as [prev|] eqn:Hcur; simpl.
  - rewrite writeBack_twice by done.
    unfold with_preferences, spread. simpl. by rewrite (assoc_L (∪)).
  - rewrite writeBack_absent by (by apply Hfree).
    unfold with_preferences, spread. simpl. by rewrite !(assoc_L (∪)).
Qed.

Lemma handleUpdateCarouselPreferences_twice_witness :
  currentCarousel (startNewCarousel Sample.dashboard) = None /\
  Forall (fun c => id c <> "temp-" +:+ Sample.uuid (uuidsDrawn (startNewCarousel Sample.dashboard)))
    (carouselHistory (startNewCarousel Sample.dashboard)) /\
  handleUpdateCarouselPreferences Sample.uuid ∅ "2025-01-04T00:00:05.000Z"
    {[ "fontColor" := JStr "#FFFFFF" ]} "Matcha latte" Sample.drafting
  = handleUpdateCarouselPreferences Sample.uuid ∅ "2025-01-04T00:00:00.000Z"
      ({[ "fontColor" := JStr "#FFFFFF" ]} ∪ {[ "font" := JStr "Lora" ]}) "Matcha"
      (startNewCarousel Sample.dashboard).
Proof.
  assert (Forall (fun c => id c <> "temp-" +:+ Sample.uuid (uuidsDrawn (startNewCarousel Sample.dashboard)))
            (carouselHistory (startNewCarousel Sample.dashboard))) as Hfree.
  { repeat constructor. intros H. vm_compute in H. discriminate H. }
  split; [reflexivity|]. split; [exact Hfree|].
  apply (handleUpdateCarouselPreferences_twice Sample.uuid ∅ (startNewCarousel Sample.dashboard)
           "2025-01-04T00:00:00.000Z" "2025-01-04T00:00:05.000Z" "Matcha" "Matcha latte"
           {[ "font" := JStr "Lora" ]} {[ "fontColor" := JStr "#FFFFFF" ]} (fun _ => Hfree)).
Defined.

(** X10.  A preferences change with no carousel yet makes the placeholder:
    its id is [temp-] and a fresh id, it has no slide and the topic as
    title; the history is not touched.  In its preferences a field of the
    update wins, else a field of the fixed defaults, else the brand kit's:
    so a [backgroundImage] of the brand kit is hidden by the [undefined]
    of the defaults unless the update gives one. *)
Theorem handleUpdateCarouselPreferences_placeholder
    (uuid : nat -> string) (defaultBrandKit : gmap string JsVal) (now : string)
    (st : AppState) (updates : gmap string JsVal) (topicValue : string) :
  currentCarousel st = None ->
  let st' :=
    handleUpdateCarouselPreferences uuid defaultBrandKit now updates topicValue st in
  exists p,
    currentCarousel st' = Some p /\
    id p = "temp-" +:+ uuid (uuidsDrawn st) /\ slides p = [] /\ title p = topicValue /\
    carouselHistory st' = carouselHistory st /\
    uuidsDrawn st' = S (uuidsDrawn st) /\
    (forall k v, updates !! k = Some v -> preferences p !! k = Some v) /\
    (forall k v, updates !! k = None -> placeholderPreferences !! k = Some v ->
       preferences p !! k = Some v) /\
    (forall k, updates !! k = None -> placeholderPreferences !! k = None ->
       preferences p !! k = defaultBrandKit !! k) /\
    (updates !! "backgroundImage" = None ->
       preferences p !! "backgroundImage" = Some JUndefined).
Proof.
  intros Hcur. simpl. unfold handleUpdateCarouselPreferences. rewrite Hcur.
  eexists. split; [done|]. simpl. unfold spread.
  assert (forall k v, updates !! k = None -> placeholderPreferences !! k = Some v ->
            (updates ∪ (placeholderPreferences ∪ defaultBrandKit)) !! k = Some v) as Hfixed.
  { intros k v Hu Hp. rewrite lookup_union_r by done. by apply lookup_union_Some_l. }
  split_and!; try done.
  - intros k v Hk. by apply lookup_union_Some_l.
  - intros k Hu Hp. rewrite lookup_union_r by done. by rewrite lookup_union_r.
  - intros Hu. by apply Hfixed.
Qed.

Lemma handleUpdateCarouselPreferences_placeholder_witness :
  currentCarousel (startNewCarousel Sample.dashboard) = None /\
  exists p,
    currentCarousel Sample.drafting = Some p /\
    id p = "temp-uuid-7" /\ slides p = [] /\
    carouselHistory Sample.drafting = [Sample.tea] /\
    preferences p !! "font" = Some (JStr "Lora") /\
    preferences p !! "backgroundImage" = Some JUndefined.
Proof.
  split; [reflexivity|].
  destruct (handleUpdateCarouselPreferences_placeholder Sample.uuid ∅
              "2025-01-04T00:00:00.000Z" (startNewCarousel Sample.dashboard)
              {[ "font" := JStr "Lora" ]} "Matcha" eq_refl)
    as (p & Hp & Hid & Hslides & _ & Hh & _ & Hupd & _ & _ & Hbg).
  exists p. split; [exact Hp|]. split; [exact Hid|]. split; [exact Hslides|].
  split; [exact Hh|]. split; [apply Hupd; reflexivity|apply Hbg; reflexivity].
Defined.

(** ** Persistence, again *)

Section SaveHistoryFrame.

Variable messages : gmap string string.
Variable HISTORY_STORAGE_KEY : string.
Variable stringify : list Carousel -> string.
Variable storageFailure : gmap string string -> string -> string -> option JsError.

Local Abbreviation save' :=
  (saveHistoryWithAutoTrim messages HISTORY_STORAGE_KEY stringify storageFailure).

(** X11.  Saving works on the stored copy only: whatever the history and
    the store, it leaves every other key of the store as it was, and of the
    component state it changes at most the error shown, which afterwards is
    the one before or the size error; in particular the history in memory is
    never trimmed. *)
Theorem save_touches_only_its_key (h : list Carousel) (w : World) :
  (forall k, k <> HISTORY_STORAGE_KEY ->
     localStorage (save' h w) !! k = localStorage w !! k) /\
  (state (save' h w) = state w \/
   state (save' h w)
     = setError (Some (t messages "errorHistoryTooLarge" [])) (state w)) /\
  carouselHistory (state (save' h w)) = carouselHistory (state w) /\
  currentCarousel (state (save' h w)) = currentCarousel (state w).
Proof.
  assert ((forall k, k <> HISTORY_STORAGE_KEY ->
             localStorage (save' h w) !! k = localStorage w !! k) /\
          (state (save' h w) = state w \/
           state (save' h w)
             = setError (Some (t messages "errorHistoryTooLarge" [])) (state w))) as [H1 H2].
  { remember (length h) as n eqn:Hn. revert h w Hn.
    induction n as [|n IH]; intros h w Hn.
    - destruct h; [|discriminate]. rewrite save_nil.
      destruct (storageFailure _ _ _); simpl; (split; [|by left]); [done|].
      intros k Hk. by rewrite lookup_insert_ne.
    - assert (h <> []) as Hne by (intros ->; discriminate).
      rewrite save_cons by done.
      destruct (attempt _ _ _ _ _) as [e|].
      + destruct (isQuotaError e); [|simpl; split; [done|by left]].
        destruct (1 <? length h)%nat eqn:E; [|simpl; split; [done|by right]].
        pose proof (length_slice_0_m1 h Hne) as Hlen.
        match goal with |- context [save' _ ?w1] =>
          destruct (IH (slice_0_m1 h) w1 ltac:(lia)) as [IH1 IH2] end.
        split; [exact IH1|exact IH2].
      + simpl. split; [|by left]. intros k Hk. by rewrite lookup_insert_ne. }
  split_and!; [done|done|..]; by destruct H2 as [-> | ->].
Qed.

(** X12.  When the store rejects the write of a history with at least one
    entry for another reason than quota, the routine gives up at once: that
    one write attempt, no retry, the store and the component state as they
    were (so nothing is shown to the user), one line on the console. *)
Theorem save_gives_up_on_other_errors (h : list Carousel) (w : World) (e : JsError) :
  h <> [] ->
  attempt HISTORY_STORAGE_KEY stringify storageFailure w h = Some e ->
  isQuotaError e = false ->
  setItemCalls (save' h w)
    = (setItemCalls w ++ [(HISTORY_STORAGE_KEY, stringify (sanitizeHistory h))])%list /\
  localStorage (save' h w) = localStorage w /\
  state (save' h w) = state w /\
  console (save' h w)
    = (console w
       ++ [console_error "Could not save carousel history due to an unknown error:"])%list.
Proof.
  intros Hne Hans Hq. rewrite save_cons by done. rewrite Hans, Hq. done.
Qed.

End SaveHistoryFrame.

Lemma save_gives_up_on_other_errors_witness :
  let denied : gmap string string -> string -> string -> option JsError :=
    fun _ _ _ => Some (mkJsError (Some "SecurityError") (Some 18)
                         (Some "The operation is insecure.")) in
  let w := saveHistoryWithAutoTrim Sample.messages "carouselHistory" Sample.stringify denied
             [Sample.coffee; Sample.tea] (Sample.browser Sample.editing) in
  isQuotaError (mkJsError (Some "SecurityError") (Some 18)
                  (Some "The operation is insecure.")) = false /\
  setItemCalls w = [("carouselHistory", "[c-1:-(-,-,-),c-2:-(-)]")] /\
  error (state w) = None.
Proof.
  split; [reflexivity|].
  destruct (save_gives_up_on_other_errors Sample.messages "carouselHistory" Sample.stringify
              (fun _ _ _ => Some (mkJsError (Some "SecurityError") (Some 18)
                                    (Some "The operation is insecure.")))
              [Sample.coffee; Sample.tea] (Sample.browser Sample.editing)
              (mkJsError (Some "SecurityError") (Some 18) (Some "The operation is insecure.")))
    as (Hcalls & _ & Hstate & _); [discriminate|reflexivity|reflexivity|].
  split; [exact Hcalls|]. rewrite Hstate. reflexivity.
Defined.

(** X13.  Sanitizing keeps everything but inline video: the history keeps
    its length and every carousel its id, title, date, category, preferences
    and number of slides; every slide keeps all its fields except possibly
    [backgroundImage], and keeps that one too unless it is inline video (an
    inline image stays); sanitizing twice is sanitizing once. *)
Theorem sanitizeHistory_keeps_the_rest (h : list Carousel) :
  length (sanitizeHistory h) = length h /\
  sanitizeHistory (sanitizeHistory h) = sanitizeHistory h /\
  forall i c, h !! i = Some c ->
    exists c', sanitizeHistory h !! i = Some c' /\
      id c' = id c /\ title c' = title c /\ createdAt c' = createdAt c /\
      category c' = category c /\ preferences c' = preferences c /\
      length (slides c') = length (slides c) /\
      forall j s, slides c !! j = Some s ->
        exists s', slides c' !! j = Some s' /\
          (forall k, k <> "backgroundImage" -> s' !! k = s !! k) /\
          (isInlineVideo (prop "backgroundImage" s) = false -> s' = s) /\
          (isInlineImage (prop "backgroundImage" s) = true -> s' = s).
Proof.
  unfold sanitizeHistory. split_and!.
  - by rewrite length_map.
  - rewrite map_map. apply map_ext. intros c. unfold with_slides. simpl. f_equal.
    rewrite map_map. apply map_ext. intros s. unfold sanitizeSlide at 1.
    by rewrite sanitizeSlide_no_video.
  - intros i c Hi. eexists. split; [by rewrite list_lookup_fmap, Hi|]. simpl.
    split_and!; try done; [by rewrite length_map|].
    intros j s Hj. exists (sanitizeSlide s). split; [by rewrite list_lookup_fmap, Hj|].
    split_and!.
    + intros k Hk. by apply sanitizeSlide_other_fields.
    + intros Hv. unfold sanitizeSlide. by rewrite Hv.
    + intros Himg. unfold sanitizeSlide.
      assert (isInlineVideo (prop "backgroundImage" s) = false) as ->; [|done].
      unfold isInlineImage, isInlineVideo in *.
      destruct (prop "backgroundImage" s) as [| | | |u| |]; try done.
      apply andb_true_iff in Himg as [-> Hp]. simpl.
      unfold JsString.startsWith in *.
      do 10 (destruct u as [|? u]; [done|]; simpl in Hp;
             match type of Hp with
             | (if ?d then _ else _) = true => destruct d as [<-|]; [|done]
             end).
      simpl. done.
Qed.

(** ** The classifier on structured errors *)

Section StructuredErrors.

Variable messages : gmap string string.

Lemma parseAndDisplayError_structured (msg r : string) :
  structuredError messages msg = Some r -> braceDelimited msg = true ->
  parseAndDisplayError messages (Error_of msg) = r.
Proof.
  intros Hs Hb. unfold parseAndDisplayError, Error_of. cbn [err_message].
  assert (String.eqb msg "" = false) as ->.
  { destruct msg; [done|]. reflexivity. }
  by rewrite Hs.
Qed.

(** X14.  A structured error that is a quota error (code 429, or status
    RESOURCE_EXHAUSTED whatever the code) and whose details hold a Help
    entry with a first link gives the quota message with the address of that
    link in place of the default one; this holds whatever else the error
    says, also when its message speaks of an invalid key. *)
Theorem parseAndDisplayError_quota_help_link
    (msg u : string) (o e hd lnk : gmap string JsVal) (ds more : list JsVal) :
  braceDelimited msg = true ->
  Json.parse msg = Some (JObj o) ->
  o !! "error" = Some (JObj e) ->
  Js.is_int 429 (Js.get "code" (JObj e))
  || Js.is_str "RESOURCE_EXHAUSTED" (Js.get "status" (JObj e)) = true ->
  e !! "details" = Some (JArr ds) ->
  find_help ds = Some (JObj hd) ->
  hd !! "links" = Some (JArr (JObj lnk :: more)) ->
  lnk !! "url" = Some (JStr u) -> u <> "" ->
  parseAndDisplayError messages (Error_of msg)
    = t messages "errorQuotaExceeded" [("link", JStr u)].
Proof.
  intros Hb Hparse Herr Hquota Hdet Hfind Hlinks Hurl Hu.
  apply parseAndDisplayError_structured; [|done].
  unfold structuredError. unfold braceDelimited in Hb. rewrite Hb, Hparse.
  assert (Js.get "error" (JObj o) = JObj e) as Hget by (unfold Js.get; by rewrite Herr).
  cbv zeta. rewrite !Hget. cbn [Js.truthy].
  rewrite Hquota.
  assert (Js.get "details" (JObj e) = JArr ds) as -> by (unfold Js.get; by rewrite Hdet).
  cbn [helpLinkDetails]. rewrite Hfind.
  assert (helpLink (JObj hd) = JStr u) as ->.
  { unfold helpLink, Js.get. cbn [Js.nullish]. rewrite Hlinks. simpl. by rewrite Hurl. }
  assert (Js.truthy (JStr u) = true) as ->; [|done].
  simpl. apply negb_true_iff. by apply String.eqb_neq.
Qed.

(** X15.  A structured error that is not a quota error and carries a text
    message, its code being no number or a number of at most fifteen
    significant digits: with code 400 and a message that speaks (in any
    letter case) of an invalid key or a denied permission it gives the
    invalid-credential message; in every other case it gives the message
    of the error itself, also when that message speaks of an invalid key
    under another code. *)
Theorem parseAndDisplayError_structured_message
    (msg m : string) (o e : gmap string JsVal) :
  braceDelimited msg = true ->
  Json.parse msg = Some (JObj o) ->
  o !! "error" = Some (JObj e) ->
  exactNumber (Js.get "code" (JObj e)) = true ->
  Js.is_int 429 (Js.get "code" (JObj e))
  || Js.is_str "RESOURCE_EXHAUSTED" (Js.get "status" (JObj e)) = false ->
  e !! "message" = Some (JStr m) -> m <> "" ->
  parseAndDisplayError messages (Error_of msg)
    = if Js.is_int 400 (Js.get "code" (JObj e))
         && names_invalid_key (JsString.toLowerCase m)
      then t messages "errorInvalidApiKey" []
      else m.
Proof.
  intros Hb Hparse Herr _ Hquota Hmsg Hm.
  apply parseAndDisplayError_structured; [|done].
  unfold structuredError. unfold braceDelimited in Hb. rewrite Hb, Hparse.
  assert (Js.get "error" (JObj o) = JObj e) as Hget by (unfold Js.get; by rewrite Herr).
  cbv zeta. rewrite !Hget. cbn [Js.truthy].
  rewrite Hquota.
  assert (Js.get "message" (JObj e) = JStr m) as -> by (unfold Js.get; by rewrite Hmsg).
  cbn [lowerMessage]. case_match; [done|].
  assert (String.eqb m "" = false) as -> by (by apply String.eqb_neq). done.
Qed.

End StructuredErrors.

Lemma parseAndDisplayError_quota_help_link_witness :
  let msg :=
    Sample.dq "{'error':{'code':403,'status':'RESOURCE_EXHAUSTED','message':'API key not valid','details':[{'@type':'type.googleapis.com/google.rpc.ErrorInfo'},{'@type':'type.googleapis.com/google.rpc.Help','links':[{'description':'limits','url':'https://example.org/limits'}]}]}}" in
  braceDelimited msg = true /\
  parseAndDisplayError Sample.messages (Error_of msg)
    = "Quota exceeded. See https://example.org/limits for the limits.".
Proof.
  split; [reflexivity|].
  eapply (parseAndDisplayError_quota_help_link Sample.messages _ "https://example.org/limits").
  - reflexivity.
  - vm_compute. reflexivity.
  - reflexivity.
  - reflexivity.
  - reflexivity.
  - reflexivity.
  - reflexivity.
  - reflexivity.
  - discriminate.
Defined.

Lemma parseAndDisplayError_structured_message_witness :
  let denied := Sample.dq "{'error':{'code':403,'message':'Permission denied on resource'}}" in
  let invalid := Sample.dq "{'error':{'code':400,'message':'API Key not valid. Please pass a valid API key.'}}" in
  braceDelimited denied = true /\ braceDelimited invalid = true /\
  parseAndDisplayError Sample.messages (Error_of denied) = "Permission denied on resource" /\
  parseAndDisplayError Sample.messages (Error_of invalid) = "The API key is not valid.".
Proof.
  split; [reflexivity|]. split; [reflexivity|]. split.
  - etrans;
      [apply (parseAndDisplayError_structured_message Sample.messages _
                "Permission denied on resource"
                {[ "error" := JObj {[ "code" := JNum 403 0;
                                      "message" := JStr "Permission denied on resource" ]} ]}
                {[ "code" := JNum 403 0;
                   "message" := JStr "Permission denied on resource" ]})
      |reflexivity].
    + reflexivity.
    + vm_compute. reflexivity.
    + reflexivity.
    + reflexivity.
    + reflexivity.
    + reflexivity.
    + discriminate.
  - etrans;
      [apply (parseAndDisplayError_structured_message Sample.messages _
                "API Key not valid. Please pass a valid API key."
                {[ "error" :=
                     JObj {[ "code" := JNum 4 2;
                             "message" :=
                               JStr "API Key not valid. Please pass a valid API key." ]} ]}
                {[ "code" := JNum 4 2;
                   "message" := JStr "API Key not valid. Please pass a valid API key." ]})
      |reflexivity].
    + reflexivity.
    + vm_compute. reflexivity.
    + reflexivity.
    + reflexivity.
    + reflexivity.
    + reflexivity.
    + discriminate.
Defined.

(** ** Generation that fails, in whole or in part *)

Section GenerationFailures.

Variable messages : gmap string string.
Variable uuid : nat -> string.
Variable generateCarouselContent :
  string -> string -> DesignPreferences -> AppSettings -> Completion (list SlideData).
Variable generateImage : nat -> JsVal -> JsVal -> Completion string.

(** X16.  When the content call fails, for a signed-in user with a
    configured key: the history is untouched and no id is used up; the
    classified error is shown; the busy flags and the progress message are
    reset; the topic is recorded; and no carousel is current any more,
    whatever was being edited before. *)
Theorem handleGenerateCarousel_rejected
    (now topic niche0 : string) (preferences0 : DesignPreferences) (magicCreate : bool)
    (st : AppState) (u : UserProfile) (err : JsError) :
  user st = Some u ->
  falsy_string (apiKey (settings st)) = false ->
  generateCarouselContent topic (nicheToUse niche0 u) preferences0 (settings st)
    = Rejected err ->
  let st' :=
    handleGenerateCarousel messages uuid generateCarouselContent generateImage
      now topic niche0 preferences0 magicCreate st in
  carouselHistory st' = carouselHistory st /\
  uuidsDrawn st' = uuidsDrawn st /\
  error st' = Some (parseAndDisplayError messages err) /\
  currentCarousel st' = None /\
  isGenerating st' = false /\ isGeneratingImageForSlide st' = None /\
  generationMessage st' = "" /\ currentTopic st' = topic /\
  view st' = view st /\ user st' = user st.
Proof.
  intros Huser Hkey Hgen. simpl. unfold handleGenerateCarousel.
  rewrite Huser, Hkey. simpl. rewrite Hgen. done.
Qed.

Lemma imageLoop_slides (carousel : Carousel) :
  distinctIds (slides carousel) ->
  forall (todo : list SlideData) (i : nat) (updatedCarousel : Carousel) (st : AppState),
    drop i (slides carousel) = todo ->
    map (prop "id") (slides updatedCarousel) = map (prop "id") (slides carousel) ->
    forall j,
      slides (imageLoop messages generateImage carousel i todo updatedCarousel st).1 !! j
      = (fun s => if decide (i <= j)%nat then imaged generateImage carousel j s else s)
          <$> slides updatedCarousel !! j.
Proof.
  intros [Htext Hdistinct].
  induction todo as [|slide rest IH]; intros i updatedCarousel st Hdrop Hids j.
  - simpl. case_decide; [|by destruct (slides updatedCarousel !! j)].
    assert (slides carousel !! j = None) as Hnone.
    { apply lookup_ge_None. apply (f_equal length) in Hdrop.
      rewrite length_drop in Hdrop. simpl in Hdrop. lia. }
    unfold imaged. rewrite Hnone. by destruct (slides updatedCarousel !! j).
  - assert (slides carousel !! i = Some slide) as Hi.
    { rewrite <- (Nat.add_0_r i) at 1. by rewrite <- lookup_drop, Hdrop. }
    assert (drop (S i) (slides carousel) = rest) as Hdrop'.
    { replace (S i) with (i + 1)%nat by lia. by rewrite <- drop_drop, Hdrop. }
    simpl. destruct (generateImage i _ _) as [imageUrl|e] eqn:Hgen.
    + rewrite IH; [|done|].
      * simpl. rewrite list_lookup_fmap.
        destruct (slides updatedCarousel !! j) as [s|] eqn:Hj; simpl; [|done].
        f_equal.
        assert (map (prop "id") (slides updatedCarousel) !! j = Some (prop "id" s)) as Hidj.
        { change (map (prop "id") (slides updatedCarousel))
            with (prop "id" <$> slides updatedCarousel).
          by rewrite list_lookup_fmap, Hj. }
        rewrite Hids in Hidj.
        change (map (prop "id") (slides carousel)) with (prop "id" <$> slides carousel)
          in Hidj.
        rewrite list_lookup_fmap in Hidj.
        destruct (slides carousel !! j) as [s0|] eqn:Hj0; simpl in Hidj; [|done].
        injection Hidj as Hidj.
        destruct (Htext slide) as [x Hx]; [by eapply list_elem_of_lookup_2|].
        destruct (decide (j = i)) as [->|Hne].
        -- rewrite Hi in Hj0. injection Hj0 as <-.
           rewrite <- Hidj, Hx. simpl. rewrite String.eqb_refl.
           repeat case_decide; try lia.
           unfold imaged. by rewrite Hi, Hgen.
        -- assert (strict_eq (prop "id" s) (prop "id" slide) = false) as ->.
           { rewrite <- Hidj.
             destruct (Htext s0) as [y Hy]; [by eapply list_elem_of_lookup_2|].
             rewrite Hx, Hy. simpl. apply String.eqb_neq. intros ->.
             apply Hne. apply (Hdistinct j i s0 slide); [done|done|congruence]. }
           repeat case_decide; try lia; done.
      * simpl. rewrite <- Hids. rewrite !map_map. apply map_ext.
        intros s. case_match; [|done]. unfold prop. by rewrite lookup_insert_ne.
    + rewrite IH by done.
      destruct (slides updatedCarousel !! j) as [s|] eqn:Hj; simpl; [|done].
      f_equal. destruct (decide (j = i)) as [->|Hne].
      * repeat case_decide; try lia. unfold imaged. by rewrite Hi, Hgen.
      * repeat case_decide; try lia; done.
Qed.

(** X17.  Generating the images of all slides, for slides with pairwise
    different text ids: the carousel keeps its slides in number and order,
    and the slide at each position is the slide that was there, with its
    [backgroundImage] set to the generated image when the call for that
    position succeeded and left as it was when that call failed; no other
    field of any slide changes. *)
Theorem executeImageGenerationForAllSlides_partial_success
    (carousel : Carousel) (st : AppState) :
  distinctIds (slides carousel) ->
  let final := (executeImageGenerationForAllSlides messages generateImage carousel st).1 in
  length (slides final) = length (slides carousel) /\
  (forall j s, slides carousel !! j = Some s ->
     slides final !! j = Some (imaged generateImage carousel j s)) /\
  (forall j s k, slides carousel !! j = Some s -> k <> "backgroundImage" ->
     exists s', slides final !! j = Some s' /\ s' !! k = s !! k).
Proof.
  intros Hdistinct final.
  assert (forall j, slides final !! j = imaged generateImage carousel j <$> slides carousel !! j) as Hall.
  { intros j. subst final. unfold executeImageGenerationForAllSlides.
    rewrite (imageLoop_slides carousel Hdistinct (slides carousel) 0 carousel st) by done.
    by destruct (slides carousel !! j). }
  split_and!.
  - apply Nat.le_antisymm.
    + apply Nat.nlt_ge. intros Hlt.
      destruct (lookup_lt_is_Some_2 (slides final) (length (slides carousel)))
        as [x Hx]; [lia|].
      rewrite Hall, lookup_ge_None_2 in Hx by lia. done.
    + apply Nat.nlt_ge. intros Hlt.
      destruct (lookup_lt_is_Some_2 (slides carousel) (length (slides final)))
        as [x Hx]; [lia|].
      pose proof (Hall (length (slides final))) as Hl.
      rewrite Hx, lookup_ge_None_2 in Hl by lia. done.
  - intros j s Hj. by rewrite Hall, Hj.
  - intros j s k Hj Hk. exists (imaged generateImage carousel j s). split; [by rewrite Hall, Hj|].
    unfold imaged. rewrite Hj. case_match; [|done]. by rewrite lookup_insert_ne.
Qed.

End GenerationFailures.

Lemma handleGenerateCarousel_rejected_witness :
  user Sample.editing = Some Sample.someone /\
  Sample.generateCarouselContent "" "Food" ∅ (settings Sample.editing)
    = Rejected (Error_of "The topic is empty.") /\
  let st' :=
    handleGenerateCarousel Sample.messages Sample.uuid Sample.generateCarouselContent
      Sample.generateImage "2025-01-06T00:00:00.000Z" "" "Food" ∅ true Sample.editing in
  carouselHistory st' = [Sample.coffee; Sample.tea] /\
  error st' = Some "The topic is empty." /\
  currentCarousel st' = None.
Proof.
  split; [reflexivity|]. split; [reflexivity|].
  destruct (handleGenerateCarousel_rejected Sample.messages Sample.uuid
              Sample.generateCarouselContent Sample.generateImage
              "2025-01-06T00:00:00.000Z" "" "Food" ∅ true Sample.editing Sample.someone
              (Error_of "The topic is empty.") eq_refl eq_refl eq_refl)
    as (Hh & _ & Herr & Hcur & _).
  split; [exact Hh|]. split; [exact Herr|exact Hcur].
Defined.

Lemma Sample_coffee_distinctIds : distinctIds (slides Sample.coffee).
Proof.
  split.
  - intros s Hs. simpl in Hs.
    repeat (apply elem_of_cons in Hs as [->|Hs]; [eexists; reflexivity|]).
    by apply elem_of_nil in Hs.
  - intros i j s s' Hi Hj Hid. simpl in Hi, Hj.
    destruct i as [|[|[|i]]], j as [|[|[|j]]]; simpl in Hi, Hj;
      try done; injection Hi as <-; injection Hj as <-;
      vm_compute in Hid; discriminate Hid.
Qed.

Lemma executeImageGenerationForAllSlides_partial_success_witness :
  distinctIds (slides Sample.coffee) /\
  let final :=
    (executeImageGenerationForAllSlides Sample.messages Sample.generateImage
       Sample.coffee Sample.editing).1 in
  slides final !! 0%nat
    = Some (<["backgroundImage" := JStr "data:image/png;base64,AAAA"]>
              (Sample.slide "s-1" "Grind")) /\
  slides final !! 1%nat = Some (Sample.slide "s-2" "Bloom").
Proof.
  split; [apply Sample_coffee_distinctIds|].
  destruct (executeImageGenerationForAllSlides_partial_success Sample.messages
              Sample.generateImage Sample.coffee Sample.editing Sample_coffee_distinctIds)
    as (_ & Hslide & _).
  split.
  - apply (Hslide 0%nat (Sample.slide "s-1" "Grind")). reflexivity.
  - apply (Hslide 1%nat (Sample.slide "s-2" "Bloom")). reflexivity.
Defined.

(** ** Translations *)

Lemma replace_from_absent (pat repl : string) (s before : string) :
  JsString.includes pat s = false ->
  JsString.replace_from pat repl 0 before s = s.
Proof.
  revert before. induction s as [|c s IH]; intros before Hinc; [done|].
  cbn [JsString.includes] in Hinc. apply orb_false_iff in Hinc as [Hpre Hrest].
  cbn [JsString.replace_from]. rewrite Hpre. by rewrite IH.
Qed.

(** X18.  For a key that is no name inherited by every object, and
    parameters with plain names: [t] falls back to the key (with no text, or
    an empty text, for the key it returns the key itself), and parameters
    that the text does not mention (as [{{name}}]) change nothing. *)
Theorem t_ignores_unmentioned_parameters
    (messages : gmap string string) (key : string) (params : list (string * JsVal)) :
  existsb (String.eqb key) prototypeNames = false ->
  (forall p, p ∈ params -> plainName p.1 = true) ->
  (forall p, p ∈ params ->
     JsString.includes ("{{" +:+ p.1 +:+ "}}") (t messages key []) = false) ->
  t messages key params = t messages key [] /\
  (messages !! key = None \/ messages !! key = Some "" -> t messages key [] = key).
Proof.
  intros _ _ Habsent. split.
  - unfold t in *. simpl in Habsent.
    set (text := match messages !! key with
                 | Some s => if String.eqb s "" then key else s
                 | None => key
                 end) in *.
    clearbody text. induction params as [|p params IH]; [done|].
    simpl. unfold JsString.replace_global.
    rewrite replace_from_absent by (apply Habsent; left).
    apply IH. intros q Hq. apply Habsent. by right.
  - unfold t. simpl. by intros [-> | ->].
Qed.

Lemma t_ignores_unmentioned_parameters_witness :
  existsb (String.eqb "errorInvalidApiKey") prototypeNames = false /\
  (forall p, p ∈ [("current", JNum 1 0); ("total", JNum 3 0)] -> plainName p.1 = true) /\
  (forall p, p ∈ [("current", JNum 1 0); ("total", JNum 3 0)] ->
     JsString.includes ("{{" +:+ p.1 +:+ "}}")
       (t Sample.messages "errorInvalidApiKey" []) = false) /\
  t Sample.messages "errorInvalidApiKey" [("current", JNum 1 0); ("total", JNum 3 0)]
    = "The API key is not valid.".
Proof.
  assert (forall p, p ∈ [("current", JNum 1 0); ("total", JNum 3 0)] ->
            plainName p.1 = true) as Hplain.
  { intros p Hp. repeat (apply elem_of_cons in Hp as [->|Hp]; [reflexivity|]).
    by apply elem_of_nil in Hp. }
  assert (forall p, p ∈ [("current", JNum 1 0); ("total", JNum 3 0)] ->
            JsString.includes ("{{" +:+ p.1 +:+ "}}")
              (t Sample.messages "errorInvalidApiKey" []) = false) as Habsent.
  { intros p Hp. repeat (apply elem_of_cons in Hp as [->|Hp]; [reflexivity|]).
    by apply elem_of_nil in Hp. }
  split; [reflexivity|]. split; [exact Hplain|]. split; [exact Habsent|].
  apply (t_ignores_unmentioned_parameters Sample.messages "errorInvalidApiKey" _
           eq_refl Hplain Habsent).
Defined.

(** ** The name of the archive *)

Lemma toLowerCase_cons (c : ascii) (r : string) :
  isAsciiChar c = true ->
  JsString.toLowerCase (String c r)
  = String (JsString.lower_ascii c) (JsString.toLowerCase r).
Proof.
  intros Hc. destruct c as [b0 b1 b2 b3 b4 b5 b6 []]; [by destruct b0, b1, b2, b3, b4, b5, b6|].
  destruct r as [|c1 [|c2 r2]]; [done| |].
  - cbn [JsString.toLowerCase]. by destruct b0, b1, b2, b3, b4, b5, b6.
  - change (JsString.toLowerCase (String (Ascii b0 b1 b2 b3 b4 b5 b6 false)
                                    (String c1 (String c2 r2))))
      with (if Ascii.eqb (Ascii b0 b1 b2 b3 b4 b5 b6 false) "196"%char
               && Ascii.eqb c1 "176"%char
            then String "i"%char
                   (String "204"%char
                      (String "135"%char (JsString.toLowerCase (String c2 r2))))
            else if Ascii.eqb (Ascii b0 b1 b2 b3 b4 b5 b6 false) "226"%char
                    && Ascii.eqb c1 "132"%char && Ascii.eqb c2 "170"%char
                 then String "k"%char (JsString.toLowerCase r2)
                 else String (JsString.lower_ascii (Ascii b0 b1 b2 b3 b4 b5 b6 false))
                        (JsString.toLowerCase (String c1 (String c2 r2)))).
    assert (Ascii.eqb (Ascii b0 b1 b2 b3 b4 b5 b6 false) "196"%char = false) as ->
      by (by destruct b0, b1, b2, b3, b4, b5, b6).
    assert (Ascii.eqb (Ascii b0 b1 b2 b3 b4 b5 b6 false) "226"%char = false) as ->
      by (by destruct b0, b1, b2, b3, b4, b5, b6).
    done.
Qed.

Lemma length_toLowerCase (s : string) :
  allChars isAsciiChar s = true ->
  String.length (JsString.toLowerCase s) = String.length s.
Proof.
  induction s as [|c s IH]; [done|].
  cbn [allChars]. intros [Hc Hs]%andb_true_iff.
  rewrite toLowerCase_cons by done. simpl. by rewrite IH.
Qed.

Lemma length_replaceUnsafe (s : string) :
  allChars isAsciiChar s = true ->
  String.length (replaceUnsafe s) = String.length s.
Proof.
  induction s as [|c s IH]; [done|].
  cbn [allChars replaceUnsafe]. intros [Hc Hs]%andb_true_iff.
  unfold isAsciiChar in Hc. rewrite Hc.
  destruct (isAlphanumeric c); simpl; by rewrite IH.
Qed.

Lemma isAlphanumeric_ascii (c : ascii) :
  isAlphanumeric c = true -> isAsciiChar c = true.
Proof.
  destruct c as [[] [] [] [] [] [] [] []]; simpl; intros H; try discriminate H; reflexivity.
Qed.

Lemma replaceUnsafe_ascii (s : string) :
  allChars isAsciiChar (replaceUnsafe s) = true.
Proof.
  induction s as [|c s IH]; [done|].
  cbn [replaceUnsafe]. destruct (isAlphanumeric c) eqn:Ha.
  - cbn [allChars]. by rewrite isAlphanumeric_ascii, IH.
  - destruct (nat_of_ascii c <? 128)%nat; [|destruct (nat_of_ascii c <? 192)%nat;
      [|destruct (nat_of_ascii c <? 240)%nat]];
      cbn [allChars]; by rewrite ?IH.
Qed.

Lemma lower_ascii_safe (c : ascii) :
  isAlphanumeric c = true -> isSafeChar (JsString.lower_ascii c) = true.
Proof.
  destruct c as [[] [] [] [] [] [] [] []]; simpl; intros H; try discriminate H; reflexivity.
Qed.

Lemma lower_ascii_of_safe (c : ascii) :
  isSafeChar c = true ->
  JsString.lower_ascii c = c /\ isAsciiChar c = true /\
  (isAlphanumeric c = true \/
   isAlphanumeric c = false /\ (nat_of_ascii c <? 128)%nat = true /\ c = "_"%char).
Proof.
  destruct c as [[] [] [] [] [] [] [] []]; simpl; intros H; try discriminate H;
    (split; [reflexivity|]); (split; [reflexivity|]); first [by left | by right].
Qed.

Lemma safeTitle_safe (s : string) : allChars isSafeChar (safeTitle s) = true.
Proof.
  unfold safeTitle. induction s as [|c s IH]; [done|].
  cbn [replaceUnsafe]. destruct (isAlphanumeric c) eqn:Ha.
  - rewrite toLowerCase_cons by (by apply isAlphanumeric_ascii).
    cbn [allChars]. by rewrite lower_ascii_safe, IH.
  - destruct (nat_of_ascii c <? 128)%nat; [|destruct (nat_of_ascii c <? 192)%nat;
      [|destruct (nat_of_ascii c <? 240)%nat]];
      rewrite ?toLowerCase_cons by done; cbn [allChars]; by rewrite ?IH.
Qed.

Lemma safeTitle_of_safe (s : string) :
  allChars isSafeChar s = true -> safeTitle s = s.
Proof.
  unfold safeTitle. induction s as [|c s IH]; [done|].
  cbn [replaceUnsafe allChars]. intros [Hc Hs]%andb_true_iff.
  destruct (lower_ascii_of_safe c Hc) as (Hlow & Hascii & [Ha|(Ha & Hn & Hu)]); rewrite Ha.
  - rewrite toLowerCase_cons by done. by rewrite Hlow, IH.
  - rewrite Hn. rewrite toLowerCase_cons by done. rewrite IH by done. by rewrite Hu.
Qed.

(** X19.  The name of the downloaded archive is [.zip] after a stem that
    is never empty and holds only lower-case letters, digits and
    underscores; the stem is [carousel] for the empty title; for a title of
    ASCII characters that is not empty it is as long as the title,
    character for character; a title that already is such a stem is kept as
    it is. *)
Theorem downloadName_is_safe (title0 : string) :
  exists stem,
    downloadName title0 = stem +:+ ".zip" /\
    stem <> "" /\ allChars isSafeChar stem = true /\
    (title0 = "" -> stem = "carousel") /\
    (title0 <> "" -> allChars isAsciiChar title0 = true ->
       stem = safeTitle title0 /\ String.length stem = String.length title0) /\
    (title0 <> "" -> allChars isSafeChar title0 = true -> stem = title0).
Proof.
  unfold downloadName.
  destruct (String.eqb_spec (safeTitle title0) "") as [Hempty|Hfull].
  - exists "carousel". split_and!; try done.
    + intros Hne Hascii. exfalso.
      apply (f_equal String.length) in Hempty. unfold safeTitle in Hempty.
      rewrite length_toLowerCase, length_replaceUnsafe in Hempty
        by (done || apply replaceUnsafe_ascii).
      by destruct title0.
    + intros Hne Hsafe. rewrite safeTitle_of_safe in Hempty by done. by destruct Hne.
  - exists (safeTitle title0). split_and!; try done.
    + apply safeTitle_safe.
    + by intros ->.
    + intros _ Hascii. split; [done|].
      unfold safeTitle.
      by rewrite length_toLowerCase, length_replaceUnsafe by (done || apply replaceUnsafe_ascii).
    + intros _ Hsafe. by apply safeTitle_of_safe.
Qed.

Example downloadName_sample :
  downloadName "Coffee Brewing: 3 tips!" = "coffee_brewing__3_tips_.zip".
Proof. reflexivity. Qed.

(** ** Data addresses *)

Lemma splitComma_no_comma (s : string) :
  allChars isNotComma s = true -> splitComma s = [s].
Proof.
  induction s as [|c s IH]; [done|].
  cbn [allChars splitComma]. intros [Hc Hs]%andb_true_iff.
  unfold isNotComma in Hc. apply negb_true_iff in Hc. rewrite Hc.
  by rewrite IH.
Qed.

Lemma splitComma_first (a b : string) :
  allChars isNotComma a = true ->
  splitComma (a +:+ String ","%char b) = a :: splitComma b.
Proof.
  induction a as [|c a IH]; [done|].
  cbn [allChars]. intros [Hc Ha]%andb_true_iff.
  unfold isNotComma in Hc. apply negb_true_iff in Hc.
  change (String c a +:+ String ","%char b) with (String c (a +:+ String ","%char b)).
  cbn [splitComma]. rewrite Hc. by rewrite IH.
Qed.

Lemma string_app_assoc (a b c : string) : (a +:+ b) +:+ c = a +:+ (b +:+ c).
Proof.
  induction a as [|x a IH]; [done|].
  change ((String x a +:+ b) +:+ c) with (String x ((a +:+ b) +:+ c)).
  change (String x a +:+ b +:+ c) with (String x (a +:+ b +:+ c)).
  by rewrite IH.
Qed.

Lemma allChars_app (p : ascii -> bool) (a b : string) :
  allChars p (a +:+ b) = allChars p a && allChars p b.
Proof.
  induction a as [|c a IH]; [done|].
  change (String c a +:+ b) with (String c (a +:+ b)).
  cbn [allChars]. rewrite IH. by rewrite andb_assoc.
Qed.

Lemma allChars_impl (p q : ascii -> bool) (s : string) :
  (forall c, p c = true -> q c = true) -> allChars p s = true -> allChars q s = true.
Proof.
  intros Hpq. induction s as [|c s IH]; [done|].
  cbn [allChars]. intros [Hc Hs]%andb_true_iff. by rewrite Hpq, IH.
Qed.

Lemma upToSemicolon_mime (mime rest : string) :
  allChars isMimeChar mime = true ->
  upToSemicolon (mime +:+ String ";"%char rest) = Some mime.
Proof.
  induction mime as [|c mime IH]; [done|].
  cbn [allChars]. intros [Hc Hm]%andb_true_iff.
  change (String c mime +:+ String ";"%char rest)
    with (String c (mime +:+ String ";"%char rest)).
  cbn [upToSemicolon]. rewrite IH by done.
  unfold isMimeChar in Hc. apply negb_true_iff in Hc.
  repeat (apply orb_false_iff in Hc as [Hc ?]).
  unfold lineTerminatorAt.
  replace (Ascii.eqb c ";") with false by done.
  replace (Ascii.eqb c "010") with false by done.
  replace (Ascii.eqb c "013") with false by done.
  replace (Ascii.eqb c "226") with false by done.
  done.
Qed.

(** X20.  Taking a data address apart gives back what it was made of: for
    a media type without [:], [;], [,] and line terminators and a payload
    without comma, the address [data:<type>;base64,<payload>] yields that
    payload and that media type, and [image/png] when the type is empty.
    An address without a comma yields no payload at all. *)
Theorem dataUrlParts_round_trip (mime payload : string) :
  allChars isMimeChar mime = true ->
  allChars isNotComma payload = true ->
  dataUrlParts ("data:" +:+ mime +:+ ";base64," +:+ payload)
    = (JStr payload, if String.eqb mime "" then "image/png" else mime) /\
  fst (dataUrlParts ("data:" +:+ mime +:+ ";base64")) = JUndefined.
Proof.
  intros Hmime Hpayload.
  assert (allChars isNotComma mime = true) as Hmime'.
  { apply (allChars_impl isMimeChar); [|done].
    intros c Hc. unfold isMimeChar, isNotComma in *.
    apply negb_true_iff in Hc. repeat (apply orb_false_iff in Hc as [Hc ?]).
    by apply negb_true_iff. }
  assert (allChars isNotComma ("data:" +:+ mime +:+ ";base64") = true) as Hmeta.
  { rewrite !allChars_app, Hmime'. reflexivity. }
  assert (matchMime ("data:" +:+ mime +:+ ";base64") = Some mime) as Hmatch.
  { change ("data:" +:+ mime +:+ ";base64")
      with (String "d" (String "a" (String "t" (String "a" (String ":"
              (mime +:+ String ";"%char "base64")))))).
    cbn [matchMime]. simpl Ascii.eqb. cbv iota. by rewrite upToSemicolon_mime. }
  split.
  - unfold dataUrlParts.
    replace ("data:" +:+ mime +:+ ";base64," +:+ payload)
      with (("data:" +:+ mime +:+ ";base64") +:+ String ","%char payload)
      by (by rewrite !string_app_assoc).
    rewrite splitComma_first by done. rewrite splitComma_no_comma by done.
    by rewrite Hmatch.
  - unfold dataUrlParts. by rewrite splitComma_no_comma.
Qed.

Lemma dataUrlParts_round_trip_witness :
  allChars isMimeChar "image/jpeg" = true /\
  allChars isNotComma "AAAA" = true /\
  dataUrlParts "data:image/jpeg;base64,AAAA" = (JStr "AAAA", "image/jpeg").
Proof.
  split; [reflexivity|]. split; [reflexivity|].
  apply (dataUrlParts_round_trip "image/jpeg" "AAAA"); reflexivity.
Defined.

(** ** Images of the current carousel *)

Section ImageHandlers.

Variable messages : gmap string string.
Variable generateImage : nat -> JsVal -> JsVal -> Completion string.
Variable editImage : JsVal -> string -> string -> Completion string.

(** X21.  Editing an image in place only ever works on an inline image:
    with an empty prompt, an unknown slide id, or a slide whose
    [backgroundImage] is missing, [undefined], a video or anything else that
    does not start with [data:image], nothing at all happens, whatever the
    edit service would answer.  When the edit service fails on an inline
    image, the carousel and the history stay as they were and the classified
    error is shown. *)
Theorem handleEditImageForSlide_guards
    (st : AppState) (cur : Carousel) (slideId editPrompt : string) :
  currentCarousel st = Some cur ->
  let st' := handleEditImageForSlide messages editImage slideId editPrompt st in
  (editPrompt = "" -> st' = st) /\
  (List.find (has_id slideId) (slides cur) = None -> st' = st) /\
  (forall slide, List.find (has_id slideId) (slides cur) = Some slide ->
     isInlineImage (prop "backgroundImage" slide) = false -> st' = st) /\
  (forall slide url err,
     editPrompt <> "" ->
     List.find (has_id slideId) (slides cur) = Some slide ->
     prop "backgroundImage" slide = JStr url ->
     isInlineImage (JStr url) = true ->
     editImage (dataUrlParts url).1 (dataUrlParts url).2 editPrompt = Rejected err ->
     currentCarousel st' = Some cur /\ carouselHistory st' = carouselHistory st /\
     error st' = Some (parseAndDisplayError messages err) /\
     isGeneratingImageForSlide st' = None).
Proof.
  intros Hcur st'. subst st'. unfold handleEditImageForSlide. rewrite Hcur.
  split_and!.
  - by intros ->.
  - intros ->. by destruct (String.eqb editPrompt "").
  - intros slide -> ->. by destruct (String.eqb editPrompt "").
  - intros slide url err Hp -> Hbg Himg Hedit.
    assert (String.eqb editPrompt "" = false) as -> by (by apply String.eqb_neq).
    rewrite Hbg, Himg. cbv zeta. cbn [negb].
    destruct (dataUrlParts url) as [d m]. cbn [fst snd] in Hedit. rewrite Hedit. done.
Qed.

Lemma imageLoop_error (carousel : Carousel) (todo : list SlideData) :
  forall (i : nat) (updatedCarousel : Carousel) (st : AppState),
    let r := imageLoop messages generateImage carousel i todo updatedCarousel st in
    error r.2 = error st /\ isGenerating r.2 = isGenerating st /\ view r.2 = view st.
Proof.
  induction todo as [|slide rest IH]; intros i updatedCarousel st; simpl; [done|].
  destruct (generateImage i _ _) as [imageUrl|e].
  - set (updated := with_slides updatedCarousel _).
    set (st1 := setCurrentCarousel _ _).
    by destruct (IH (S i) updated st1) as (? & ? & ?).
  - set (st1 := setIsGeneratingImageForSlide _ _).
    by destruct (IH (S i) updatedCarousel st1) as (? & ? & ?).
Qed.

Lemma writeBackFinal_writeBack (c : Carousel) (h : list Carousel) :
  writeBackFinal c h = writeBack c h.
Proof.
  unfold writeBackFinal, writeBack.
  destruct (findIndex_range (fun x => String.eqb (id x) (id c)) h) as [->|Hr]; [done|].
  set (index := findIndex _ h) in *.
  assert ((index >? -1) = true) as -> by lia.
  by assert ((index =? -1) = false) as -> by lia.
Qed.

(** X22.  After generating the images of all slides the current carousel
    and the history agree again: the carousel that comes out is the current
    one and is written over the first history entry with its id; the entries
    with other ids and the id supply are untouched, and the busy flags and
    the progress message are reset. *)
Theorem handleGenerateAllImages_writes_back (st : AppState) (cur : Carousel) :
  currentCarousel st = Some cur ->
  let st' := handleGenerateAllImages messages generateImage st in
  exists final,
    currentCarousel st' = Some final /\
    id final = id cur /\ title final = title cur /\
    carouselHistory st' = writeBack final (carouselHistory st) /\
    (forall i c, carouselHistory st !! i = Some c -> id c = id cur ->
       (forall j c', (j < i)%nat -> carouselHistory st !! j = Some c' -> id c' <> id cur) ->
       carouselHistory st' !! i = Some final) /\
    (forall i c, carouselHistory st !! i = Some c -> id c <> id cur ->
       carouselHistory st' !! i = Some c) /\
    isGenerating st' = false /\ isGeneratingImageForSlide st' = None /\
    generationMessage st' = "" /\ error st' = None /\ uuidsDrawn st' = uuidsDrawn st.
Proof.
  intros Hcur st'. subst st'. unfold handleGenerateAllImages. rewrite Hcur.
  unfold executeImageGenerationForAllSlides.
  set (st1 := setError None (setIsGenerating true st)).
  pose proof (imageLoop_keeps messages generateImage cur (slides cur) 0 cur st1)
    as (Hid & Htitle & _ & Hh & Hu & Hc).
  pose proof (imageLoop_error cur (slides cur) 0 cur st1) as (Herr & _ & _).
  destruct (imageLoop _ _ _ _ _ _ _) as [final st2]. simpl in *.
  exists final. rewrite writeBackFinal_writeBack, Hh.
  split_and!; try done.
  - by apply Hc.
  - intros i c Hi Hidc Hfirst. apply (writeBack_first final _ i c); [done|congruence|].
    intros j c' Hj Hc'. rewrite Hid. by eapply Hfirst.
  - intros i c Hi Hne. apply writeBack_other; [done|congruence].
Qed.

End ImageHandlers.

Lemma handleEditImageForSlide_guards_witness :
  let editImage := fun (_ : JsVal) (_ _ : string) =>
    @Rejected string (Error_of "API key not valid") in
  let st := setCurrentCarousel (Some Sample.videoBackground) Sample.editing in
  currentCarousel st = Some Sample.videoBackground /\
  handleEditImageForSlide Sample.messages editImage "s-5" "make it blue" st = st.
Proof.
  intros editImage st. split; [reflexivity|].
  destruct (handleEditImageForSlide_guards Sample.messages editImage st
              Sample.videoBackground "s-5" "make it blue" eq_refl) as (_ & _ & H & _).
  apply (H (<["backgroundImage" := JStr "data:video/mp4;base64,BBBB"]>
              (Sample.slide "s-5" "Pull"))); reflexivity.
Defined.

Lemma handleGenerateAllImages_writes_back_witness :
  currentCarousel Sample.editing = Some Sample.coffee /\
  let st' := handleGenerateAllImages Sample.messages Sample.generateImage Sample.editing in
  exists final,
    currentCarousel st' = Some final /\
    carouselHistory st' !! 0%nat = Some final /\
    carouselHistory st' !! 1%nat = Some Sample.tea.
Proof.
  split; [reflexivity|].
  destruct (handleGenerateAllImages_writes_back Sample.messages Sample.generateImage
              Sample.editing Sample.coffee eq_refl)
    as (final & Hcur & _ & _ & _ & Hfirst & Hother & _).
  exists final. split; [exact Hcur|]. split.
  - apply (Hfirst 0%nat Sample.coffee); [reflexivity|reflexivity|].
    intros j c' Hj. inversion Hj.
  - apply (Hother 1%nat Sample.tea); [reflexivity|].
    intros H. vm_compute in H. discriminate H.
Defined.

Section SingleImage.

Variable messages : gmap string string.
Variable generateImage : nat -> JsVal -> JsVal -> Completion string.

(** X24.  Generating the image of one slide: when the service answers, every
    slide with that id carries the answer as its [backgroundImage] and keeps
    all its other fields, the other slides are untouched, and the new carousel
    is written back to its history entry; when the service fails, the
    carousel and the history stay as they were and the classified error is
    shown.  Either way the busy flag is cleared afterwards. *)
Theorem handleGenerateImageForSlide_outcomes
    (st : AppState) (cur : Carousel) (slideId : string) (slide : SlideData) :
  currentCarousel st = Some cur ->
  List.find (has_id slideId) (slides cur) = Some slide ->
  let st' := handleGenerateImageForSlide messages generateImage slideId st in
  isGeneratingImageForSlide st' = None /\
  match generateImage 0 (prop "visual_prompt" slide)
          (prop "aspectRatio" (preferences cur)) with
  | Resolved imageUrl =>
      exists cur',
        currentCarousel st' = Some cur' /\
        id cur' = id cur /\ preferences cur' = preferences cur /\
        carouselHistory st' = writeBack cur' (carouselHistory st) /\
        error st' = None /\
        length (slides cur') = length (slides cur) /\
        forall i s, slides cur !! i = Some s ->
          exists s', slides cur' !! i = Some s' /\
            (has_id slideId s = false -> s' = s) /\
            (has_id slideId s = true ->
               s' !! "backgroundImage" = Some (JStr imageUrl) /\
               forall k, k <> "backgroundImage" -> s' !! k = s !! k)
  | Rejected err =>
      currentCarousel st' = Some cur /\
      carouselHistory st' = carouselHistory st /\
      error st' = Some (parseAndDisplayError messages err)
  end.
Proof.
  intros Hcur Hfind st'. subst st'. unfold handleGenerateImageForSlide.
  rewrite Hcur, Hfind. cbv zeta.
  destruct (generateImage 0 _ _) as [imageUrl|err]; [|done].
  split; [done|].
  unfold handleUpdateSlide. simpl. rewrite Hcur.
  eexists. split; [reflexivity|]. simpl. split_and!; try done.
  - by rewrite length_map.
  - intros i s Hi. rewrite list_lookup_fmap, Hi. simpl. eexists. split; [done|].
    destruct (has_id slideId s); split; try done.
    intros _. unfold spread. split.
    + apply lookup_union_Some_l. by rewrite lookup_singleton_eq.
    + intros k Hk. rewrite lookup_union_r; [done|]. by rewrite lookup_singleton_ne.
Qed.

End SingleImage.

Lemma handleGenerateImageForSlide_outcomes_witness :
  currentCarousel Sample.editing = Some Sample.coffee /\
  List.find (has_id "s-2") (slides Sample.coffee) = Some (Sample.slide "s-2" "Bloom") /\
  isGeneratingImageForSlide
    (handleGenerateImageForSlide Sample.messages Sample.generateImage "s-2" Sample.editing)
  = None.
Proof.
  split; [reflexivity|]. split; [reflexivity|].
  apply (handleGenerateImageForSlide_outcomes Sample.messages Sample.generateImage
           Sample.editing Sample.coffee "s-2" (Sample.slide "s-2" "Bloom") eq_refl eq_refl).
Defined.

(** ** The assistant *)

(** X25.  Applying a suggestion of the assistant rewrites one field of the
    selected slide, the headline for a hook and the body for a call to
    action: every slide with the selected id gets the suggestion in that
    field and keeps all its other fields, and the other slides are
    untouched.  With no slide selected nothing changes. *)
Theorem handleApplyAssistantSuggestion_one_field
    (st : AppState) (cur : Carousel) (selected suggestion : string)
    (type : SuggestionType) :
  currentCarousel st = Some cur ->
  selected <> "" ->
  let field := match type with hook => "headline" | cta => "body" end in
  (selectedSlideId st = None ->
     handleApplyAssistantSuggestion suggestion type st = st) /\
  (selectedSlideId st = Some (JStr selected) ->
     exists cur',
       currentCarousel (handleApplyAssistantSuggestion suggestion type st) = Some cur' /\
       length (slides cur') = length (slides cur) /\
       forall i s, slides cur !! i = Some s ->
         exists s', slides cur' !! i = Some s' /\
           (has_id selected s = false -> s' = s) /\
           (has_id selected s = true ->
              s' !! field = Some (JStr suggestion) /\
              forall k, k <> field -> s' !! k = s !! k)).
Proof.
  intros Hcur Hne field. unfold handleApplyAssistantSuggestion. split.
  - by intros ->.
  - intros ->.
    assert (String.eqb selected "" = false) as -> by (by apply String.eqb_neq).
    unfold handleUpdateSlide. rewrite Hcur. simpl.
    eexists. split; [reflexivity|]. simpl. split; [by rewrite length_map|].
    intros i s Hi. rewrite list_lookup_fmap, Hi. simpl. eexists. split; [done|].
    destruct (has_id selected s); split; try done.
    intros _. unfold spread. fold field. split.
    + apply lookup_union_Some_l. by rewrite lookup_singleton_eq.
    + intros k Hk. rewrite lookup_union_r; [done|]. by rewrite lookup_singleton_ne.
Qed.

Lemma handleApplyAssistantSuggestion_one_field_witness :
  currentCarousel Sample.editing = Some Sample.coffee /\
  "s-1" <> "" /\
  exists cur',
    currentCarousel
      (handleApplyAssistantSuggestion "Stop wasting beans" hook Sample.editing)
    = Some cur' /\
    length (slides cur') = 3%nat.
Proof.
  split; [reflexivity|]. split; [discriminate|].
  destruct (handleApplyAssistantSuggestion_one_field Sample.editing Sample.coffee
              "s-1" "Stop wasting beans" hook eq_refl ltac:(discriminate))
    as (_ & H).
  destruct (H eq_refl) as (cur' & Hc & Hl & _).
  exists cur'. split; [exact Hc|exact Hl].
Defined.

(** ** Logging out *)


(** ** Settings *)

Lemma spread_keeps_keys (o updates : gmap string JsVal) (k : string) :
  is_Some (o !! k) -> is_Some (spread o updates !! k).
Proof.
  intros [v Hv]. unfold spread. destruct (updates !! k) as [u|] eqn:E.
  - exists u. by apply lookup_union_Some_l.
  - exists v. by rewrite lookup_union_r.
Qed.

Lemma spread_updates_win (o updates : gmap string JsVal) (k : string) (v : JsVal) :
  updates !! k = Some v -> spread o updates !! k = Some v.
Proof. intros Hv. unfold spread. by apply lookup_union_Some_l. Qed.

Section SettingsLoad.

Variable defaultSettings : gmap string JsVal.

Lemma mergedSettings_complete (kit0 : gmap string JsVal) (parsedSettings : JsVal) :
  defaultSettings !! "brandKit" = Some (JObj kit0) ->
  (forall g, g ∈ ["colors"; "fonts"; "brandingStyle"] ->
     exists d, kit0 !! g = Some (JObj d)) ->
  let r := default defaultSettings (mergedSettings defaultSettings parsedSettings) in
  (forall k, is_Some (defaultSettings !! k) -> is_Some (r !! k)) /\
  (forall o k v, parsedSettings = JObj o ->
     k <> "brandKit" -> o !! k = Some v -> r !! k = Some v) /\
  exists kit,
    r !! "brandKit" = Some (JObj kit) /\
    (forall k, is_Some (kit0 !! k) -> is_Some (kit !! k)) /\
    (forall o bk k v, parsedSettings = JObj o -> o !! "brandKit" = Some (JObj bk) ->
       k ∉ ["colors"; "fonts"; "brandingStyle"] -> bk !! k = Some v ->
       kit !! k = Some v) /\
    forall g, g ∈ ["colors"; "fonts"; "brandingStyle"] ->
      exists m,
        kit !! g = Some (JObj m) /\
        (forall k, is_Some (ownProps (prop g kit0) !! k) -> is_Some (m !! k)) /\
        (forall o bk c k v, parsedSettings = JObj o -> o !! "brandKit" = Some (JObj bk) ->
           bk !! g = Some (JObj c) -> c !! k = Some v -> m !! k = Some v).
Proof.
  intros Hkit0 Hgroups r. subst r.
  assert (prop "brandKit" defaultSettings = JObj kit0) as Hprop
    by (unfold prop; by rewrite Hkit0).
  unfold mergedSettings. rewrite Hprop. cbn [Js.nullish orb].
  destruct (Js.nullish parsedSettings) eqn:Hnull; cbn [orb]; unfold default, from_option, Datatypes.id.
  { split; [done|]. split; [by intros o k v ->|].
    exists kit0. split; [done|]. split; [done|]. split; [by intros o bk k v ->|].
    intros g Hg. destruct (Hgroups g Hg) as [d Hd]. exists d.
    split; [done|]. split; [unfold prop; by rewrite Hd|]. by intros o bk c k v ->. }
  set (kit := Js.get "brandKit" parsedSettings).
  split.
  { intros k Hk. destruct (decide (k = "brandKit")) as [->|Hne].
    - by rewrite lookup_insert_eq.
    - rewrite lookup_insert_ne by done. by apply spread_keeps_keys. }
  split.
  { intros o k v -> Hne Hv. rewrite lookup_insert_ne by done.
    by apply spread_updates_win. }
  eexists. split; [by rewrite lookup_insert_eq|].
  split.
  { intros k Hk. rewrite !lookup_insert_is_Some'. right; right; right.
    by apply spread_keeps_keys. }
  split.
  { intros o bk k v -> Hbk Hk Hv.
    assert (k <> "colors") by (intros ->; apply Hk; repeat constructor).
    assert (k <> "fonts") by (intros ->; apply Hk; repeat constructor).
    assert (k <> "brandingStyle") by (intros ->; apply Hk; repeat constructor).
    rewrite !lookup_insert_ne by done. apply spread_updates_win.
    subst kit. unfold Js.get. by rewrite Hbk. }
  intros g Hg. apply list_elem_of_In in Hg. simpl in Hg.
  destruct Hg as [<-|[<-|[<-|[]]]].
  all: eexists; split;
    [ repeat (rewrite lookup_insert_ne by done); by rewrite lookup_insert_eq |].
  all: split; [intros k Hk; by apply spread_keeps_keys|].
  all: intros o bk c k v -> Hbk Hc Hv; apply spread_updates_win;
    subst kit; unfold Js.get; rewrite Hbk; simpl; by rewrite Hc.
Qed.

(** X26.  Whatever text is stored under the settings key (none, one that is
    not JSON, [null], or any JSON value), the settings the component starts
    with have every key of the default settings, and their brand kit is an
    object with every key of the default brand kit whose colours, fonts and
    branding style are objects with every key of the default ones.  When
    the stored text is a JSON object, its values win over the defaults, key
    by key, down to the three groups of the brand kit. *)
Theorem loadSettings_complete
    (kit0 : gmap string JsVal) (savedSettings : option string) :
  defaultSettings !! "brandKit" = Some (JObj kit0) ->
  (forall g, g ∈ ["colors"; "fonts"; "brandingStyle"] ->
     exists d, kit0 !! g = Some (JObj d)) ->
  let r := loadSettings defaultSettings savedSettings in
  (forall k, is_Some (defaultSettings !! k) -> is_Some (r !! k)) /\
  (forall s o k v, savedSettings = Some s -> s <> "" -> Json.parse s = Some (JObj o) ->
     k <> "brandKit" -> o !! k = Some v -> r !! k = Some v) /\
  exists kit,
    r !! "brandKit" = Some (JObj kit) /\
    (forall k, is_Some (kit0 !! k) -> is_Some (kit !! k)) /\
    (forall s o bk k v, savedSettings = Some s -> s <> "" ->
       Json.parse s = Some (JObj o) -> o !! "brandKit" = Some (JObj bk) ->
       k ∉ ["colors"; "fonts"; "brandingStyle"] -> bk !! k = Some v ->
       kit !! k = Some v) /\
    forall g, g ∈ ["colors"; "fonts"; "brandingStyle"] ->
      exists m,
        kit !! g = Some (JObj m) /\
        (forall k, is_Some (ownProps (prop g kit0) !! k) -> is_Some (m !! k)) /\
        (forall s o bk c k v, savedSettings = Some s -> s <> "" ->
           Json.parse s = Some (JObj o) -> o !! "brandKit" = Some (JObj bk) ->
           bk !! g = Some (JObj c) -> c !! k = Some v -> m !! k = Some v).
Proof.
  intros Hkit0 Hgroups r. subst r. unfold loadSettings.
  set (parsed := match savedSettings with None => _ | Some _ => _ end).
  assert (forall s o, savedSettings = Some s -> s <> "" ->
            Json.parse s = Some (JObj o) -> parsed = Some (JObj o)) as Hparsed.
  { intros s o -> Hne Hp. subst parsed. cbv beta iota.
    apply String.eqb_neq in Hne. by rewrite Hne. }
  clearbody parsed. destruct parsed as [parsedSettings|].
  - destruct (mergedSettings_complete kit0 parsedSettings Hkit0 Hgroups)
      as (Hkeys & Hwin & kit & Hkit & Hkitkeys & Hkitwin & Hg).
    split; [done|]. split.
    { intros s o k v Hs Hne Hp. apply (Hwin o).
      by injection (Hparsed s o Hs Hne Hp). }
    exists kit. split; [done|]. split; [done|]. split.
    { intros s o bk k v Hs Hne Hp. apply (Hkitwin o).
      by injection (Hparsed s o Hs Hne Hp). }
    intros g Hin. destruct (Hg g Hin) as (m & Hm & Hmkeys & Hmwin).
    exists m. split; [done|]. split; [done|].
    intros s o bk c k v Hs Hne Hp. apply (Hmwin o).
    by injection (Hparsed s o Hs Hne Hp).
  - split; [done|]. split.
    { intros s o k v Hs Hne Hp. by specialize (Hparsed s o Hs Hne Hp). }
    exists kit0. split; [done|]. split; [done|]. split.
    { intros s o bk k v Hs Hne Hp. by specialize (Hparsed s o Hs Hne Hp). }
    intros g Hin. destruct (Hgroups g Hin) as [d Hd]. exists d.
    split; [done|]. split; [unfold prop; by rewrite Hd|].
    intros s o bk c k v Hs Hne Hp. by specialize (Hparsed s o Hs Hne Hp).
Qed.

End SettingsLoad.

Lemma loadSettings_complete_witness :
  Studio.defaultSettings !! "brandKit" = Some (JObj Studio.defaultKit) /\
  (forall g, g ∈ ["colors"; "fonts"; "brandingStyle"] ->
     exists d, Studio.defaultKit !! g = Some (JObj d)) /\
  loadSettings Studio.defaultSettings (Some Studio.savedSettings) !! "apiKey"
  = Some (JStr "k-1").
Proof.
  assert (forall g, g ∈ ["colors"; "fonts"; "brandingStyle"] ->
            exists d, Studio.defaultKit !! g = Some (JObj d)) as Hgroups.
  { intros g Hg. apply list_elem_of_In in Hg. simpl in Hg.
    destruct Hg as [<-|[<-|[<-|[]]]]; eexists; reflexivity. }
  split; [reflexivity|]. split; [exact Hgroups|].
  destruct (loadSettings_complete Studio.defaultSettings Studio.defaultKit
              (Some Studio.savedSettings) eq_refl Hgroups) as (_ & Hwin & _).
  eapply (Hwin Studio.savedSettings); [reflexivity|discriminate| |discriminate|].
  - vm_compute. reflexivity.
  - reflexivity.
Defined.

(** ** The brand kit *)

Section BrandKitApplied.

Variable uuid : nat -> string.
Variable defaultBrandKit : gmap string JsVal.

(** X27.  Applying a brand kit that has colours and fonts to the current
    carousel: the background and font colours of the preferences become the
    primary and text colours of the kit, the font its body font (Inter when
    it has none), branding text and style those of the kit; headline and
    body style and every other preference keep their values; no slide
    keeps a colour override of its own, and every other field of every
    slide is untouched.  The history entry of the carousel receives the new
    preferences.  A brand kit without fonts or without colours changes
    nothing. *)
Theorem handleApplyBrandKit_applies
    (st : AppState) (cur : Carousel) (kit colors fonts : gmap string JsVal)
    (now : string) :
  currentCarousel st = Some cur ->
  kit !! "colors" = Some (JObj colors) ->
  kit !! "fonts" = Some (JObj fonts) ->
  let st' := handleApplyBrandKit uuid defaultBrandKit (JObj kit) now st in
  (forall kit', kit' !! "fonts" = None \/ kit' !! "colors" = None ->
     handleApplyBrandKit uuid defaultBrandKit (JObj kit') now st = st) /\
  exists cur',
    currentCarousel st' = Some cur' /\ id cur' = id cur /\
    prop "backgroundColor" (preferences cur') = prop "primary" colors /\
    prop "fontColor" (preferences cur') = prop "text" colors /\
    prop "font" (preferences cur')
    = (if Js.truthy (prop "body" fonts) then prop "body" fonts else JStr "Inter") /\
    prop "brandingText" (preferences cur') = prop "brandingText" kit /\
    prop "brandingStyle" (preferences cur') = prop "brandingStyle" kit /\
    (forall k h, k ∈ ["headlineStyle"; "bodyStyle"] ->
       preferences cur !! k = Some (JObj h) -> preferences cur' !! k = Some (JObj h)) /\
    (forall k, k ∉ ["backgroundColor"; "fontColor"; "font"; "brandingText";
                    "brandingStyle"; "headlineStyle"; "bodyStyle"] ->
       preferences cur' !! k = preferences cur !! k) /\
    length (slides cur') = length (slides cur) /\
    (forall i s, slides cur !! i = Some s ->
       exists s', slides cur' !! i = Some s' /\
         s' !! "backgroundColor" = None /\ s' !! "fontColor" = None /\
         forall k, k <> "backgroundColor" -> k <> "fontColor" -> s' !! k = s !! k) /\
    carouselHistory st'
    = writeBack (with_preferences cur (preferences cur')) (carouselHistory st).
Proof.
  intros Hcur Hcolors Hfonts st'. split.
  - intros kit' Hmissing. unfold handleApplyBrandKit. cbn [Js.truthy negb].
    unfold Js.get. destruct Hmissing as [-> | ->]; [done|].
    by destruct (default JUndefined (kit' !! "fonts")).
  - subst st'. unfold handleApplyBrandKit. cbn [Js.truthy negb].
    assert (Js.get "colors" (JObj kit) = JObj colors) as ->
      by (unfold Js.get; by rewrite Hcolors).
    assert (Js.get "fonts" (JObj kit) = JObj fonts) as ->
      by (unfold Js.get; by rewrite Hfonts).
    cbn [Js.nullish orb]. rewrite Hcur. cbv zeta.
    unfold handleUpdateCarouselPreferences. rewrite Hcur. cbv zeta.
    unfold handleClearSlideOverrides. simpl.
    eexists. split; [reflexivity|]. simpl.
    match goal with |- context [spread (preferences cur) ?u] => set (updates := u) end.
    split; [done|].
    split; [unfold prop at 1; erewrite spread_updates_win; [reflexivity|subst updates; literal_lookup]|].
    split; [unfold prop at 1; erewrite spread_updates_win; [reflexivity|subst updates; literal_lookup]|].
    split; [unfold prop at 1; erewrite spread_updates_win; [reflexivity|subst updates; literal_lookup]|].
    split; [unfold prop at 1; erewrite spread_updates_win; [reflexivity|subst updates; literal_lookup]|].
    split; [unfold prop at 1; erewrite spread_updates_win; [reflexivity|subst updates; literal_lookup]|].
    split.
    { intros k h Hk Hh. apply list_elem_of_In in Hk. simpl in Hk.
      destruct Hk as [<-|[<-|[]]].
      all: erewrite spread_updates_win; [|subst updates; literal_lookup].
      all: unfold prop; by rewrite Hh. }
    split.
    { intros k Hk. unfold spread. apply lookup_union_r. subst updates.
      repeat (rewrite lookup_insert_ne;
              [|intros <-; apply Hk; repeat constructor]).
      apply lookup_singleton_ne. intros <-. apply Hk. repeat constructor. }
    split; [by rewrite !length_map|].
    split; [|done].
    intros i s Hi. rewrite !list_lookup_fmap, Hi. simpl. eexists. split; [done|].
    split; [by rewrite lookup_delete_ne, lookup_delete_eq|].
    split; [by rewrite lookup_delete_eq|].
    intros k Hb Hf. by rewrite !lookup_delete_ne.
Qed.

End BrandKitApplied.

Lemma handleApplyBrandKit_applies_witness :
  currentCarousel Sample.editingStyled = Some Sample.styled /\
  Studio.brandKit !! "colors" = Some (JObj Studio.brandColors) /\
  Studio.brandKit !! "fonts" = Some (JObj Studio.brandFonts) /\
  exists cur',
    currentCarousel
      (handleApplyBrandKit Sample.uuid Studio.defaultKit (JObj Studio.brandKit)
         "2025-01-06T00:00:00.000Z" Sample.editingStyled) = Some cur' /\
    prop "fontColor" (preferences cur') = JStr "#F8FAFC" /\
    prop "font" (preferences cur') = JStr "Lora".
Proof.
  split; [reflexivity|]. split; [reflexivity|]. split; [reflexivity|].
  destruct (handleApplyBrandKit_applies Sample.uuid Studio.defaultKit
              Sample.editingStyled Sample.styled Studio.brandKit Studio.brandColors
              Studio.brandFonts "2025-01-06T00:00:00.000Z" eq_refl eq_refl eq_refl)
    as (_ & cur' & Hcur & _ & _ & Hcolor & Hfont & _).
  exists cur'. split; [exact Hcur|]. split; [exact Hcolor|exact Hfont].
Defined.

(** ** The dashboard's statistics *)

Lemma countUp_countOf (k k' : string) (acc : list (string * Z)) :
  countOf k' (countUp k acc) = countOf k' acc + (if String.eqb k k' then 1 else 0).
Proof.
  induction acc as [|[k0 n] acc IH]; simpl; [done|].
  destruct (String.eqb_spec k0 k) as [->|Hne]; simpl.
  - destruct (String.eqb k k'); [|lia]. destruct (n =? 0) eqn:E; lia.
  - destruct (String.eqb_spec k0 k') as [->|Hne']; [|done].
    destruct (String.eqb_spec k k'); [congruence|lia].
Qed.

Lemma countUp_keys (k k' : string) (acc : list (string * Z)) :
  k' ∈ (countUp k acc).*1 <-> k' = k \/ k' ∈ acc.*1.
Proof.
  induction acc as [|[k0 n] acc IH]; simpl.
  - rewrite list_elem_of_singleton. split; [by left|]. intros [H|H]; [done|].
    by apply not_elem_of_nil in H.
  - destruct (String.eqb_spec k0 k) as [->|Hne]; simpl.
    + rewrite elem_of_cons. tauto.
    + rewrite !elem_of_cons, IH. tauto.
Qed.

Lemma countUp_NoDup (k : string) (acc : list (string * Z)) :
  NoDup acc.*1 -> NoDup (countUp k acc).*1.
Proof.
  induction acc as [|[k0 n] acc IH]; simpl; intros Hnd.
  - apply NoDup_singleton.
  - apply NoDup_cons in Hnd as [Hk0 Hnd].
    destruct (String.eqb_spec k0 k) as [->|Hne]; simpl.
    + by apply NoDup_cons.
    + apply NoDup_cons. split; [|by apply IH].
      rewrite countUp_keys. intros [H|H]; [done|by apply Hk0].
Qed.

Lemma countOf_entry (k : string) (n : Z) (acc : list (string * Z)) :
  NoDup acc.*1 -> (k, n) ∈ acc -> countOf k acc = n.
Proof.
  induction acc as [|[k0 n0] acc IH]; simpl; intros Hnd Hin.
  - by apply not_elem_of_nil in Hin.
  - apply NoDup_cons in Hnd as [Hk0 Hnd].
    apply elem_of_cons in Hin as [Heq|Hin].
    + injection Heq as <- <-. by rewrite String.eqb_refl.
    + destruct (String.eqb_spec k0 k) as [->|Hne]; [|by apply IH].
      destruct Hk0. apply list_elem_of_fmap. by exists (k, n).
Qed.

Lemma categoryCounts_snoc (h : list Carousel) (c : Carousel) :
  categoryCounts (h ++ [c]) = countUp (category c) (categoryCounts h).
Proof. unfold categoryCounts. by rewrite fold_left_app. Qed.

Lemma occurrences_snoc (k : string) (h : list Carousel) (c : Carousel) :
  occurrences k (h ++ [c])
  = occurrences k h + (if String.eqb (category c) k then 1 else 0).
Proof.
  unfold occurrences. rewrite List.filter_app, length_app. simpl.
  destruct (String.eqb (category c) k); simpl; lia.
Qed.

Lemma categoryCounts_spec (h : list Carousel) :
  NoDup (categoryCounts h).*1 /\
  (forall k, k ∈ (categoryCounts h).*1 <-> exists c, c ∈ h /\ category c = k) /\
  (forall k, countOf k (categoryCounts h) = occurrences k h).
Proof.
  induction h as [|c h (Hnd & Hkeys & Hcount)] using rev_ind.
  - split; [apply NoDup_nil_2|]. split; [|done].
    intros k. split.
    + intros H. by apply not_elem_of_nil in H.
    + intros (c & H & _). by apply not_elem_of_nil in H.
  - rewrite categoryCounts_snoc. split; [by apply countUp_NoDup|]. split.
    + intros k. rewrite countUp_keys, Hkeys. split.
      * intros [->|(c' & Hc' & <-)].
        -- exists c. split; [|done]. apply elem_of_app. right. constructor.
        -- exists c'. split; [|done]. apply elem_of_app. by left.
      * intros (c' & Hc' & <-). apply elem_of_app in Hc' as [Hc'|Hc'].
        -- right. by exists c'.
        -- apply list_elem_of_singleton in Hc' as ->. by left.
    + intros k. by rewrite countUp_countOf, Hcount, occurrences_snoc.
Qed.

Lemma reduce_greater (others : list (string * Z)) :
  forall first : string * Z,
    let r := fold_left (fun a b => if snd a >? snd b then a else b) others first in
    r ∈ first :: others /\ forall x, x ∈ first :: others -> snd x <= snd r.
Proof.
  induction others as [|b others IH]; intros first; simpl.
  - split; [constructor|]. intros x Hx. apply list_elem_of_singleton in Hx as ->. lia.
  - destruct (IH (if first.2 >? b.2 then first else b)) as [Hin Hmax].
    split.
    + apply elem_of_cons in Hin as [->|Hin].
      * destruct (first.2 >? b.2); [constructor|]. constructor. constructor.
      * constructor. by constructor.
    + intros x Hx. apply elem_of_cons in Hx as [->|Hx].
      * etrans; [|apply Hmax; constructor]. destruct (first.2 >? b.2) eqn:E; simpl; lia.
      * apply elem_of_cons in Hx as [->|Hx].
        -- etrans; [|apply Hmax; constructor]. destruct (first.2 >? b.2) eqn:E; simpl; lia.
        -- apply Hmax. by constructor.
Qed.

(** X28.  On a history that is not empty, whose categories are ordinary
    keys, the most used category shown on the dashboard is the category of
    some carousel of the history, and no category occurs in the history more
    often than it.  On the empty history it is the text N/A. *)
Theorem mostUsedCategory_is_most_used (h : list Carousel) :
  h <> [] ->
  Forall (fun c => ordinaryKey (category c) = true) h ->
  exists k,
    mostUsedCategory h = Some k /\
    (exists c, c ∈ h /\ category c = k) /\
    (forall c, c ∈ h -> occurrences (category c) h <= occurrences k h) /\
    0 < occurrences k h /\
    mostUsedCategory [] = Some "N/A".
Proof.
  intros Hne _. destruct (categoryCounts_spec h) as (Hnd & Hkeys & Hcount).
  unfold mostUsedCategory at 1.
  destruct h as [|c0 h0]; [done|]. set (h := c0 :: h0) in *.
  change (length h =? 0)%nat with false. cbv iota.
  destruct (categoryCounts h) as [|first others] eqn:Hcc.
  { assert (category c0 ∈ ([] : list (string * Z)).*1) as Hin.
    { apply Hkeys. exists c0. split; [constructor|done]. }
    by apply not_elem_of_nil in Hin. }
  destruct (reduce_greater others first) as [Hin Hmax].
  set (r := fold_left _ others first) in *.
  assert (forall x, x ∈ first :: others -> snd x = occurrences (fst x) h) as Hentry.
  { intros [k n] Hx. simpl. rewrite <- Hcount. symmetry. by apply countOf_entry. }
  assert (exists c, c ∈ h /\ category c = r.1) as (c & Hc & Hcat).
  { apply Hkeys. apply list_elem_of_fmap. by exists r. }
  exists r.1. split; [done|]. split; [by exists c|]. split; [|split; [|done]].
  - intros c' Hc'.
    assert (category c' ∈ (first :: others).*1) as Hk by (apply Hkeys; by exists c').
    apply list_elem_of_fmap in Hk as (x & Hx1 & Hx).
    rewrite Hx1, <- (Hentry x Hx), <- (Hentry r Hin). by apply Hmax.
  - unfold occurrences.
    assert (c ∈ List.filter (fun c => String.eqb (category c) r.1) h) as Hf.
    { apply list_elem_of_In, List.filter_In. split; [by apply list_elem_of_In|].
      by apply String.eqb_eq. }
    destruct (List.filter _ h); [by apply not_elem_of_nil in Hf|simpl; lia].
Qed.

Lemma mostUsedCategory_is_most_used_witness :
  [Sample.coffee; Sample.tea] <> [] /\
  Forall (fun c => ordinaryKey (category c) = true) [Sample.coffee; Sample.tea] /\
  exists k, mostUsedCategory [Sample.coffee; Sample.tea] = Some k /\
            0 < occurrences k [Sample.coffee; Sample.tea].
Proof.
  assert (Forall (fun c => ordinaryKey (category c) = true)
            [Sample.coffee; Sample.tea]) as Hord.
  { repeat constructor. }
  split; [discriminate|]. split; [exact Hord|].
  destruct (mostUsedCategory_is_most_used [Sample.coffee; Sample.tea]
              ltac:(discriminate) Hord) as (k & Hk & _ & _ & Hpos & _).
  exists k. split; [exact Hk|exact Hpos].
Defined.

(** ** The session listener *)

Section AuthRouting.

Variable messages : gmap string string.
Variable select : string -> option Profiles.row * option Postgrest.error.
Variable insert : NewProfile.data -> option Postgrest.error.


End AuthRouting.
